(** * The movie-recommendation streaming relay of [src/server.js]

    A shallow embedding of the handler registered by
    [app.post('/api/movie-recommendations', ...)]: request validation, the
    Server-Sent-Events connection with its [send] helper, the heartbeat
    interval, the [for await] loop that turns the agent's messages into
    client events, and the [try] / [catch] / [finally] that ends a request.

    JavaScript values are modelled by the JSON-shaped type [value]; the
    synchronous pieces of the handler run in a small state-and-exception
    monad over the request's state; the [await] points are the places where
    the environment (timer, client, dynamic import, agent generator) feeds
    the handler its next [input]. *)

From Stdlib Require Import List String Ascii Bool Arith ZArith Lia.
From Stdlib Require Import DecimalString.
Import ListNotations.
Local Open Scope string_scope.
Set Warnings "-register-all".

(** ** JavaScript values *)

(** The values that reach the handler are JSON-shaped: the request body comes
    out of [express.json()], the agent's messages are plain data objects.
    Numbers are restricted to integers: [VNum z] stands for the Number [z],
    which [z] is when it has at most 53 significant bits.  A [string] is
    read as a sequence of UTF-16 code units below 256, one per [ascii].  An
    object is the list of its own properties, the first binding of a name
    being the one that counts; it inherits from [Object.prototype], an array
    from [Array.prototype], and no property holds a function. *)
Inductive value : Type :=
| VUndef
| VNull
| VBool (b : bool)
| VNum (z : Z)
| VStr (s : string)
| VArr (items : list value)
| VObj (fields : list (string * value)).

Module Js.

(** [!!v] *)
Definition truthy (v : value) : bool :=
  match v with
  | VUndef | VNull => false
  | VBool b => b
  | VNum z => negb (Z.eqb z 0)
  | VStr s => negb (String.eqb s "")
  | VArr _ | VObj _ => true
  end.

(** [v === null || v === undefined] *)
Definition nullish (v : value) : bool :=
  match v with
  | VUndef | VNull => true
  | _ => false
  end.

(** [typeof v] *)
Definition typeof (v : value) : string :=
  match v with
  | VUndef => "undefined"
  | VNull => "object"
  | VBool _ => "boolean"
  | VNum _ => "number"
  | VStr _ => "string"
  | VArr _ | VObj _ => "object"
  end.

(** [Array.isArray(v)] *)
Definition isArray (v : value) : bool :=
  match v with
  | VArr _ => true
  | _ => false
  end.

(** [v.length === 0] *)
Definition is_zero_length (v : value) : bool :=
  match v with
  | VArr items => Nat.eqb (List.length items) 0
  | VStr s => Nat.eqb (String.length s) 0
  | _ => false
  end.

(** [v === s] for a string literal [s]: strict equality never converts. *)
Definition is_str (v : value) (s : string) : bool :=
  match v with
  | VStr t => String.eqb t s
  | _ => false
  end.

Fixpoint assoc (k : string) (fields : list (string * value)) : option value :=
  match fields with
  | [] => None
  | (k', v) :: rest => if String.eqb k k' then Some v else assoc k rest
  end.

(** [v.k] on a value that is neither [null] nor [undefined], for a property
    name [k] that is not an array index.  Besides [length], arrays, strings,
    numbers and booleans have no data property: none of the names the handler
    reads is inherited from a prototype. *)
Definition prop (v : value) (k : string) : value :=
  match v with
  | VObj fields =>
      match assoc k fields with
      | Some x => x
      | None => VUndef
      end
  | VArr items =>
      if String.eqb k "length" then VNum (Z.of_nat (List.length items)) else VUndef
  | VStr s =>
      if String.eqb k "length" then VNum (Z.of_nat (String.length s)) else VUndef
  | _ => VUndef
  end.

(** [a?.k] *)
Definition opt_prop (v : value) (k : string) : value :=
  if nullish v then VUndef else prop v k.

(** The white space that [String.prototype.trim] strips, among the code
    units below 256: TAB, LF, VT, FF, CR, SPACE and NO-BREAK SPACE. *)
Definition is_space (c : ascii) : bool :=
  let n := nat_of_ascii c in
  (Nat.leb 9 n && Nat.leb n 13) || Nat.eqb n 32 || Nat.eqb n 160.

Fixpoint trim_start (s : string) : string :=
  match s with
  | EmptyString => EmptyString
  | String c rest => if is_space c then trim_start rest else s
  end.

Fixpoint trim_end (s : string) : string :=
  match s with
  | EmptyString => EmptyString
  | String c rest =>
      match trim_end rest with
      | EmptyString => if is_space c then EmptyString else String c EmptyString
      | kept => String c kept
      end
  end.

(** [s.trim()] *)
Definition trim (s : string) : string := trim_end (trim_start s).

(** The shared skeleton of [Array.prototype.join]: the pieces with the
    separator between them. *)
Definition glue {A : Type} (piece : A -> string) (sep : string) : list A -> string :=
  fix go (l : list A) : string :=
    match l with
    | [] => ""
    | x :: rest =>
        match rest with
        | [] => piece x
        | _ :: _ => piece x ++ sep ++ go rest
        end
    end.

(** The decimal digits of a natural number. *)
Definition digits_of (z : Z) : string := NilZero.string_of_int (Z.to_int z).

(** The gap between the Number [z], of [2^53] or more, and the next one. *)
Definition unit_of (z : Z) : Z := 2 ^ (Z.log2 z - 52).

(** The Number nearest to the integer [x] is [z]: [x] is within half a gap
    of [z], a tie going to the Number whose mantissa is even.  Below a power
    of two the gap is half as wide.  All quantities are taken four times, to
    stay among the integers. *)
Definition reads_back (z x : Z) : bool :=
  let u := unit_of z in
  let m := (z / u)%Z in
  let below := if (m =? 2 ^ 52)%Z then u else (2 * u)%Z in
  let lo := (4 * z - below)%Z in
  let hi := (4 * z + 2 * u)%Z in
  if Z.even m
  then (lo <=? 4 * x)%Z && (4 * x <=? hi)%Z
  else (lo <? 4 * x)%Z && (4 * x <? hi)%Z.

(** The digits [s] and the position [n] of the decimal point that
    [Number::toString] prints for [z], a Number of [d] digits: the fewest
    digits [k] such that [s * 10^(n-k)] reads back as [z], the nearest to [z]
    among those, the even one of two equally near. *)
Fixpoint shortest (fuel : nat) (z d k : Z) : Z * Z :=
  match fuel with
  | O => (z, d)
  | S fuel' =>
      let scale := (10 ^ (d - k))%Z in
      let lo := (z / scale)%Z in
      let hi := (lo + 1)%Z in
      let near_lo := reads_back z (lo * scale) in
      let near_hi := reads_back z (hi * scale) in
      let found :=
        if near_lo && near_hi then
          let dl := (z - lo * scale)%Z in
          let dh := (hi * scale - z)%Z in
          if (dl <? dh)%Z then Some lo
          else if (dh <? dl)%Z then Some hi
          else if Z.even lo then Some lo else Some hi
        else if near_lo then Some lo
        else if near_hi then Some hi
        else None in
      match found with
      | Some s => if (s =? 10 ^ k)%Z then (1%Z, (d + 1)%Z) else (s, d)
      | None => shortest fuel' z d (k + 1)%Z
      end
  end.

Fixpoint zeros (n : nat) : string :=
  match n with
  | O => ""
  | S k => String "0" (zeros k)
  end.

(** [String(z)] for a Number [z >= 0]: every digit below [2^53]; from there
    on the shortest digits that read back as [z], followed by zeros up to 21
    digits, and in exponent notation beyond. *)
Definition magnitude (z : Z) : string :=
  if (Z.log2 z <? 53)%Z then digits_of z
  else
    let d := Z.of_nat (String.length (digits_of z)) in
    let (s, n) := shortest (Z.to_nat d) z d 1 in
    let ds := digits_of s in
    if (n <=? 21)%Z then ds ++ zeros (Z.to_nat n - String.length ds)
    else
      match ds with
      | String c rest =>
          String c (if String.eqb rest "" then "" else "." ++ rest)
          ++ "e+" ++ digits_of (n - 1)
      | EmptyString => ""
      end.

(** [String(z)] for a Number [z]. *)
Definition number_text (z : Z) : string :=
  if (z <? 0)%Z then "-" ++ magnitude (- z) else magnitude z.

(** [String(v)] does not throw.  It throws a [TypeError] on an object that
    has a [toString] of its own: that property hides the inherited method
    and holds no function, and the inherited [valueOf] returns the object.
    An array is converted by [join], which converts its elements. *)
Fixpoint convertible (v : value) : bool :=
  match v with
  | VObj fields =>
      match assoc "toString" fields with
      | Some _ => false
      | None => true
      end
  | VArr items => forallb convertible items
  | _ => true
  end.

(** [String(v)], for a [v] that is [convertible].  An array prints as its
    [join(',')], an object as ["[object Object]"]; inside a join, [null] and
    [undefined] print as nothing. *)
Fixpoint to_string (v : value) : string :=
  match v with
  | VUndef => "undefined"
  | VNull => "null"
  | VBool true => "true"
  | VBool false => "false"
  | VNum z => number_text z
  | VStr s => s
  | VArr items =>
      glue (fun x => if nullish x then "" else to_string x) "," items
  | VObj _ => "[object Object]"
  end.

(** [items.join(sep)], for [items] that are [convertible]. *)
Definition join (items : list value) (sep : string) : string :=
  glue (fun x => if nullish x then "" else to_string x) sep items.

(** An [Error] object, carrying its [message]. *)
Definition error (message : string) : value :=
  VObj [("message", VStr message)].

(** The runtime's [TypeError]. *)
Definition type_error (message : string) : value :=
  VObj [("name", VStr "TypeError"); ("message", VStr message)].

(** What a conversion to a string throws on a value that has none. *)
Definition no_primitive : value :=
  type_error "Cannot convert object to primitive value".

End Js.

(** ** Client events, frames and the request's state *)

(** The object literals handed to [send], one constructor per [type] tag;
    a field that the source fills from a message keeps that value as it is. *)
Inductive event : Type :=
| EStart (message : string)
| ESearch (query : value)
| EFetch (url : value)
| EThinking (content : value)
| ESummary (content : value)
| EToolProgress (toolName elapsed : value)
| EResult (content : value)
| EError (message : value)
| EDone.

(** What [res.write] is given: the heartbeat comment frame, or the frame
    [data: <JSON of the event>] followed by a blank line. *)
Inductive frame : Type :=
| Heartbeat
| Data (e : event).

(** Everything the handler does to the outside, in the order it does it. *)
Inductive effect : Type :=
| RespondJson (status : Z) (body : value)
| SetHeader (name content : string)
| FlushHeaders
| SetInterval (period : Z)
| ClearInterval
| Write (f : frame)          (* [res.write], the frame sent *)
| WriteFailed (f : frame)    (* [res.write] on a destroyed response: nothing sent *)
| ConsoleError (err : value)
| CallAgent (favoriteMovies prefs : value)
| EndResponse.

(** Where the asynchronous handler stands: suspended at
    [await import('./movie-agent.js')], suspended in the [for await] loop,
    or returned, its promise fulfilled ([None]) or rejected. *)
Inductive phase : Type :=
| Importing
| Looping
| Finished (rejection : option value).

Record state : Type := mkState {
  favoriteMovies : value;
  moviePreferences : value;
  gone : bool;             (* the client has disconnected: the response is destroyed *)
  timer : bool;            (* the heartbeat interval is active *)
  stage : phase;
  consumed : list value;   (* messages taken from the agent so far *)
  trace : list effect
}.

Definition log (e : effect) (s : state) : state :=
  mkState (favoriteMovies s) (moviePreferences s) (gone s) (timer s) (stage s)
          (consumed s) (trace s ++ [e]).

Definition set_timer (b : bool) (s : state) : state :=
  mkState (favoriteMovies s) (moviePreferences s) (gone s) b (stage s)
          (consumed s) (trace s).

Definition set_gone (s : state) : state :=
  mkState (favoriteMovies s) (moviePreferences s) true (timer s) (stage s)
          (consumed s) (trace s).

Definition set_stage (p : phase) (s : state) : state :=
  mkState (favoriteMovies s) (moviePreferences s) (gone s) (timer s) p
          (consumed s) (trace s).

Definition take (m : value) (s : state) : state :=
  mkState (favoriteMovies s) (moviePreferences s) (gone s) (timer s) (stage s)
          (consumed s ++ [m]) (trace s).

(** ** Synchronous code: state and exceptions *)

Inductive outcome (A : Type) : Type :=
| Normal (a : A)
| Thrown (err : value).
Arguments Normal {A} a.
Arguments Thrown {A} err.

Definition M (A : Type) : Type := state -> outcome A * state.

Definition ret {A : Type} (a : A) : M A := fun s => (Normal a, s).

Definition throw {A : Type} (err : value) : M A := fun s => (Thrown err, s).

Definition bind {A B : Type} (m : M A) (k : A -> M B) : M B :=
  fun s =>
    match m s with
    | (Normal a, s') => k a s'
    | (Thrown err, s') => (Thrown err, s')
    end.

(** [try { m } catch (err) { handler err }] *)
Definition try_catch {A : Type} (m : M A) (handler : value -> M A) : M A :=
  fun s =>
    match m s with
    | (Normal a, s') => (Normal a, s')
    | (Thrown err, s') => handler err s'
    end.

Definition perform (e : effect) : M unit := fun s => (Normal tt, log e s).

Declare Scope js_scope.
Delimit Scope js_scope with js.
Notation "x <- m ;; k" := (bind m (fun x => k))
  (at level 61, m at next level, right associativity) : js_scope.
Notation "m ;; k" := (bind m (fun _ => k))
  (at level 61, right associativity) : js_scope.
Local Open Scope js_scope.

(** [v.k]: reading a property of [null] or [undefined] throws. *)
Definition member (v : value) (k : string) : M value :=
  if Js.nullish v
  then throw (Js.type_error ("Cannot read properties of " ++ Js.to_string v))
  else ret (Js.prop v k).

(** [a || b], the right operand evaluated only when the left one is falsy. *)
Definition or_else (a b : M value) : M value :=
  x <- a ;; if Js.truthy x then ret x else b.

(** [v?.method(...)]: [undefined] when [v] is [null] or [undefined], the
    call otherwise. *)
Definition optional (call : value -> M value) (v : value) : M value :=
  if Js.nullish v then ret VUndef else call v.

(** [v.join(sep)]: the array method on an array, which converts to a string
    each element that is neither [null] nor [undefined] and throws where one
    has no conversion; on the other values there is no such function to
    call. *)
Definition call_join (sep : string) (v : value) : M value :=
  match v with
  | VArr items =>
      if forallb Js.convertible items
      then ret (VStr (Js.join items sep))
      else throw Js.no_primitive
  | VUndef | VNull =>
      throw (Js.type_error ("Cannot read properties of " ++ Js.to_string v))
  | _ => throw (Js.type_error "join is not a function")
  end.

(** [v.trim()]: the string method on a string. *)
Definition call_trim (v : value) : M value :=
  match v with
  | VStr s => ret (VStr (Js.trim s))
  | VUndef | VNull =>
      throw (Js.type_error ("Cannot read properties of " ++ Js.to_string v))
  | _ => throw (Js.type_error "trim is not a function")
  end.

(** [v.length] as the handler compares it: the length of a string. *)
Definition str_length (v : value) : nat :=
  match v with
  | VStr s => String.length s
  | _ => 0
  end.

Fixpoint chars (s : string) : list value :=
  match s with
  | EmptyString => []
  | String c rest => VStr (String c EmptyString) :: chars rest
  end.

(** The values [for (const x of v)] goes through: the elements of an array,
    the characters of a string; nothing else here is iterable. *)
Definition iterate (v : value) : M (list value) :=
  match v with
  | VArr items => ret items
  | VStr s => ret (chars s)
  | _ => throw (Js.type_error "is not iterable")
  end.

Fixpoint for_each (items : list value) (body : value -> M unit) : M unit :=
  match items with
  | [] => ret tt
  | x :: rest => body x ;; for_each rest body
  end.

(** ** The handler of [POST /api/movie-recommendations] *)

Module Relay.

(** [res.write(frame)], for a frame that is a string.  While the client is
    there the frame goes out.  Once the response is destroyed the call
    returns [false] and nothing goes out; it does not throw.  Neither caller
    looks at what it returns. *)
Definition res_write (f : frame) : M unit :=
  fun s =>
    if gone s
    then (Normal tt, log (WriteFailed f) s)
    else (Normal tt, log (Write f) s).

(** [const send = (data) => { try { res.write(...) } catch { } }] *)
Definition send (data : event) : M unit :=
  try_catch (res_write (Data data)) (fun _ => ret tt).

(** [clearInterval(heartbeat)] *)
Definition clearInterval : M unit :=
  fun s => (Normal tt, log ClearInterval (set_timer false s)).

(** The callback given to [setInterval(..., 15000)]. *)
Definition heartbeat : M unit :=
  try_catch (res_write Heartbeat) (fun _ => clearInterval).

(** The body of [for (const block of msg.message.content)]. *)
Definition process_block (block : value) : M unit :=
  if negb (Js.truthy block) || negb (String.eqb (Js.typeof block) "object")
  then ret tt
  else
    btype <- member block "type" ;;
    if Js.is_str btype "tool_use" then
      name <- member block "name" ;;
      if Js.is_str name "WebSearch" then
        query <- or_else (input <- member block "input" ;; ret (Js.opt_prop input "query"))
                  (or_else (input <- member block "input" ;; ret (Js.opt_prop input "q"))
                           (ret (VStr ""))) ;;
        send (ESearch query)
      else if Js.is_str name "WebFetch" then
        url <- or_else (input <- member block "input" ;; ret (Js.opt_prop input "url"))
                       (ret (VStr "")) ;;
        send (EFetch url)
      else ret tt
    else
      shown <- (if Js.is_str btype "text"
                then (text <- member block "text" ;;
                      trimmed <- optional call_trim text ;;
                      ret (Js.truthy trimmed))
                else ret false) ;;
      if shown then
        raw <- member block "text" ;;
        text <- call_trim raw ;;
        if Nat.ltb 0 (str_length text) && Nat.ltb (str_length text) 500
        then send (EThinking text)
        else ret tt
      else ret tt.

(** The body of [for await (const msg of runMovieAgent(...))]. *)
Definition process_msg (msg : value) : M unit :=
  if negb (Js.truthy msg) || negb (String.eqb (Js.typeof msg) "object")
  then ret tt
  else
    msgType <- member msg "type" ;;
    if Js.is_str msgType "result" then
      subtype <- member msg "subtype" ;;
      if Js.is_str subtype "success" then
        content <- member msg "result" ;;
        send (EResult content)
      else
        errMsg <- or_else (errors <- member msg "errors" ;; optional (call_join "; ") errors)
                          (ret (VStr "Research encountered an error")) ;;
        send (EError errMsg)
    else
      turn <- (if Js.is_str msgType "assistant"
               then (message <- member msg "message" ;;
                     ret (Js.truthy (Js.opt_prop message "content")))
               else ret false) ;;
      if turn then
        message <- member msg "message" ;;
        content <- member message "content" ;;
        blocks <- iterate content ;;
        for_each blocks process_block
      else
        summarised <- (if Js.is_str msgType "tool_use_summary"
                       then (summary <- member msg "summary" ;; ret (Js.truthy summary))
                       else ret false) ;;
        if summarised then
          summary <- member msg "summary" ;;
          send (ESummary summary)
        else
          progressed <- (if Js.is_str msgType "tool_progress"
                         then (tool <- member msg "tool_name" ;; ret (Js.truthy tool))
                         else ret false) ;;
          if progressed then
            tool <- member msg "tool_name" ;;
            elapsed <- member msg "elapsed_time_seconds" ;;
            send (EToolProgress tool elapsed)
          else ret tt.

(** [{ type: 'start', message: '...' }] *)
Definition start_event : event :=
  EStart "Starting deep research into your movie taste...".

(** [moviePreferences || {}] *)
Definition prefs_of (s : state) : value :=
  if Js.truthy (moviePreferences s) then moviePreferences s else VObj [].

(** From the resolved import to the first [await] of the loop:
    [prefs = moviePreferences || {}], the [start] event, and the call that
    creates the agent's generator. *)
Definition begin_research : M unit :=
  fun s =>
    (send start_event ;;
     perform (CallAgent (favoriteMovies s) (prefs_of s))) s.

(** [catch (err) { console.error(...); send({ type: 'error', ... }) }] *)
Definition catch_block (err : value) : M unit :=
  perform (ConsoleError err) ;;
  message <- or_else (member err "message") (ret (VStr "An unexpected error occurred")) ;;
  send (EError message).

(** [finally { clearInterval(heartbeat); res.end() }] *)
Definition finally_block : M unit :=
  clearInterval ;; perform EndResponse.

(** Leaving the [try] statement with outcome [o]: the [finally] block runs
    and the handler's promise settles. *)
Definition settle (o : outcome unit) (s : state) : state :=
  match finally_block s with
  | (Thrown err, s') => set_stage (Finished (Some err)) s'
  | (Normal _, s') =>
      set_stage (Finished (match o with Thrown err => Some err | Normal _ => None end)) s'
  end.

(** An exception reaches the [catch] clause. *)
Definition caught (err : value) (s : state) : state :=
  let (o, s') := catch_block err s in settle o s'.

(** A synchronous stretch of the [try] block, then [next]. *)
Definition resume (stretch : M unit) (next : state -> state) (s : state) : state :=
  match stretch s with
  | (Normal _, s') => next s'
  | (Thrown err, s') => caught err s'
  end.

(** What the environment does while the handler is suspended. *)
Inductive input : Type :=
| Tick                (* fifteen seconds have passed *)
| Disconnect          (* the client closes the connection, for good *)
| Loaded              (* [import('./movie-agent.js')] resolves *)
| Yield (msg : value) (* the agent's generator yields a message *)
| Return              (* the agent's generator is exhausted *)
| Raise (err : value) (* the awaited promise rejects *).

Definition step (s : state) (i : input) : state :=
  match i with
  | Tick => if timer s then snd (heartbeat s) else s
  | Disconnect => set_gone s
  | Loaded =>
      match stage s with
      | Importing => resume begin_research (set_stage Looping) s
      | _ => s
      end
  | Yield msg =>
      match stage s with
      | Looping => resume (process_msg msg) (fun s' => s') (take msg s)
      | _ => s
      end
  | Return =>
      match stage s with
      | Looping => resume (send EDone) (settle (Normal tt)) s
      | _ => s
      end
  | Raise err =>
      match stage s with
      | Importing | Looping => caught err s
      | Finished _ => s
      end
  end.

Definition run (s : state) (inputs : list input) : state :=
  fold_left step inputs s.

(** [process.env.ANTHROPIC_API_KEY] *)
Definition env_value (api_key : option string) : value :=
  match api_key with
  | Some key => VStr key
  | None => VUndef
  end.

Definition sse_headers : list effect :=
  [ SetHeader "Content-Type" "text/event-stream";
    SetHeader "Cache-Control" "no-cache";
    SetHeader "Connection" "keep-alive";
    SetHeader "X-Accel-Buffering" "no";
    FlushHeaders ].

(** The handler up to its first [await]: the two checks, then the headers
    and the interval.  [body] is [req.body]; destructuring [null] or
    [undefined] throws before anything is sent. *)
Definition handler (body : value) (api_key : option string) : state :=
  let idle favs prefs := mkState favs prefs false false Importing [] [] in
  if Js.nullish body
  then set_stage (Finished (Some (Js.type_error "Cannot destructure"))) (idle VUndef VUndef)
  else
    let favs := Js.prop body "favoriteMovies" in
    let prefs := Js.prop body "moviePreferences" in
    if negb (Js.isArray favs) || Js.is_zero_length favs then
      set_stage (Finished None)
        (log (RespondJson 400
                (VObj [("error", VStr "favoriteMovies must be a non-empty array")]))
             (idle favs prefs))
    else if negb (Js.truthy (env_value api_key)) then
      set_stage (Finished None)
        (log (RespondJson 500
                (VObj [("error", VStr "ANTHROPIC_API_KEY environment variable is not set")]))
             (idle favs prefs))
    else
      log (SetInterval 15000)
        (set_timer true
           (fold_left (fun s e => log e s) sse_headers (idle favs prefs))).

End Relay.

(** ** Reading a trace *)

Module Trace.

(** The events handed to [send], whether or not the write went through. *)
Definition sent (tr : list effect) : list event :=
  flat_map (fun e => match e with
                     | Write (Data ev) | WriteFailed (Data ev) => [ev]
                     | _ => []
                     end) tr.

(** The events that reached the client. *)
Definition written (tr : list effect) : list event :=
  flat_map (fun e => match e with
                     | Write (Data ev) => [ev]
                     | _ => []
                     end) tr.

(** All the frames that reached the client, heartbeats included. *)
Definition frames (tr : list effect) : list frame :=
  flat_map (fun e => match e with
                     | Write f => [f]
                     | _ => []
                     end) tr.

(** How many elements of [l] satisfy [p]. *)
Definition tally {A : Type} (p : A -> bool) (l : list A) : nat :=
  List.length (filter p l).

(** The effects and events that the properties count. *)
Definition is_set (e : effect) : bool :=
  match e with SetInterval _ => true | _ => false end.

Definition is_clear (e : effect) : bool :=
  match e with ClearInterval => true | _ => false end.

Definition is_end (e : effect) : bool :=
  match e with EndResponse => true | _ => false end.

Definition is_caught (e : effect) : bool :=
  match e with ConsoleError _ => true | _ => false end.

Definition is_write (e : effect) : bool :=
  match e with Write _ => true | _ => false end.

Definition is_failure (e : effect) : bool :=
  match e with WriteFailed _ => true | _ => false end.

Definition is_done (ev : event) : bool :=
  match ev with EDone => true | _ => false end.

(** A [result] or an [error] event. *)
Definition is_verdict (ev : event) : bool :=
  match ev with EResult _ | EError _ => true | _ => false end.

(** An event of the research in progress: neither a verdict nor [done]. *)
Definition progress (ev : event) : bool :=
  negb (is_verdict ev) && negb (is_done ev).

(** Once a write has failed, no later write goes through. *)
Fixpoint silent_after_failure (tr : list effect) : bool :=
  match tr with
  | [] => true
  | WriteFailed _ :: rest => negb (existsb is_write rest) && silent_after_failure rest
  | _ :: rest => silent_after_failure rest
  end.

End Trace.

(** ** Shapes of messages *)

Module Shape.

(** [msg && typeof msg === 'object'] *)
Definition objectlike (v : value) : bool :=
  match v with
  | VArr _ | VObj _ => true
  | _ => false
  end.

(** The agent's final message, [type: 'result']. *)
Definition final_result (msg : value) : bool :=
  objectlike msg && Js.is_str (Js.prop msg "type") "result".

(** A message of one of the four kinds the loop looks at. *)
Definition recognised (msg : value) : bool :=
  objectlike msg &&
  (Js.is_str (Js.prop msg "type") "result"
   || Js.is_str (Js.prop msg "type") "assistant"
   || Js.is_str (Js.prop msg "type") "tool_use_summary"
   || Js.is_str (Js.prop msg "type") "tool_progress").

(** A field that is absent, [null], or a string. *)
Definition string_or_absent (v : value) : bool :=
  match v with
  | VUndef | VNull | VStr _ => true
  | _ => false
  end.

(** A field that is absent, [null], or an array whose elements all have a
    conversion to a string. *)
Definition joinable_or_absent (v : value) : bool :=
  match v with
  | VUndef | VNull => true
  | VArr items => forallb Js.convertible items
  | _ => false
  end.

(** A content block whose [text], where the loop trims it, can be trimmed. *)
Definition block_ok (block : value) : bool :=
  if objectlike block
     && negb (Js.is_str (Js.prop block "type") "tool_use")
     && Js.is_str (Js.prop block "type") "text"
  then string_or_absent (Js.prop block "text")
  else true.

(** A [content] that is falsy, a string, or an array of good blocks. *)
Definition content_ok (content : value) : bool :=
  match content with
  | VArr blocks => forallb block_ok blocks
  | VStr _ => true
  | _ => negb (Js.truthy content)
  end.

(** The nested fields the loop calls a method on or iterates have the type
    that method or iteration needs, wherever they are present. *)
Definition well_shaped (msg : value) : bool :=
  if negb (objectlike msg) then true
  else if Js.is_str (Js.prop msg "type") "result" then
    Js.is_str (Js.prop msg "subtype") "success"
    || joinable_or_absent (Js.prop msg "errors")
  else if Js.is_str (Js.prop msg "type") "assistant" then
    content_ok (Js.opt_prop (Js.prop msg "message") "content")
  else true.

End Shape.

(** ** The loop body as a classifier *)

Module Classifier.
Import Relay Trace Shape.

(** What a call of [res.write] leaves in the trace, the client gone or not. *)
Definition attempt (g : bool) (f : frame) : effect :=
  if g then WriteFailed f else Write f.

(** The state after [send] has been called on each of [evs] in turn. *)
Definition sends (evs : list event) (s : state) : state :=
  mkState (favoriteMovies s) (moviePreferences s) (gone s) (timer s) (stage s)
          (consumed s)
          (trace s ++ map (fun ev => attempt (gone s) (Data ev)) evs).

(** [m] hands [evs] to [send], touches nothing else, and ends with [o]. *)
Definition emits {A : Type} (m : M A) (evs : list event) (o : outcome A) : Prop :=
  forall s, m s = (o, sends evs s).

(** [m] does nothing but hand some events to [send]. *)
Definition emitter {A : Type} (m : M A) : Prop :=
  exists evs o, emits m evs o.

(** A state with a connected client and an empty trace, to read off what a
    piece of the loop sends. *)
Definition probe : state :=
  mkState VUndef VUndef false false Looping [] [].

(** What the inner loop body sends for one content block, and how it ends. *)
Definition classify_block (block : value) : list event * outcome unit :=
  let r := process_block block probe in (sent (trace (snd r)), fst r).

(** What the loop body sends for one message, and how it ends. *)
Definition classify (msg : value) : list event * outcome unit :=
  let r := process_msg msg probe in (sent (trace (snd r)), fst r).

Definition events_of (msg : value) : list event := fst (classify msg).

Definition block_events (block : value) : list event := fst (classify_block block).

(** [block.input?.query || block.input?.q || ''] as a value of [input]. *)
Definition pick_query (input : value) : value :=
  if Js.truthy (Js.opt_prop input "query") then Js.opt_prop input "query"
  else if Js.truthy (Js.opt_prop input "q") then Js.opt_prop input "q"
  else VStr "".

(** [block.input?.url || ''] as a value of [input]. *)
Definition pick_url (input : value) : value :=
  if Js.truthy (Js.opt_prop input "url") then Js.opt_prop input "url" else VStr "".

(** What the [tool_use] branch of the inner loop sends for [block]. *)
Definition tool_use_events (block : value) : list event :=
  if Js.is_str (Js.prop block "name") "WebSearch"
  then [ESearch (pick_query (Js.prop block "input"))]
  else if Js.is_str (Js.prop block "name") "WebFetch"
  then [EFetch (pick_url (Js.prop block "input"))]
  else [].

(** [msg.errors?.join('; ') || 'Research encountered an error'] for an array
    of errors that [join] can convert. *)
Definition error_message (errors : list value) : value :=
  if String.eqb (Js.join errors "; ") "" then VStr "Research encountered an error"
  else VStr (Js.join errors "; ").

(** The loop body ends with an exception on [msg]. *)
Definition raises (msg : value) : bool :=
  match snd (classify msg) with
  | Thrown _ => true
  | Normal _ => false
  end.

End Classifier.

(** ** The handler as a machine *)

Module Machine.
Import Relay Trace Shape Classifier.
Local Open Scope list_scope.

(** The handler has returned: the interval is cleared, the response ended. *)
Definition stop (r : option value) (s : state) : state :=
  mkState (favoriteMovies s) (moviePreferences s) (gone s) false (Finished r)
          (consumed s) (trace s ++ [ClearInterval; EndResponse]).

(** The handler has returned. *)
Definition finished (s : state) : bool :=
  match stage s with
  | Finished _ => true
  | _ => false
  end.

(** The events the [catch] clause sends for a caught [err], and the
    exception that leaves it when [err.message] cannot be read. *)
Definition catch_events (err : value) : list event :=
  if Js.nullish err then []
  else [EError (if Js.truthy (Js.prop err "message") then Js.prop err "message"
                else VStr "An unexpected error occurred")].

(** What the handler's promise is rejected with, if it is. *)
Definition catch_rejection (err : value) : option value :=
  if Js.nullish err
  then Some (Js.type_error ("Cannot read properties of " ++ Js.to_string err)%string)
  else None.

(** The state after the [catch] clause and the [finally] block. *)
Definition after_catch (err : value) (s : state) : state :=
  stop (catch_rejection err) (sends (catch_events err) (log (ConsoleError err) s)).

(** The shapes a step of the handler can take, each with the condition
    under which it is taken: every [step s i] is one of them. *)
Inductive transition (s : state) : state -> Prop :=
| T_none : transition s s
| T_disconnect : transition s (set_gone s)
| T_beat :
    timer s = true -> gone s = false ->
    transition s (log (Write Heartbeat) s)
| T_lost_beat :
    timer s = true -> gone s = true ->
    transition s (log (WriteFailed Heartbeat) s)
| T_loaded :
    stage s = Importing ->
    transition s (set_stage Looping
                    (log (CallAgent (favoriteMovies s) (prefs_of s)) (sends [start_event] s)))
| T_message m :
    stage s = Looping -> raises m = false ->
    transition s (sends (events_of m) (take m s))
| T_message_raises m err :
    stage s = Looping -> raises m = true ->
    transition s (after_catch err (sends (events_of m) (take m s)))
| T_return :
    stage s = Looping ->
    transition s (stop None (sends [EDone] s))
| T_raise err :
    finished s = false ->
    transition s (after_catch err s).

(** The life of the heartbeat interval, as the trace records it: created
    once; cleared once, by the [finally] block; active exactly while the
    handler runs. *)
Definition lifetime_inv (s : state) : Prop :=
  tally is_set (trace s) = 1
  /\ tally is_end (trace s) = (if finished s then 1 else 0)
  /\ tally is_clear (trace s) = (if finished s then 1 else 0)
  /\ timer s = negb (finished s)
  /\ (finished s = true ->
      exists before, trace s = before ++ [ClearInterval; EndResponse]).

(** The events sent so far, stage by stage, as long as the [catch] clause
    has not been entered; with the client connected they were all written. *)
Definition events_inv (s : state) : Prop :=
  (gone s = false -> written (trace s) = sent (trace s)) /\
  match stage s with
  | Importing =>
      sent (trace s) = [] /\ consumed s = [] /\ tally is_caught (trace s) = 0
  | Looping =>
      sent (trace s) = start_event :: flat_map events_of (consumed s)
      /\ forallb well_shaped (consumed s) = true
      /\ tally is_caught (trace s) = 0
  | Finished r =>
      tally is_caught (trace s) = 0 ->
      sent (trace s) = (start_event :: flat_map events_of (consumed s)) ++ [EDone]
      /\ forallb well_shaped (consumed s) = true
      /\ r = None
  end.

(** No write has gone through after a failed one, and none has failed
    while the client is connected. *)
Definition silence_inv (s : state) : Prop :=
  silent_after_failure (trace s) = true
  /\ (gone s = false -> existsb is_failure (trace s) = false).

(** The state after the messages [ms] have been taken from the agent. *)
Definition takes (ms : list value) (s : state) : state :=
  mkState (favoriteMovies s) (moviePreferences s) (gone s) (timer s) (stage s)
          (consumed s ++ ms) (trace s).

End Machine.

(** ** The specification's wording *)

Module Spec.
Import Relay Trace Shape Classifier Machine.
Local Open Scope list_scope.

(** "Present": the input is an object that has a field of that name. *)
Definition present (input : value) (name : string) : option value :=
  match input with
  | VObj fields => Js.assoc name fields
  | _ => None
  end.

(** "The first of the recognized input field names, defaulting to the empty
    string if none is present." *)
Fixpoint first_present (names : list string) (input : value) : value :=
  match names with
  | [] => VStr ""
  | name :: others =>
      match present input name with
      | Some x => x
      | None => first_present others input
      end
  end.

(** Every recognized field that the input has carries a truthy value. *)
Definition usable (names : list string) (input : value) : Prop :=
  forall name x, In name names -> present input name = Some x -> Js.truthy x = true.




(** The events the specification gives a [tool-invocation] block. *)
Definition tool_events (block : value) : list event :=
  if Js.is_str (Js.prop block "name") "WebSearch"
  then [ESearch (first_present ["query"; "q"] (Js.prop block "input"))]
  else if Js.is_str (Js.prop block "name") "WebFetch"
  then [EFetch (first_present ["url"] (Js.prop block "input"))]
  else [].

(** "Ends with exactly one [done], and exactly one of [result]/[error]
    precedes it, or neither when there was no final-result message." *)
Definition one_verdict_then_done (evs : list event) (final_results : nat) : Prop :=
  exists before,
    evs = before ++ [EDone]
    /\ tally is_done before = 0
    /\ (tally is_verdict before = 1
        \/ (tally is_verdict before = 0 /\ final_results = 0)).

(** "Cancelled exactly once when the request reaches any terminal state",
    a client disconnect being one of them. *)
Definition cancelled_once_when_terminal (s : state) : Prop :=
  gone s = true \/ finished s = true ->
  timer s = false /\ tally is_clear (trace s) = 1.

(** A call of [res.write]. *)
Definition is_attempt (e : effect) : bool := is_write e || is_failure e.

(** "No further writes are produced after the first failed write." *)
Fixpoint no_write_after_failure (tr : list effect) : bool :=
  match tr with
  | [] => true
  | WriteFailed _ :: rest => negb (existsb is_attempt rest)
  | _ :: rest => no_write_after_failure rest
  end.

(** "Classification never raises." *)
Definition classification_total : Prop :=
  forall msg, raises msg = false.

(** "The fixed fallback string exactly when the error sequence is empty",
    for a failure whose errors are the strings [descriptions]. *)
Definition fallback_exactly_when_empty (descriptions : list string) : Prop :=
  error_message (map VStr descriptions) = VStr "Research encountered an error"
  <-> descriptions = [].

End Spec.

(** ** Requests, messages and schedules used as examples *)

Module Examples.
Import Relay.
Local Open Scope list_scope.

Definition request : value :=
  VObj [("favoriteMovies", VArr [VStr "Inception"])].


Definition search_block : value :=
  VObj [("type", VStr "tool_use"); ("name", VStr "WebSearch");
        ("input", VObj [("query", VStr "Inception reviews")])].

Definition short_query_block : value :=
  VObj [("type", VStr "tool_use"); ("name", VStr "WebSearch");
        ("input", VObj [("query", VStr ""); ("q", VStr "Memento")])].

Definition fetch_block : value :=
  VObj [("type", VStr "tool_use"); ("name", VStr "WebFetch");
        ("input", VObj [("url", VStr "https://www.rogerebert.com/")])].

Definition text_block : value :=
  VObj [("type", VStr "text"); ("text", VStr "  Looking at the reviews. ")].

(** A text of [n] letters. *)
Fixpoint filler (n : nat) : string :=
  match n with
  | 0 => ""
  | S k => String "a" (filler k)
  end.

Definition long_text_block (n : nat) : value :=
  VObj [("type", VStr "text"); ("text", VStr (" " ++ filler n ++ " "))].

Definition numeric_text_block : value :=
  VObj [("type", VStr "text"); ("text", VNum 42)].

Definition turn (blocks : list value) : value :=
  VObj [("type", VStr "assistant"); ("message", VObj [("content", VArr blocks)])].

Definition success : value :=
  VObj [("type", VStr "result"); ("subtype", VStr "success");
        ("result", VStr "Try Memento and Primer.")].

Definition failure (errors : value) : value :=
  VObj [("type", VStr "result"); ("subtype", VStr "error_during_execution");
        ("errors", errors)].

Definition boom : value := VObj [("message", VStr "boom")].

End Examples.

(** ** What the loop can and cannot observe *)

Module Views.
Import Relay Trace Shape Classifier Machine.
Local Open Scope list_scope.

(** The inputs the handler itself awaits: the import and the agent's
    generator, as opposed to the timer and the client. *)
Definition awaited (i : input) : bool :=
  match i with
  | Tick | Disconnect => false
  | _ => true
  end.

(** The calls of [runMovieAgent], with their arguments. *)
Definition calls (tr : list effect) : list (value * value) :=
  flat_map (fun e => match e with
                     | CallAgent favs prefs => [(favs, prefs)]
                     | _ => []
                     end) tr.

(** Two states that agree on the request, on where the handler stands, on
    the messages taken and on the events handed to [send]. *)
Definition same_view (s1 s2 : state) : Prop :=
  favoriteMovies s1 = favoriteMovies s2
  /\ moviePreferences s1 = moviePreferences s2
  /\ stage s1 = stage s2
  /\ consumed s1 = consumed s2
  /\ sent (trace s1) = sent (trace s2)
  /\ calls (trace s1) = calls (trace s2).

(** A runtime [TypeError] with a message. *)
Definition type_error_raised (err : value) : Prop :=
  exists text, err = Js.type_error text /\ text <> "".

(** Whatever [m] throws is such a [TypeError]. *)
Definition throws_type_errors {A : Type} (m : M A) : Prop :=
  forall s err s', m s = (Thrown err, s') -> type_error_raised err.

(** [err.message || 'An unexpected error occurred'] *)
Definition error_text (err : value) : value :=
  if Js.truthy (Js.prop err "message") then Js.prop err "message"
  else VStr "An unexpected error occurred".

(** The handler's promise has been rejected. *)
Definition rejected (s : state) : bool :=
  match stage s with
  | Finished (Some _) => true
  | _ => false
  end.

(** What has been sent and who has been called, stage by stage: nothing
    while the import is pending; [start] first and one call of the agent
    once the loop runs; and after the end either that, or no call and at
    most the one [error] event of a failed import. *)
Definition opening_inv (s : state) : Prop :=
  match stage s with
  | Importing => sent (trace s) = [] /\ calls (trace s) = []
  | Looping =>
      calls (trace s) = [(favoriteMovies s, prefs_of s)]
      /\ exists rest, sent (trace s) = start_event :: rest
  | Finished _ =>
      (calls (trace s) = []
       /\ (sent (trace s) = [] \/ exists message, sent (trace s) = [EError message]))
      \/ (calls (trace s) = [(favoriteMovies s, prefs_of s)]
          /\ exists rest, sent (trace s) = start_event :: rest)
  end.

End Views.

(** ** The message board *)

(** What [JSON.parse(JSON.stringify(v))] gives back for a [v] other than
    [undefined]: an [undefined] item of an array comes back as [null], a
    property whose value is [undefined] is gone. *)
Module Json.

Definition drop (k : string) (fields : list (string * value)) : list (string * value) :=
  filter (fun kv => negb (String.eqb k (fst kv))) fields.

Fixpoint normal (v : value) : value :=
  match v with
  | VArr items =>
      VArr (map (fun x => match x with
                          | VUndef => VNull
                          | _ => normal x
                          end) items)
  | VObj fields =>
      VObj ((fix go (l : list (string * value)) : list (string * value) :=
               match l with
               | [] => []
               | (k, x) :: rest =>
                   match x with
                   | VUndef => drop k (go rest)
                   | _ => (k, normal x) :: drop k (go rest)
                   end
               end) fields)
  | _ => v
  end.

(** A value as [JSON.parse] returns them. *)
Definition parsed (v : value) : Prop := normal v = v.

End Json.

Module Board.
Local Open Scope list_scope.

Definition MAX_MESSAGE_LENGTH : nat := 280.

(** [MESSAGES_FILE]: absent, holding text that is not JSON, or holding the
    JSON text of [content]. *)
Inductive file : Type :=
| Missing
| Broken
| Stored (content : value).

(** What a handler answers: [res.status(n).json(body)] ([res.json(body)] for
    200), or [res.sendStatus(n)]. *)
Inductive reply : Type :=
| ReplyJson (status : Z) (body : value)
| ReplyStatus (status : Z).

(** What [sendTelegramNotification] does before its first [await]: the
    warning of a missing configuration, or the request to the Bot API. *)
Inductive notice : Type :=
| Skipped
| Requested (url : string) (body : value).

Record board : Type := mkBoard {
  disk : file;
  notices : list notice
}.

(** The process's configuration and the clock readings of one request:
    [TELEGRAM_BOT_TOKEN], [TELEGRAM_CHAT_ID], [Date.now()] and
    [new Date().toISOString()]. *)
Record context : Type := mkContext {
  token : option string;
  chat_id : option string;
  now : Z;
  iso : string
}.

Definition B (A : Type) : Type := board -> outcome A * board.

Definition retB {A : Type} (a : A) : B A := fun b => (Normal a, b).

Definition throwB {A : Type} (err : value) : B A := fun b => (Thrown err, b).

Definition bindB {A C : Type} (m : B A) (k : A -> B C) : B C :=
  fun b =>
    match m b with
    | (Normal a, b') => k a b'
    | (Thrown err, b') => (Thrown err, b')
    end.

Declare Scope board_scope.
Delimit Scope board_scope with board.
Notation "x <- m ;; k" := (bindB m (fun x => k))
  (at level 61, m at next level, right associativity) : board_scope.
Notation "m ;; k" := (bindB m (fun _ => k))
  (at level 61, right associativity) : board_scope.
Local Open Scope board_scope.

(** The start of the server: the file is created, holding [[]], when it
    does not exist. *)
Definition start_up (f : file) : file :=
  match f with
  | Missing => Stored (VArr [])
  | _ => f
  end.

(** [JSON.parse(fs.readFileSync(MESSAGES_FILE, 'utf-8'))] *)
Definition readMessages : B value :=
  fun b =>
    match disk b with
    | Stored content => (Normal content, b)
    | Broken => (Thrown (Js.error "Unexpected token in JSON"), b)
    | Missing => (Thrown (Js.error "ENOENT: no such file or directory"), b)
    end.

(** [fs.writeFileSync(MESSAGES_FILE, JSON.stringify(messages, null, 2))]:
    [JSON.stringify(undefined)] is [undefined], which cannot be written. *)
Definition writeMessages (messages : value) : B unit :=
  fun b =>
    match messages with
    | VUndef => (Thrown (Js.type_error "The data argument must be of type string"), b)
    | _ => (Normal tt, mkBoard (Stored (Json.normal messages)) (notices b))
    end.

(** [messages.push(entry)], giving the array as it is afterwards. *)
Definition push (messages entry : value) : B value :=
  match messages with
  | VArr items => retB (VArr (items ++ [entry]))
  | VUndef | VNull =>
      throwB (Js.type_error ("Cannot read properties of " ++ Js.to_string messages))
  | _ => throwB (Js.type_error "messages.push is not a function")
  end.

(** [v.k]: reading a property of [null] or [undefined] throws. *)
Definition memberB (v : value) (k : string) : B value :=
  if Js.nullish v
  then throwB (Js.type_error ("Cannot read properties of " ++ Js.to_string v))
  else retB (Js.prop v k).

Definition notify (n : notice) : B unit :=
  fun b => (Normal tt, mkBoard (disk b) (notices b ++ [n])).

Definition newline : string := String (ascii_of_nat 10) "".

(** [sendTelegramNotification(text)] up to its [await fetch(...)]; what
    comes after only writes to the console. *)
Definition sendTelegramNotification (c : context) (text : string) : B unit :=
  if negb (Js.truthy (Relay.env_value (token c)))
     || negb (Js.truthy (Relay.env_value (chat_id c)))
  then notify Skipped
  else
    notify (Requested
              ("https://api.telegram.org/bot"
               ++ Js.to_string (Relay.env_value (token c)) ++ "/sendMessage")
              (VObj [("chat_id", Relay.env_value (chat_id c)); ("text", VStr text)])).

(** [app.get('/api/messages', ...)] *)
Definition get_messages : B reply :=
  messages <- readMessages ;;
  retB (ReplyJson 200 messages).

(** [message.trim()] for the string that [message] is past the first check. *)
Definition trimmed_of (message : value) : string :=
  match message with
  | VStr text => Js.trim text
  | _ => ""
  end.

(** The record [POST /api/messages] stores. *)
Definition posted_entry (c : context) (trimmed : string) : value :=
  VObj [("id", VNum (now c)); ("message", VStr trimmed); ("timestamp", VStr (iso c))].

(** [app.post('/api/messages', ...)]; [body] is [req.body]. *)
Definition post_message (c : context) (body : value) : B reply :=
  message <- memberB body "message" ;;
  if negb (Js.truthy message) || negb (String.eqb (Js.typeof message) "string")
  then retB (ReplyJson 400 (VObj [("error", VStr "Message is required")]))
  else
    let trimmed := trimmed_of message in
    if Nat.eqb (String.length trimmed) 0
    then retB (ReplyJson 400 (VObj [("error", VStr "Message cannot be empty")]))
    else if Nat.ltb MAX_MESSAGE_LENGTH (String.length trimmed)
    then retB (ReplyJson 400
                 (VObj [("error", VStr "Message must be 280 characters or less")]))
    else
      messages <- readMessages ;;
      let entry := posted_entry c trimmed in
      messages <- push messages entry ;;
      writeMessages messages ;;
      sendTelegramNotification c
        ("New message on Message Board:" ++ newline ++ newline ++ trimmed) ;;
      retB (ReplyJson 201 entry).

(** [from.username ? `@${from.username}`
      : [from.first_name, from.last_name].filter(Boolean).join(' ')] *)
Definition sender_of (from : value) : B string :=
  username <- memberB from "username" ;;
  if Js.truthy username
  then
    if Js.convertible username
    then retB ("@" ++ Js.to_string username)%string
    else throwB Js.no_primitive
  else
    first_name <- memberB from "first_name" ;;
    last_name <- memberB from "last_name" ;;
    if forallb Js.convertible (filter Js.truthy [first_name; last_name])
    then retB (Js.join (filter Js.truthy [first_name; last_name]) " ")
    else throwB Js.no_primitive.

(** The record the webhook stores. *)
Definition telegram_entry (c : context) (text : value) (sender : string) : value :=
  VObj [("id", VNum (now c)); ("message", text); ("timestamp", VStr (iso c));
        ("source", VStr "telegram"); ("sender", VStr sender)].

(** [app.post('/api/telegram-webhook', ...)]; [update] is [req.body]. *)
Definition telegram_webhook (c : context) (update : value) : B reply :=
  let text := Js.opt_prop (Js.opt_prop update "message") "text" in
  if negb (Js.truthy text)
  then retB (ReplyStatus 200)
  else
    message <- memberB update "message" ;;
    from <- memberB message "from" ;;
    sender <- sender_of from ;;
    messages <- readMessages ;;
    let entry := telegram_entry c text sender in
    messages <- push messages entry ;;
    writeMessages messages ;;
    retB (ReplyStatus 200).

(** The requests the board serves. *)
Inductive route : Type :=
| GetMessages
| PostMessage (c : context) (body : value)
| Webhook (c : context) (update : value).

Definition serve (r : route) : B reply :=
  match r with
  | GetMessages => get_messages
  | PostMessage c body => post_message c body
  | Webhook c update => telegram_webhook c update
  end.

(** One request after the other; a handler that throws answers nothing. *)
Fixpoint serve_all (rs : list route) (b : board) : list (outcome reply) * board :=
  match rs with
  | [] => ([], b)
  | r :: rest =>
      let (o, b') := serve r b in
      let (os, b'') := serve_all rest b' in
      (o :: os, b'')
  end.

(** A message the board accepts: a string that trims to between 1 and 280
    characters. *)
Definition acceptable (message : value) : bool :=
  match message with
  | VStr text =>
      Nat.ltb 0 (String.length (Js.trim text))
      && Nat.leb (String.length (Js.trim text)) MAX_MESSAGE_LENGTH
  | _ => false
  end.

(** The record a post leaves on the board. *)
Definition entry_of (p : context * value) : value :=
  posted_entry (fst p) (trimmed_of (Js.prop (snd p) "message")).

(** A post the board accepts. *)
Definition accepted_post (p : context * value) : Prop :=
  Js.nullish (snd p) = false /\ acceptable (Js.prop (snd p) "message") = true.

(** The sender the webhook records for a [from] that is an object. *)
Definition sender_text (from : value) : string :=
  if Js.truthy (Js.prop from "username")
  then ("@" ++ Js.to_string (Js.prop from "username"))%string
  else Js.join (filter Js.truthy [Js.prop from "first_name"; Js.prop from "last_name"]) " ".

(** The names the sender is made of can be converted to strings. *)
Definition printable_sender (from : value) : bool :=
  if Js.truthy (Js.prop from "username")
  then Js.convertible (Js.prop from "username")
  else forallb Js.convertible
         (filter Js.truthy [Js.prop from "first_name"; Js.prop from "last_name"]).

(** A name as Telegram sends it: a string, or none. *)
Definition name_like (v : value) : bool :=
  match v with
  | VStr _ | VUndef | VNull => true
  | _ => false
  end.

(** [update?.message?.text] *)
Definition update_text (update : value) : value :=
  Js.opt_prop (Js.opt_prop update "message") "text".

(** [update.message.from] where [update.message] is there. *)
Definition update_from (update : value) : value :=
  Js.prop (Js.prop update "message") "from".


(** The configuration lacks the bot's token or the chat's id. *)
Definition unconfigured (c : context) : Prop :=
  Js.truthy (Relay.env_value (token c)) = false
  \/ Js.truthy (Relay.env_value (chat_id c)) = false.

End Board.

(** ** The agent's prompt *)

(** [runMovieAgent] of [movie-agent.js], for favourites that are strings and
    a [moviePreferences] that is a plain object, given by its own
    properties: what [JSON.parse] returns for an object, and the [{}] the
    handler passes when the request has none. *)
Module Agent.
Import Relay.
Local Open Scope list_scope.

(** The names a plain object inherits from [Object.prototype]: under each
    is a function, under [__proto__] the prototype itself. *)
Definition object_prototype : list string :=
  ["constructor"; "__defineGetter__"; "__defineSetter__"; "hasOwnProperty";
   "__lookupGetter__"; "__lookupSetter__"; "isPrototypeOf"; "propertyIsEnumerable";
   "toString"; "valueOf"; "__proto__"; "toLocaleString"].

(** What [moviePreferences[movie]] finds. *)
Inductive found : Type :=
| Own (v : value)
| Inherited
| Absent.

(** [moviePreferences[movie]] *)
Definition computed (moviePreferences : list (string * value)) (movie : string) : found :=
  match Js.assoc movie moviePreferences with
  | Some v => Own v
  | None =>
      if existsb (String.eqb movie) object_prototype then Inherited else Absent
  end.

(** What calling [prefs.trim] throws when [prefs] is not a string: none of
    the other values has a function under that name. *)
Definition not_a_function : value :=
  Js.type_error "prefs.trim is not a function".

(** [prefs && prefs.trim()]: the trimmed text when the condition holds. *)
Definition noted (prefs : found) : outcome (option string) :=
  match prefs with
  | Absent => Normal None
  | Inherited => Thrown not_a_function
  | Own v =>
      if Js.truthy v
      then match v with
           | VStr s =>
               Normal (if Js.truthy (VStr (Js.trim s)) then Some (Js.trim s) else None)
           | _ => Thrown not_a_function
           end
      else Normal None
  end.

Definition quote : string := String (ascii_of_nat 34) "".

(** [`${n}`] for a count [n] *)
Definition decimal (n : nat) : string :=
  NilZero.string_of_uint (Nat.to_uint n).

(** [`${i + 1}. "${movie}"\n   `], the start of both templates *)
Definition heading (i : nat) (movie : string) : string :=
  (decimal (i + 1) ++ ". " ++ quote ++ movie ++ quote ++ Board.newline ++ "   ")%string.

(** The callback of [favoriteMovies.map]. *)
Definition entry (moviePreferences : list (string * value)) (i : nat) (movie : string)
  : outcome string :=
  match noted (computed moviePreferences movie) with
  | Thrown err => Thrown err
  | Normal (Some love) =>
      Normal (heading i movie ++ "What I love about it: " ++ love)%string
  | Normal None => Normal (heading i movie ++ "(No specific preference noted)")%string
  end.

(** [favoriteMovies.map((movie, i) => ...)] from index [i] on: the first
    callback that throws ends it. *)
Fixpoint entries (moviePreferences : list (string * value)) (i : nat)
    (favoriteMovies : list string) : outcome (list string) :=
  match favoriteMovies with
  | [] => Normal []
  | movie :: rest =>
      match entry moviePreferences i movie with
      | Thrown err => Thrown err
      | Normal e =>
          match entries moviePreferences (S i) rest with
          | Thrown err => Thrown err
          | Normal es => Normal (e :: es)
          end
      end
  end.

(** [const moviesContext = favoriteMovies.map(...).join('\n\n')] *)
Definition moviesContext (favoriteMovies : list string)
    (moviePreferences : list (string * value)) : outcome string :=
  match entries moviePreferences 0 favoriteMovies with
  | Thrown err => Thrown err
  | Normal es => Normal (Js.glue (fun e => e) (Board.newline ++ Board.newline)%string es)
  end.

(** What the generator gives the loop that drives it.  Nothing of its body
    runs before the first [next()]; the prompt is built then, and a throw
    there rejects that [next()].  Else [query] is called, and what it yields
    is yielded as it comes: [query] stands for the SDK, as a function of the
    one part of the prompt and options that varies. *)
Definition runMovieAgent (favoriteMovies : list string)
    (moviePreferences : list (string * value)) (query : string -> list input)
  : list input :=
  match moviesContext favoriteMovies moviePreferences with
  | Thrown err => [Raise err]
  | Normal context => query context
  end.

(** A preference the prompt cannot be built with: truthy and not a string,
    be it the request's own or one of [Object.prototype]. *)
Definition unusable (moviePreferences : list (string * value)) (movie : string) : bool :=
  match Js.assoc movie moviePreferences with
  | Some v => Js.truthy v && negb (String.eqb (Js.typeof v) "string")
  | None => existsb (String.eqb movie) object_prototype
  end.

(** The text after the heading of a favourite's entry. *)
Definition note_of (moviePreferences : list (string * value)) (movie : string) : string :=
  match Js.assoc movie moviePreferences with
  | Some (VStr s) =>
      if String.eqb (Js.trim s) ""
      then "(No specific preference noted)"
      else ("What I love about it: " ++ Js.trim s)%string
  | _ => "(No specific preference noted)"
  end.

End Agent.

(** * Properties *)

Local Open Scope list_scope.

(** ** The monad and the classifier *)

Module ClassifierFacts.
Import Relay Trace Shape Classifier.

Lemma guard_objectlike (v : value) :
  negb (Js.truthy v) || negb (String.eqb (Js.typeof v) "object") = negb (objectlike v).
Proof. destruct v as [ | | [|] | z | s | l | f]; try reflexivity.
  - simpl. now rewrite orb_true_r.
  - simpl. now rewrite orb_true_r.
Qed.

Lemma objectlike_not_nullish (v : value) : objectlike v = true -> Js.nullish v = false.
Proof. destruct v; simpl; congruence. Qed.

Lemma sends_nil (s : state) : sends [] s = s.
Proof. destruct s; unfold sends; simpl. now rewrite app_nil_r. Qed.

Lemma sends_app (a b : list event) (s : state) :
  sends (a ++ b) s = sends b (sends a s).
Proof. unfold sends; simpl. now rewrite map_app, app_assoc. Qed.

Lemma send_sends (ev : event) (s : state) : send ev s = (Normal tt, sends [ev] s).
Proof.
  unfold send, try_catch, res_write, sends, attempt, log, ret.
  destruct (gone s); reflexivity.
Qed.

Lemma sent_app (a b : list effect) : sent (a ++ b) = sent a ++ sent b.
Proof. apply flat_map_app. Qed.

Lemma sent_attempts (g : bool) (evs : list event) :
  sent (map (fun ev => attempt g (Data ev)) evs) = evs.
Proof.
  induction evs as [|ev evs IH]; [reflexivity|].
  change (sent (attempt g (Data ev) :: map (fun ev => attempt g (Data ev)) evs) = ev :: evs).
  rewrite <- IH at 2. destruct g; reflexivity.
Qed.

Lemma sent_sends_probe (evs : list event) : sent (trace (sends evs probe)) = evs.
Proof. exact (sent_attempts false evs). Qed.

Lemma emits_ret {A : Type} (a : A) : emits (ret a) [] (Normal a).
Proof. intro s. unfold ret. now rewrite sends_nil. Qed.

Lemma emits_throw {A : Type} (err : value) : emits (@throw A err) [] (Thrown err).
Proof. intro s. unfold throw. now rewrite sends_nil. Qed.

Lemma emits_send (ev : event) : emits (send ev) [ev] (Normal tt).
Proof. intro s. apply send_sends. Qed.

Lemma emits_bind {A B : Type} (m : M A) (k : A -> M B) a evs1 evs2 o :
  emits m evs1 (Normal a) -> emits (k a) evs2 o -> emits (bind m k) (evs1 ++ evs2) o.
Proof. intros Hm Hk s. unfold bind. now rewrite Hm, Hk, sends_app. Qed.

Lemma emits_bind_thrown {A B : Type} (m : M A) (k : A -> M B) err evs :
  emits m evs (Thrown err) -> emits (bind m k) evs (Thrown err).
Proof. intros Hm s. unfold bind. now rewrite Hm. Qed.

Lemma emits_unique {A : Type} (m : M A) evs1 evs2 o1 o2 :
  emits m evs1 o1 -> emits m evs2 o2 -> evs1 = evs2 /\ o1 = o2.
Proof.
  intros H1 H2. specialize (H1 probe). specialize (H2 probe).
  rewrite H1 in H2.
  assert (Ho : o1 = o2) by congruence.
  assert (Hs : sends evs1 probe = sends evs2 probe) by congruence.
  split; [|exact Ho].
  apply (f_equal (fun s => sent (trace s))) in Hs.
  now rewrite !sent_sends_probe in Hs.
Qed.

Lemma emitter_ret {A : Type} (a : A) : emitter (ret a).
Proof. eexists _, _. apply emits_ret. Qed.

Lemma emitter_throw {A : Type} (err : value) : emitter (@throw A err).
Proof. eexists _, _. apply emits_throw. Qed.

Lemma emitter_send (ev : event) : emitter (send ev).
Proof. eexists _, _. apply emits_send. Qed.

Lemma emitter_bind {A B : Type} (m : M A) (k : A -> M B) :
  emitter m -> (forall a, emitter (k a)) -> emitter (bind m k).
Proof.
  intros (evs & [a|err] & Hm) Hk.
  - destruct (Hk a) as (evs2 & o & Hka). eexists _, _. eapply emits_bind; eauto.
  - eexists _, _. apply emits_bind_thrown. exact Hm.
Qed.

Lemma emitter_member (v : value) (k : string) : emitter (member v k).
Proof. unfold member. destruct (Js.nullish v); [apply emitter_throw | apply emitter_ret]. Qed.

Lemma emitter_call_join (sep : string) (v : value) : emitter (call_join sep v).
Proof.
  destruct v; simpl; try destruct (forallb Js.convertible items);
    first [apply emitter_throw | apply emitter_ret].
Qed.

Lemma emitter_call_trim (v : value) : emitter (call_trim v).
Proof. destruct v; simpl; first [apply emitter_throw | apply emitter_ret]. Qed.

Lemma emitter_optional (call : value -> M value) (v : value) :
  (forall x, emitter (call x)) -> emitter (optional call v).
Proof. intro H. unfold optional. destruct (Js.nullish v); [apply emitter_ret | apply H]. Qed.

Lemma emitter_iterate (v : value) : emitter (iterate v).
Proof. destruct v; simpl; first [apply emitter_throw | apply emitter_ret]. Qed.

Lemma emitter_or_else (a b : M value) : emitter a -> emitter b -> emitter (or_else a b).
Proof.
  intros Ha Hb. unfold or_else. apply emitter_bind; [exact Ha|].
  intro x. destruct (Js.truthy x); [apply emitter_ret | exact Hb].
Qed.

Lemma emitter_for_each (items : list value) (body : value -> M unit) :
  (forall x, emitter (body x)) -> emitter (for_each items body).
Proof.
  intro Hbody. induction items as [|x rest IH]; simpl.
  - apply emitter_ret.
  - apply emitter_bind; [apply Hbody | intros _; exact IH].
Qed.

Create HintDb emitters.

#[local] Hint Resolve emitter_ret emitter_throw emitter_send emitter_member
  emitter_call_join emitter_call_trim emitter_iterate : emitters.

Ltac emitter_cases :=
  repeat first
    [ solve [auto with emitters]
    | apply emitter_or_else
    | apply emitter_optional; intro
    | apply emitter_bind; [|intro]
    | match goal with
      | |- emitter (if ?c then _ else _) => destruct c
      end ].

Lemma emitter_process_block (block : value) : emitter (process_block block).
Proof. unfold process_block. emitter_cases. Qed.

Lemma emitter_process_msg (msg : value) : emitter (process_msg msg).
Proof.
  unfold process_msg. emitter_cases.
  apply emitter_for_each. exact emitter_process_block.
Qed.

(** The inner loop body does on any state what [classify_block] reads off. *)
Lemma process_block_classify (block : value) :
  emits (process_block block) (fst (classify_block block)) (snd (classify_block block)).
Proof.
  destruct (emitter_process_block block) as (evs & o & H).
  unfold classify_block. rewrite (H probe).
  cbn [fst snd]. rewrite sent_sends_probe. exact H.
Qed.

(** The loop body does on any state what [classify] reads off. *)
Lemma process_msg_classify (msg : value) :
  emits (process_msg msg) (events_of msg) (snd (classify msg)).
Proof.
  destruct (emitter_process_msg msg) as (evs & o & H).
  unfold events_of, classify. rewrite (H probe).
  cbn [fst snd]. rewrite sent_sends_probe. exact H.
Qed.

Lemma emits_classify (msg : value) evs o :
  emits (process_msg msg) evs o -> events_of msg = evs /\ snd (classify msg) = o.
Proof. intro H. exact (emits_unique _ _ _ _ _ (process_msg_classify msg) H). Qed.

Lemma emits_classify_block (block : value) evs o :
  emits (process_block block) evs o ->
  fst (classify_block block) = evs /\ snd (classify_block block) = o.
Proof. intro H. exact (emits_unique _ _ _ _ _ (process_block_classify block) H). Qed.

End ClassifierFacts.

(** ** One content block *)

Module BlockFacts.
Import Relay Trace Shape Classifier ClassifierFacts.

Lemma bind_member {B} (v : value) (k : string) (f : value -> M B) (s : state) :
  objectlike v = true -> bind (member v k) f s = f (Js.prop v k) s.
Proof. intro H. unfold bind, member. now rewrite (objectlike_not_nullish _ H). Qed.

Lemma is_str_true v s : Js.is_str v s = true -> v = VStr s.
Proof. destruct v; simpl; try discriminate. intro H. apply String.eqb_eq in H. now subst. Qed.

Lemma search_block b :
  objectlike b = true -> Js.is_str (Js.prop b "type") "tool_use" = true ->
  Js.is_str (Js.prop b "name") "WebSearch" = true ->
  emits (process_block b) [ESearch (pick_query (Js.prop b "input"))] (Normal tt).
Proof.
  intros Ho Ht Hn s. unfold process_block. rewrite guard_objectlike, Ho. cbn [negb].
  rewrite bind_member by assumption. rewrite Ht.
  rewrite bind_member by assumption. rewrite Hn.
  unfold pick_query, or_else, bind, member. rewrite (objectlike_not_nullish _ Ho).
  cbn [ret].
  destruct (Js.truthy (Js.opt_prop (Js.prop b "input") "query")).
  - apply send_sends.
  - destruct (Js.truthy (Js.opt_prop (Js.prop b "input") "q")); apply send_sends.
Qed.

Lemma text_block b t :
  objectlike b = true -> Js.is_str (Js.prop b "type") "text" = true ->
  Js.prop b "text" = VStr t ->
  emits (process_block b)
    (if Nat.ltb 0 (String.length (Js.trim t)) && Nat.ltb (String.length (Js.trim t)) 500
     then [EThinking (VStr (Js.trim t))] else []) (Normal tt).
Proof.
  intros Ho Ht Hx s. unfold process_block. rewrite guard_objectlike, Ho. cbn [negb].
  rewrite bind_member by assumption.
  rewrite (is_str_true _ _ Ht). cbn [Js.is_str String.eqb Ascii.eqb Bool.eqb].
  unfold bind, member. rewrite (objectlike_not_nullish _ Ho), Hx.
  cbn [ret optional call_trim Js.nullish Js.truthy str_length].
  destruct (Js.trim t) as [|c r] eqn:E.
  - cbn. now rewrite sends_nil.
  - cbn [String.eqb negb String.length].
    destruct (Nat.ltb 0 (S (String.length r)) && Nat.ltb (S (String.length r)) 500).
    + apply send_sends.
    + now rewrite sends_nil.
Qed.


Lemma fetch_block b :
  objectlike b = true -> Js.is_str (Js.prop b "type") "tool_use" = true ->
  Js.is_str (Js.prop b "name") "WebSearch" = false ->
  Js.is_str (Js.prop b "name") "WebFetch" = true ->
  emits (process_block b) [EFetch (pick_url (Js.prop b "input"))] (Normal tt).
Proof.
  intros Ho Ht Hn Hf s. unfold process_block. rewrite guard_objectlike, Ho. cbn [negb].
  rewrite bind_member by assumption. rewrite Ht.
  rewrite bind_member by assumption. rewrite Hn, Hf.
  unfold pick_url, or_else, bind, member. rewrite (objectlike_not_nullish _ Ho).
  cbn [ret].
  destruct (Js.truthy (Js.opt_prop (Js.prop b "input") "url")); apply send_sends.
Qed.

Lemma other_tool_block b :
  objectlike b = true -> Js.is_str (Js.prop b "type") "tool_use" = true ->
  Js.is_str (Js.prop b "name") "WebSearch" = false ->
  Js.is_str (Js.prop b "name") "WebFetch" = false ->
  emits (process_block b) [] (Normal tt).
Proof.
  intros Ho Ht Hn Hf s. unfold process_block. rewrite guard_objectlike, Ho. cbn [negb].
  rewrite bind_member by assumption. rewrite Ht.
  rewrite bind_member by assumption. rewrite Hn, Hf.
  unfold ret. now rewrite sends_nil.
Qed.

Lemma skipped_block b : objectlike b = false -> emits (process_block b) [] (Normal tt).
Proof.
  intros Ho s. unfold process_block. rewrite guard_objectlike, Ho. cbn [negb].
  unfold ret. now rewrite sends_nil.
Qed.

Lemma untyped_block b :
  objectlike b = true -> Js.is_str (Js.prop b "type") "tool_use" = false ->
  Js.is_str (Js.prop b "type") "text" = false ->
  emits (process_block b) [] (Normal tt).
Proof.
  intros Ho Ht Hx s. unfold process_block. rewrite guard_objectlike, Ho. cbn [negb].
  rewrite bind_member by assumption. rewrite Ht, Hx.
  unfold bind, ret. now rewrite sends_nil.
Qed.

Lemma textless_block b :
  objectlike b = true -> Js.is_str (Js.prop b "type") "text" = true ->
  Js.nullish (Js.prop b "text") = true ->
  emits (process_block b) [] (Normal tt).
Proof.
  intros Ho Hx Hn s. unfold process_block. rewrite guard_objectlike, Ho. cbn [negb].
  rewrite bind_member by assumption.
  rewrite (is_str_true _ _ Hx). cbn [Js.is_str String.eqb Ascii.eqb Bool.eqb].
  unfold bind, member. rewrite (objectlike_not_nullish _ Ho).
  destruct (Js.prop b "text"); try discriminate; cbn; now rewrite sends_nil.
Qed.

Lemma untrimmable_block b :
  objectlike b = true -> Js.is_str (Js.prop b "type") "text" = true ->
  string_or_absent (Js.prop b "text") = false ->
  emits (process_block b) [] (Thrown (Js.type_error "trim is not a function")).
Proof.
  intros Ho Hx Hn s. unfold process_block. rewrite guard_objectlike, Ho. cbn [negb].
  rewrite bind_member by assumption.
  rewrite (is_str_true _ _ Hx). cbn [Js.is_str String.eqb Ascii.eqb Bool.eqb].
  unfold bind, member. rewrite (objectlike_not_nullish _ Ho).
  destruct (Js.prop b "text"); try discriminate; cbn; now rewrite sends_nil.
Qed.

Lemma block_outcome b :
  exists evs,
    emits (process_block b) evs
      (if block_ok b then Normal tt else Thrown (Js.type_error "trim is not a function"))
    /\ forallb progress evs = true.
Proof.
  unfold block_ok. destruct (objectlike b) eqn:Ho.
  2:{ eexists; split; [now apply skipped_block | reflexivity]. }
  cbn [andb].
  destruct (Js.is_str (Js.prop b "type") "tool_use") eqn:Ht; cbn [negb andb].
  - destruct (Js.is_str (Js.prop b "name") "WebSearch") eqn:Hn;
      [eexists; split; [now apply search_block | reflexivity]|].
    destruct (Js.is_str (Js.prop b "name") "WebFetch") eqn:Hf;
      eexists; split;
      first [now apply fetch_block | now apply other_tool_block | reflexivity].
  - destruct (Js.is_str (Js.prop b "type") "text") eqn:Hx;
      [|eexists; split; [now apply untyped_block | reflexivity]].
    destruct (string_or_absent (Js.prop b "text")) eqn:Hs;
      [|eexists; split; [now apply untrimmable_block | reflexivity]].
    destruct (Js.prop b "text") eqn:E; try discriminate.
    + eexists; split; [apply textless_block; auto; now rewrite E | reflexivity].
    + eexists; split; [apply textless_block; auto; now rewrite E | reflexivity].
    + eexists; split; [eapply text_block; eauto|].
      now destruct (_ && _).
Qed.

End BlockFacts.

(** ** One message *)

Module MessageFacts.
Import Relay Trace Shape Classifier ClassifierFacts BlockFacts.

Lemma blocks_outcome (blocks : list value) :
  exists evs,
    emits (for_each blocks process_block) evs
      (if forallb block_ok blocks then Normal tt
       else Thrown (Js.type_error "trim is not a function"))
    /\ forallb progress evs = true.
Proof.
  induction blocks as [|b rest (evs & IH & IHp)]; simpl.
  - exists []. split; [apply emits_ret | reflexivity].
  - destruct (block_outcome b) as (evs1 & Hb & Hp).
    destruct (block_ok b); simpl.
    + exists (evs1 ++ evs). split; [eapply emits_bind; eauto|].
      rewrite forallb_app. now rewrite Hp, IHp.
    + exists evs1. split; [apply emits_bind_thrown; eauto | exact Hp].
Qed.

Lemma blocks_in_order (blocks : list value) :
  forallb block_ok blocks = true ->
  emits (for_each blocks process_block) (flat_map block_events blocks) (Normal tt).
Proof.
  induction blocks as [|b rest IH]; simpl; intro H.
  - apply emits_ret.
  - apply andb_true_iff in H as [Hb Hr].
    destruct (block_outcome b) as (evs1 & Hb1 & _). rewrite Hb in Hb1.
    destruct (emits_classify_block _ _ _ Hb1) as [E _].
    unfold block_events at 1. rewrite E.
    eapply emits_bind; eauto.
Qed.

Lemma chars_skipped (s : string) : emits (for_each (chars s) process_block) [] (Normal tt).
Proof.
  induction s as [|c r IH]; simpl.
  - apply emits_ret.
  - change (@nil event) with (@nil event ++ []). eapply emits_bind; [|exact IH].
    now apply skipped_block.
Qed.

Lemma skipped_msg m : objectlike m = false -> emits (process_msg m) [] (Normal tt).
Proof.
  intros Ho s. unfold process_msg. rewrite guard_objectlike, Ho. cbn [negb].
  unfold ret. now rewrite sends_nil.
Qed.

Lemma result_success m :
  objectlike m = true -> Js.is_str (Js.prop m "type") "result" = true ->
  Js.is_str (Js.prop m "subtype") "success" = true ->
  emits (process_msg m) [EResult (Js.prop m "result")] (Normal tt).
Proof.
  intros Ho Ht Hs s. unfold process_msg. rewrite guard_objectlike, Ho. cbn [negb].
  rewrite bind_member by assumption. rewrite Ht.
  rewrite bind_member by assumption. rewrite Hs.
  rewrite bind_member by assumption. apply send_sends.
Qed.

Lemma result_failure_absent m :
  objectlike m = true -> Js.is_str (Js.prop m "type") "result" = true ->
  Js.is_str (Js.prop m "subtype") "success" = false ->
  Js.nullish (Js.prop m "errors") = true ->
  emits (process_msg m) [EError (VStr "Research encountered an error")] (Normal tt).
Proof.
  intros Ho Ht Hs Hn s. unfold process_msg. rewrite guard_objectlike, Ho. cbn [negb].
  rewrite bind_member by assumption. rewrite Ht.
  rewrite bind_member by assumption. rewrite Hs.
  unfold or_else, bind, member. rewrite (objectlike_not_nullish _ Ho). cbn [ret].
  destruct (Js.prop m "errors"); try discriminate; cbn; apply send_sends.
Qed.

Lemma result_failure_listed m errors :
  objectlike m = true -> Js.is_str (Js.prop m "type") "result" = true ->
  Js.is_str (Js.prop m "subtype") "success" = false ->
  Js.prop m "errors" = VArr errors ->
  forallb Js.convertible errors = true ->
  emits (process_msg m) [EError (error_message errors)] (Normal tt).
Proof.
  intros Ho Ht Hs He Hc s. unfold process_msg. rewrite guard_objectlike, Ho. cbn [negb].
  rewrite bind_member by assumption. rewrite Ht.
  rewrite bind_member by assumption. rewrite Hs.
  unfold or_else, bind, member. rewrite (objectlike_not_nullish _ Ho), He.
  cbn [ret optional call_join Js.nullish]. rewrite Hc. cbn [ret Js.truthy].
  unfold error_message.
  destruct (String.eqb (Js.join errors "; ") ""); cbn [negb]; apply send_sends.
Qed.

Lemma result_failure_unconvertible m errors :
  objectlike m = true -> Js.is_str (Js.prop m "type") "result" = true ->
  Js.is_str (Js.prop m "subtype") "success" = false ->
  Js.prop m "errors" = VArr errors ->
  forallb Js.convertible errors = false ->
  emits (process_msg m) [] (Thrown Js.no_primitive).
Proof.
  intros Ho Ht Hs He Hc s. unfold process_msg. rewrite guard_objectlike, Ho. cbn [negb].
  rewrite bind_member by assumption. rewrite Ht.
  rewrite bind_member by assumption. rewrite Hs.
  unfold or_else, bind, member. rewrite (objectlike_not_nullish _ Ho), He.
  cbn [ret optional call_join Js.nullish]. rewrite Hc. cbn [throw].
  now rewrite sends_nil.
Qed.

Lemma result_failure_unjoinable m :
  objectlike m = true -> Js.is_str (Js.prop m "type") "result" = true ->
  Js.is_str (Js.prop m "subtype") "success" = false ->
  joinable_or_absent (Js.prop m "errors") = false ->
  exists text, emits (process_msg m) [] (Thrown (Js.type_error text)).
Proof.
  intros Ho Ht Hs He.
  destruct (Js.prop m "errors") as [ | | b | z | t | items | fields] eqn:E;
    try discriminate He.
  4:{ eexists. now apply (result_failure_unconvertible m items). }
  all: exists "join is not a function"; intro s; unfold process_msg;
    rewrite guard_objectlike, Ho; cbn [negb];
    rewrite bind_member by assumption; rewrite Ht;
    rewrite bind_member by assumption; rewrite Hs;
    unfold or_else, bind, member; rewrite (objectlike_not_nullish _ Ho), E;
    cbn; now rewrite sends_nil.
Qed.

Lemma truthy_opt_prop v k : Js.truthy (Js.opt_prop v k) = true -> Js.nullish v = false.
Proof. unfold Js.opt_prop. destruct (Js.nullish v); [discriminate|reflexivity]. Qed.

Lemma assistant_idle m :
  objectlike m = true -> Js.is_str (Js.prop m "type") "assistant" = true ->
  Js.truthy (Js.opt_prop (Js.prop m "message") "content") = false ->
  emits (process_msg m) [] (Normal tt).
Proof.
  intros Ho Ht Hc s. unfold process_msg. rewrite guard_objectlike, Ho. cbn [negb].
  rewrite bind_member by assumption.
  rewrite (is_str_true _ _ Ht). cbn [Js.is_str String.eqb Ascii.eqb Bool.eqb].
  unfold bind at 1. rewrite bind_member by assumption. unfold ret at 1.
  rewrite Hc. cbn. now rewrite sends_nil.
Qed.

Lemma assistant_turn m evs o :
  objectlike m = true -> Js.is_str (Js.prop m "type") "assistant" = true ->
  Js.truthy (Js.opt_prop (Js.prop m "message") "content") = true ->
  emits (blocks <- iterate (Js.opt_prop (Js.prop m "message") "content") ;;
         for_each blocks process_block)%js evs o ->
  emits (process_msg m) evs o.
Proof.
  intros Ho Ht Hc H s. unfold process_msg. rewrite guard_objectlike, Ho. cbn [negb].
  rewrite bind_member by assumption.
  rewrite (is_str_true _ _ Ht). cbn [Js.is_str String.eqb Ascii.eqb Bool.eqb].
  unfold bind at 1. rewrite bind_member by assumption. unfold ret at 1.
  rewrite Hc. rewrite bind_member by assumption.
  pose proof (truthy_opt_prop _ _ Hc) as Hn.
  unfold bind at 1, member. rewrite Hn. unfold ret at 1.
  rewrite <- (H s). unfold Js.opt_prop. now rewrite Hn.
Qed.

Lemma summary_msg m :
  objectlike m = true -> Js.is_str (Js.prop m "type") "tool_use_summary" = true ->
  emits (process_msg m)
    (if Js.truthy (Js.prop m "summary") then [ESummary (Js.prop m "summary")] else [])
    (Normal tt).
Proof.
  intros Ho Ht s. unfold process_msg. rewrite guard_objectlike, Ho. cbn [negb].
  rewrite bind_member by assumption.
  rewrite (is_str_true _ _ Ht). cbn [Js.is_str String.eqb Ascii.eqb Bool.eqb].
  unfold bind at 1, ret at 1. unfold bind at 1. rewrite bind_member by assumption.
  unfold ret at 1.
  destruct (Js.truthy (Js.prop m "summary")).
  - rewrite bind_member by assumption. apply send_sends.
  - cbn. now rewrite sends_nil.
Qed.

Lemma progress_msg m :
  objectlike m = true -> Js.is_str (Js.prop m "type") "tool_progress" = true ->
  emits (process_msg m)
    (if Js.truthy (Js.prop m "tool_name")
     then [EToolProgress (Js.prop m "tool_name") (Js.prop m "elapsed_time_seconds")]
     else [])
    (Normal tt).
Proof.
  intros Ho Ht s. unfold process_msg. rewrite guard_objectlike, Ho. cbn [negb].
  rewrite bind_member by assumption.
  rewrite (is_str_true _ _ Ht). cbn [Js.is_str String.eqb Ascii.eqb Bool.eqb].
  unfold bind at 1, ret at 1. unfold bind at 1, ret at 1.
  unfold bind at 1. rewrite bind_member by assumption. unfold ret at 1.
  destruct (Js.truthy (Js.prop m "tool_name")).
  - rewrite !bind_member by assumption. apply send_sends.
  - cbn. now rewrite sends_nil.
Qed.

Lemma unrecognised_msg m :
  recognised m = false -> emits (process_msg m) [] (Normal tt).
Proof.
  unfold recognised. destruct (objectlike m) eqn:Ho; [|intros _; now apply skipped_msg].
  cbn [andb]. intros H.
  apply orb_false_iff in H as [H Hp]. apply orb_false_iff in H as [H Hs].
  apply orb_false_iff in H as [Hr Ha].
  intro s. unfold process_msg. rewrite guard_objectlike, Ho. cbn [negb].
  rewrite bind_member by assumption. rewrite Hr, Ha, Hs, Hp.
  cbn. now rewrite sends_nil.
Qed.

Lemma content_outcome (content : value) :
  Js.truthy content = true ->
  exists evs e,
    emits (blocks <- iterate content ;; for_each blocks process_block)%js evs
      (if content_ok content then Normal tt else Thrown e)
    /\ forallb progress evs = true.
Proof.
  intro Hc. destruct content as [ | | b | z | s | blocks | fields]; try discriminate;
    cbn [content_ok]; try rewrite Hc; cbn [negb].
  - eexists _, _. split; [apply emits_bind_thrown; apply emits_throw | reflexivity].
  - eexists _, _. split; [apply emits_bind_thrown; apply emits_throw | reflexivity].
  - exists [], VUndef. split; [|reflexivity].
    change (@nil event) with (@nil event ++ []).
    eapply emits_bind; [apply emits_ret | apply chars_skipped].
  - destruct (blocks_outcome blocks) as (evs & H & Hp).
    exists evs, (Js.type_error "trim is not a function"). split; [|exact Hp].
    change evs with ([] ++ evs). eapply emits_bind; [apply emits_ret | exact H].
  - eexists _, _. split; [apply emits_bind_thrown; apply emits_throw | reflexivity].
Qed.

(** The loop body raises exactly on the messages that are not well shaped. *)
Lemma msg_outcome m :
  exists evs e, emits (process_msg m) evs (if well_shaped m then Normal tt else Thrown e).
Proof.
  unfold well_shaped. destruct (objectlike m) eqn:Ho; cbn [negb].
  2:{ exists [], VUndef. now apply skipped_msg. }
  destruct (Js.is_str (Js.prop m "type") "result") eqn:Hr.
  - destruct (Js.is_str (Js.prop m "subtype") "success") eqn:Hs; cbn [orb].
    + eexists _, VUndef. now apply result_success.
    + destruct (joinable_or_absent (Js.prop m "errors")) eqn:He.
      * destruct (Js.prop m "errors") eqn:E; try discriminate.
        -- eexists _, VUndef. apply result_failure_absent; auto. now rewrite E.
        -- eexists _, VUndef. apply result_failure_absent; auto. now rewrite E.
        -- eexists _, VUndef. eapply result_failure_listed; eauto.
      * destruct (result_failure_unjoinable m Ho Hr Hs He) as (text & H).
        eexists _, _. exact H.
  - destruct (Js.is_str (Js.prop m "type") "assistant") eqn:Ha.
    + destruct (Js.truthy (Js.opt_prop (Js.prop m "message") "content")) eqn:Hc.
      * destruct (content_outcome _ Hc) as (evs & e & H & _).
        exists evs, e. now apply assistant_turn.
      * exists [], VUndef.
        replace (content_ok _) with true; [now apply assistant_idle|].
        destruct (Js.opt_prop (Js.prop m "message") "content"); try discriminate;
          try reflexivity; simpl in *; now rewrite Hc.
    + destruct (Js.is_str (Js.prop m "type") "tool_use_summary") eqn:Hs.
      * eexists _, VUndef. now apply summary_msg.
      * destruct (Js.is_str (Js.prop m "type") "tool_progress") eqn:Hp.
        -- eexists _, VUndef. now apply progress_msg.
        -- exists [], VUndef. apply unrecognised_msg. unfold recognised.
           now rewrite Hr, Ha, Hs, Hp, andb_false_r.
Qed.

Lemma raises_spec m : raises m = negb (well_shaped m).
Proof.
  destruct (msg_outcome m) as (evs & e & H).
  destruct (emits_classify _ _ _ H) as [_ Ho]. unfold raises. rewrite Ho.
  now destruct (well_shaped m).
Qed.

End MessageFacts.

(** ** The steps of the handler *)

Module MachineFacts.
Import Relay Trace Shape Classifier Machine ClassifierFacts BlockFacts MessageFacts.

Lemma events_of_final m :
  final_result m = true -> well_shaped m = true ->
  exists ev, events_of m = [ev] /\ is_verdict ev = true.
Proof.
  unfold final_result, well_shaped. intros Hf Hw.
  apply andb_true_iff in Hf as [Ho Ht]. rewrite Ho, Ht in Hw. cbn [negb] in Hw.
  destruct (Js.is_str (Js.prop m "subtype") "success") eqn:Hs.
  - exists (EResult (Js.prop m "result")). split; [|reflexivity].
    now apply (emits_classify _ _ _ (result_success m Ho Ht Hs)).
  - cbn [orb] in Hw. destruct (Js.prop m "errors") eqn:E; try discriminate.
    + exists (EError (VStr "Research encountered an error")). split; [|reflexivity].
      apply (emits_classify _ _ (Normal tt)). apply result_failure_absent; auto. now rewrite E.
    + exists (EError (VStr "Research encountered an error")). split; [|reflexivity].
      apply (emits_classify _ _ (Normal tt)). apply result_failure_absent; auto. now rewrite E.
    + exists (EError (error_message items)). split; [|reflexivity].
      apply (emits_classify _ _ (Normal tt)). eapply result_failure_listed; eauto.
Qed.

Lemma events_of_other m :
  final_result m = false -> forallb progress (events_of m) = true.
Proof.
  unfold final_result. intro Hf.
  destruct (objectlike m) eqn:Ho.
  2:{ now rewrite (proj1 (emits_classify _ _ _ (skipped_msg m Ho))). }
  cbn [andb] in Hf.
  destruct (Js.is_str (Js.prop m "type") "assistant") eqn:Ha.
  - destruct (Js.truthy (Js.opt_prop (Js.prop m "message") "content")) eqn:Hc.
    + destruct (content_outcome _ Hc) as (evs & e & H & Hp).
      now rewrite (proj1 (emits_classify _ _ _ (assistant_turn m _ _ Ho Ha Hc H))).
    + now rewrite (proj1 (emits_classify _ _ _ (assistant_idle m Ho Ha Hc))).
  - destruct (Js.is_str (Js.prop m "type") "tool_use_summary") eqn:Hs.
    + rewrite (proj1 (emits_classify _ _ _ (summary_msg m Ho Hs))).
      now destruct (Js.truthy _).
    + destruct (Js.is_str (Js.prop m "type") "tool_progress") eqn:Hp.
      * rewrite (proj1 (emits_classify _ _ _ (progress_msg m Ho Hp))).
        now destruct (Js.truthy _).
      * assert (Hu : recognised m = false).
        { unfold recognised. now rewrite Hf, Ha, Hs, Hp, andb_false_r. }
        now rewrite (proj1 (emits_classify _ _ _ (unrecognised_msg m Hu))).
Qed.

(** *** Closed forms of the steps *)

Lemma heartbeat_open s :
  gone s = false -> heartbeat s = (Normal tt, log (Write Heartbeat) s).
Proof. intro H. unfold heartbeat, try_catch, res_write. now rewrite H. Qed.

Lemma heartbeat_gone s :
  gone s = true -> heartbeat s = (Normal tt, log (WriteFailed Heartbeat) s).
Proof. intro H. unfold heartbeat, try_catch, res_write. now rewrite H. Qed.

Lemma settle_stop o s :
  settle o s = stop (match o with Thrown err => Some err | Normal _ => None end) s.
Proof.
  unfold settle, finally_block, bind, clearInterval, perform, stop, log, set_timer, set_stage.
  simpl. now rewrite <- app_assoc.
Qed.

Lemma caught_stop err s :
  caught err s = after_catch err s.
Proof.
  unfold after_catch, caught, catch_block, catch_events, catch_rejection.
  unfold bind at 1. unfold perform at 1.
  unfold or_else, bind, member.
  destruct (Js.nullish err); cbn [throw ret].
  - rewrite settle_stop. now rewrite sends_nil.
  - destruct (Js.truthy (Js.prop err "message")); unfold ret; cbv beta iota;
      rewrite send_sends, settle_stop; reflexivity.
Qed.

Lemma step_loaded s :
  stage s = Importing ->
  step s Loaded
  = set_stage Looping
      (log (CallAgent (favoriteMovies s) (prefs_of s)) (sends [start_event] s)).
Proof.
  intro H. unfold step. rewrite H. unfold resume, begin_research, bind, perform.
  rewrite send_sends. reflexivity.
Qed.

Lemma step_yield s m :
  stage s = Looping ->
  step s (Yield m) =
    match snd (classify m) with
    | Normal _ => sends (events_of m) (take m s)
    | Thrown err => caught err (sends (events_of m) (take m s))
    end.
Proof.
  intro H. unfold step. rewrite H. unfold resume.
  rewrite (process_msg_classify m (take m s)).
  now destruct (snd (classify m)).
Qed.

Lemma step_return s :
  stage s = Looping -> step s Return = stop None (sends [EDone] s).
Proof.
  intro H. unfold step. rewrite H. unfold resume. rewrite send_sends.
  apply settle_stop.
Qed.

Lemma step_raise s err :
  finished s = false -> step s (Raise err) = caught err s.
Proof. unfold finished, step. destruct (stage s); congruence. Qed.

Lemma step_finished s i :
  finished s = true -> timer s = false ->
  step s i = s \/ (i = Disconnect /\ step s i = set_gone s).
Proof.
  unfold finished. intros Hf Ht. destruct i; simpl; rewrite ?Ht; auto;
  destruct (stage s); try discriminate; auto.
Qed.

Lemma step_transition s i : transition s (step s i).
Proof.
  destruct i as [ | | | m | | err].
  - unfold step. destruct (timer s) eqn:Ht; [|constructor].
    destruct (gone s) eqn:Hg.
    + rewrite heartbeat_gone by assumption. now constructor.
    + rewrite heartbeat_open by assumption. now constructor.
  - constructor.
  - destruct (stage s) eqn:Hs.
    + rewrite step_loaded by assumption. now constructor.
    + unfold step. rewrite Hs. constructor.
    + unfold step. rewrite Hs. constructor.
  - destruct (stage s) eqn:Hs.
    + unfold step. rewrite Hs. constructor.
    + rewrite step_yield by assumption.
      destruct (snd (classify m)) eqn:Ho.
      * destruct a. apply T_message; [assumption|]. unfold raises. now rewrite Ho.
      * rewrite caught_stop. apply T_message_raises; [assumption|]. unfold raises. now rewrite Ho.
    + unfold step. rewrite Hs. constructor.
  - destruct (stage s) eqn:Hs.
    + unfold step. rewrite Hs. constructor.
    + rewrite step_return by assumption. now constructor.
    + unfold step. rewrite Hs. constructor.
  - destruct (finished s) eqn:Hf.
    + unfold step. unfold finished in Hf. destruct (stage s); try discriminate. constructor.
    + rewrite step_raise, caught_stop by assumption. now constructor.
Qed.

Lemma run_invariant (P : state -> Prop) :
  (forall s s', P s -> transition s s' -> P s') ->
  forall inputs s, P s -> P (run s inputs).
Proof.
  intros Hstep inputs. induction inputs as [|i rest IH]; intros s Hs; simpl.
  - exact Hs.
  - apply IH. eapply Hstep; [exact Hs | apply step_transition].
Qed.

Lemma run_app s a b : run s (a ++ b) = run (run s a) b.
Proof. apply fold_left_app. Qed.

(** *** Counting in traces *)

Lemma tally_app {A} (p : A -> bool) (a b : list A) : tally p (a ++ b) = tally p a + tally p b.
Proof. unfold tally. now rewrite filter_app, length_app. Qed.

Lemma tally_none {A} (p : A -> bool) (l : list A) :
  (forall x, In x l -> p x = false) -> tally p l = 0.
Proof.
  unfold tally. induction l as [|x l IH]; simpl; intro H; [reflexivity|].
  rewrite (H x) by auto. apply IH. auto.
Qed.

Lemma tally_attempts (p : effect -> bool) g evs :
  (forall f, p (Write (Data f)) = false) -> (forall f, p (WriteFailed (Data f)) = false) ->
  tally p (map (fun ev => attempt g (Data ev)) evs) = 0.
Proof.
  intros Hw Hf. apply tally_none. intros x Hx. apply in_map_iff in Hx as (ev & <- & _).
  destruct g; simpl; auto.
Qed.

Lemma written_app a b : written (a ++ b) = written a ++ written b.
Proof. apply flat_map_app. Qed.

Lemma frames_app a b : frames (a ++ b) = frames a ++ frames b.
Proof. apply flat_map_app. Qed.

Lemma written_attempts evs : written (map (fun ev => attempt false (Data ev)) evs) = evs.
Proof.
  induction evs as [|ev evs IH]; [reflexivity|].
  change (ev :: written (map (fun ev => attempt false (Data ev)) evs) = ev :: evs).
  now rewrite IH.
Qed.

Lemma tally_nil {A} (p : A -> bool) : tally p [] = 0.
Proof. reflexivity. Qed.

Lemma tally_cons {A} (p : A -> bool) (x : A) (l : list A) :
  tally p (x :: l) = (if p x then 1 else 0) + tally p l.
Proof. unfold tally. simpl. now destruct (p x). Qed.

Ltac tally_simpl :=
  repeat first
    [ rewrite tally_app
    | rewrite tally_attempts by (intro; reflexivity)
    | rewrite tally_cons
    | rewrite tally_nil ];
  unfold attempt;
  repeat match goal with
         | |- context [if gone ?s then _ else _] => destruct (gone s)
         end;
  cbn [is_set is_end is_clear is_caught].

Lemma transition_lifetime s s' : lifetime_inv s -> transition s s' -> lifetime_inv s'.
Proof.
  unfold lifetime_inv. intros (Hset & Hend & Hclr & Hon & Hfin) H.
  destruct H as [ | | Ht Hg | Ht Hg | Hs | m Hs Hr | m err Hs Hr | Hs | err Hf];
    unfold finished, after_catch in *; simpl;
    try rewrite Hs in *;
    tally_simpl;
    repeat split; intros; try discriminate; try lia; try tauto;
    try (eexists; reflexivity).
  all: try (destruct (stage s); try discriminate; lia).
  all: exfalso; rewrite Ht in Hon; destruct (stage s); discriminate.
Qed.

Lemma raises_false m : raises m = false -> well_shaped m = true.
Proof. rewrite raises_spec. now destruct (well_shaped m). Qed.

Ltac proj_simpl :=
  cbn [trace gone timer stage consumed favoriteMovies moviePreferences
       sends log set_timer set_gone set_stage take stop after_catch];
  rewrite ?sent_app, ?written_app, ?sent_attempts, ?tally_app.

Lemma transition_events s s' : events_inv s -> transition s s' -> events_inv s'.
Proof.
  unfold events_inv. intros (Hw & Hs) H.
  destruct H as [ | | Ht Hg | Ht Hg | Hst | m Hst Hr | m err Hst Hr | Hst | err Hf].
  - tauto.
  - split; [discriminate | exact Hs].
  - proj_simpl. split.
    + intro G. now rewrite (Hw G).
    + cbn [sent flat_map app]. rewrite !app_nil_r. tally_simpl. rewrite !Nat.add_0_r. exact Hs.
  - proj_simpl. split.
    + cbn [gone]. congruence.
    + cbn [sent flat_map app]. rewrite !app_nil_r. tally_simpl. rewrite !Nat.add_0_r. exact Hs.
  - rewrite Hst in Hs. destruct Hs as (E & C & K). proj_simpl. split.
    + intro G. rewrite G in *. rewrite (Hw eq_refl). reflexivity.
    + rewrite E, C. repeat split. tally_simpl. lia.
  - rewrite Hst in Hs. destruct Hs as (E & C & K). proj_simpl. rewrite Hst. split.
    + intro G. rewrite G. rewrite (Hw G), ?written_attempts. reflexivity.
    + rewrite E, flat_map_app, forallb_app, C. cbn [flat_map forallb andb].
      rewrite (raises_false _ Hr), app_nil_r. repeat split. tally_simpl. lia.
  - proj_simpl. split.
    + intro G. rewrite G. rewrite (Hw G), ?written_attempts. reflexivity.
    + tally_simpl. lia.
  - rewrite Hst in Hs. destruct Hs as (E & C & K). proj_simpl. split.
    + intro G. rewrite G. rewrite (Hw G). reflexivity.
    + intros _. rewrite E. cbn [sent flat_map app]. rewrite !app_nil_r.
      repeat split. exact C.
  - proj_simpl. split.
    + intro G. rewrite G. rewrite (Hw G), ?written_attempts. reflexivity.
    + tally_simpl. lia.
Qed.

Lemma existsb_attempts_failure evs :
  existsb is_failure (map (fun ev => attempt false (Data ev)) evs) = false.
Proof. induction evs; [reflexivity|exact IHevs]. Qed.

Lemma existsb_attempts_write evs :
  existsb is_write (map (fun ev => attempt true (Data ev)) evs) = false.
Proof. induction evs; [reflexivity|exact IHevs]. Qed.

Lemma silent_without_failure tr :
  existsb is_failure tr = false -> silent_after_failure tr = true.
Proof.
  induction tr as [|e tr IH]; [reflexivity|]. simpl. intro H.
  apply orb_false_iff in H as [He Ht]. destruct e; try discriminate; auto.
Qed.

Lemma silent_without_write tr :
  existsb is_write tr = false -> silent_after_failure tr = true.
Proof.
  induction tr as [|e tr IH]; [reflexivity|]. simpl. intro H.
  apply orb_false_iff in H as [He Ht]. destruct e; try discriminate; auto.
  now rewrite Ht, IH.
Qed.

Lemma silent_app_quiet tr delta :
  silent_after_failure tr = true -> existsb is_write delta = false ->
  silent_after_failure (tr ++ delta) = true.
Proof.
  intros Ht Hd. induction tr as [|e tr IH]; simpl.
  - now apply silent_without_write.
  - destruct e; simpl in Ht; auto.
    apply andb_true_iff in Ht as [Hn Hs]. rewrite existsb_app, Hd, orb_false_r, Hn.
    now apply IH.
Qed.

Lemma transition_trace s s' :
  transition s s' ->
  exists delta,
    trace s' = trace s ++ delta
    /\ (gone s = true -> gone s' = true /\ existsb is_write delta = false)
    /\ (gone s = false -> existsb is_failure delta = false).
Proof.
  intro H.
  destruct H as [ | | Ht Hg | Ht Hg | Hst | m Hst Hr | m err Hst Hr | Hst | err Hf];
    [ exists []; rewrite app_nil_r; auto
    | exists []; cbn [trace gone set_gone]; rewrite app_nil_r; auto
    | .. ];
    cbn [trace gone sends log set_timer set_gone set_stage take stop after_catch];
    rewrite <- ?app_assoc;
    (eexists; split; [reflexivity|]);
    rewrite ?existsb_app;
    (split; intro G; rewrite ?G in *; try discriminate;
     rewrite ?existsb_attempts_write, ?existsb_attempts_failure; auto).
Qed.

Lemma transition_silence s s' : silence_inv s -> transition s s' -> silence_inv s'.
Proof.
  unfold silence_inv. intros (Hs & Hf) H.
  destruct (transition_trace _ _ H) as (delta & E & Hgone & Hopen). rewrite E.
  destruct (Bool.bool_dec (gone s) true) as [G|G].
  - destruct (Hgone G) as [G' Hd]. split; [now apply silent_app_quiet | congruence].
  - apply not_true_is_false in G.
    assert (F : existsb is_failure (trace s ++ delta) = false).
    { rewrite existsb_app, (Hf G), (Hopen G). reflexivity. }
    split; [now apply silent_without_failure | auto].
Qed.

Lemma frames_without_write delta : existsb is_write delta = false -> frames delta = [].
Proof.
  induction delta as [|e d IH]; [reflexivity|]. simpl. intro H.
  apply orb_false_iff in H as [He Hd]. destruct e; try discriminate; auto.
Qed.

Lemma gone_frozen s inputs :
  gone s = true ->
  gone (run s inputs) = true /\ frames (trace (run s inputs)) = frames (trace s).
Proof.
  intro G.
  apply (run_invariant (fun s' => gone s' = true /\ frames (trace s') = frames (trace s)));
    [|auto].
  intros s1 s2 (G1 & F1) H.
  destruct (transition_trace _ _ H) as (delta & E & Hgone & _).
  destruct (Hgone G1) as [G2 Hd]. split; [exact G2|].
  now rewrite E, frames_app, (frames_without_write _ Hd), app_nil_r.
Qed.

Lemma finished_frozen s inputs :
  finished s = true -> timer s = false ->
  trace (run s inputs) = trace s /\ timer (run s inputs) = false
  /\ stage (run s inputs) = stage s /\ consumed (run s inputs) = consumed s.
Proof.
  revert s. induction inputs as [|i rest IH]; intros s Hf Ht; simpl; [auto|].
  destruct (step_finished s i Hf Ht) as [-> | [-> ->]]; [now apply IH|].
  destruct (IH (set_gone s) Hf Ht) as (A & B & C & D). auto.
Qed.

Lemma tally_repeat {A} (p : A -> bool) (x : A) (n : nat) :
  p x = false -> tally p (repeat x n) = 0.
Proof.
  intro H. apply tally_none. intros y Hy. apply repeat_spec in Hy. now subst y.
Qed.

Lemma lost_ticks n : forall s,
  gone s = true -> timer s = true ->
  trace (run s (repeat Tick n)) = trace s ++ repeat (WriteFailed Heartbeat) n
  /\ timer (run s (repeat Tick n)) = true
  /\ gone (run s (repeat Tick n)) = true
  /\ stage (run s (repeat Tick n)) = stage s.
Proof.
  induction n as [|n IH]; intros s Hg Ht.
  - cbn [repeat run fold_left]. now rewrite app_nil_r.
  - cbn [repeat]. change (run s (Tick :: repeat Tick n))
      with (run (step s Tick) (repeat Tick n)).
    assert (E : step s Tick = log (WriteFailed Heartbeat) s).
    { unfold step. rewrite Ht. now rewrite heartbeat_gone. }
    rewrite E. destruct (IH (log (WriteFailed Heartbeat) s) Hg Ht) as (A & B & C & D).
    rewrite A, B, C, D. cbn [trace log stage]. now rewrite <- app_assoc.
Qed.

Lemma run_yields ms : forall s,
  stage s = Looping -> forallb well_shaped ms = true ->
  run s (map Yield ms) = sends (flat_map events_of ms) (takes ms s).
Proof.
  induction ms as [|m rest IH]; intros s Hs Hw.
  - unfold takes, sends. destruct s; simpl. now rewrite !app_nil_r.
  - cbn [forallb] in Hw. apply andb_true_iff in Hw as [Hm Hrest].
    cbn [map flat_map].
    change (run s (Yield m :: map Yield rest))
      with (run (step s (Yield m)) (map Yield rest)).
    rewrite step_yield by assumption.
    assert (Hr : raises m = false) by (rewrite raises_spec, Hm; reflexivity).
    unfold raises in Hr. destruct (snd (classify m)) eqn:Ho; [|discriminate].
    rewrite IH by assumption.
    unfold sends, takes, take; simpl. f_equal.
    + now rewrite <- app_assoc.
    + now rewrite map_app, app_assoc.
Qed.

Lemma count_verdicts ms :
  forallb well_shaped ms = true ->
  tally is_verdict (flat_map events_of ms) = tally final_result ms
  /\ tally is_done (flat_map events_of ms) = 0.
Proof.
  induction ms as [|m rest IH]; simpl; intro H; [auto|].
  apply andb_true_iff in H as [Hm Hrest]. destruct (IH Hrest) as [IHv IHd].
  rewrite !tally_app, tally_cons, IHv, IHd.
  destruct (final_result m) eqn:Hf.
  - destruct (events_of_final m Hf Hm) as (ev & -> & Hv).
    rewrite !tally_cons, !tally_nil, Hv. destruct ev; try discriminate; auto.
  - pose proof (events_of_other m Hf) as Hp.
    assert (Hz : forall p, (forall ev, progress ev = true -> p ev = false) ->
                           tally p (events_of m) = 0).
    { intros p Hpq. apply tally_none. intros ev Hin. apply Hpq.
      now apply (proj1 (forallb_forall _ _) Hp). }
    rewrite !Hz; auto.
    + intros ev. unfold progress. destruct ev; simpl; auto; discriminate.
    + intros ev. unfold progress. destruct ev; simpl; auto; discriminate.
Qed.

End MachineFacts.

(** ** Whole runs of the handler *)

Module RelayFacts.
Import Relay Trace Shape Classifier Machine.
Import ClassifierFacts BlockFacts MessageFacts MachineFacts.

Lemma handler_streaming body key :
  stage (handler body key) = Importing ->
  handler body key =
    mkState (Js.prop body "favoriteMovies") (Js.prop body "moviePreferences")
            false true Importing [] (sse_headers ++ [SetInterval 15000]).
Proof.
  unfold handler.
  destruct (Js.nullish body); [discriminate|].
  destruct (negb (Js.isArray (Js.prop body "favoriteMovies"))
            || Js.is_zero_length (Js.prop body "favoriteMovies")); [discriminate|].
  destruct (negb (Js.truthy (env_value key))); [discriminate|].
  reflexivity.
Qed.

Lemma handler_lifetime body key :
  stage (handler body key) = Importing -> lifetime_inv (handler body key).
Proof.
  intro H. rewrite (handler_streaming _ _ H). unfold lifetime_inv, finished. simpl.
  repeat split; auto; discriminate.
Qed.

Lemma handler_events body key :
  stage (handler body key) = Importing -> events_inv (handler body key).
Proof.
  intro H. rewrite (handler_streaming _ _ H). unfold events_inv. simpl. auto.
Qed.

Lemma handler_silence body key : silence_inv (handler body key).
Proof.
  unfold handler, silence_inv.
  destruct (Js.nullish body); [split; reflexivity|].
  destruct (negb (Js.isArray (Js.prop body "favoriteMovies"))
            || Js.is_zero_length (Js.prop body "favoriteMovies")); [split; reflexivity|].
  destruct (negb (Js.truthy (env_value key))); split; reflexivity.
Qed.

Lemma run_lifetime body key inputs :
  stage (handler body key) = Importing -> lifetime_inv (run (handler body key) inputs).
Proof.
  intro H. apply (run_invariant lifetime_inv transition_lifetime). now apply handler_lifetime.
Qed.

Lemma run_events body key inputs :
  stage (handler body key) = Importing -> events_inv (run (handler body key) inputs).
Proof.
  intro H. apply (run_invariant events_inv transition_events). now apply handler_events.
Qed.

Lemma run_silence body key inputs : silence_inv (run (handler body key) inputs).
Proof. apply (run_invariant silence_inv transition_silence). apply handler_silence. Qed.

Lemma append_empty (a b : string) : (a ++ b)%string = "" -> a = "" /\ b = "".
Proof. destruct a; simpl; [auto | discriminate]. Qed.

Lemma join_strings_empty (descriptions : list string) :
  Js.join (map VStr descriptions) "; " = "" <-> descriptions = [] \/ descriptions = [""].
Proof.
  destruct descriptions as [|d [|d' rest]]; simpl.
  - tauto.
  - split.
    + intros ->. auto.
    + intros [H|H]; [discriminate | now injection H].
  - split.
    + intro H. apply append_empty in H as [_ H]. discriminate.
    + intros [H|H]; discriminate.
Qed.

Lemma present_field input name :
  name <> "length" ->
  Js.opt_prop input name
  = match Spec.present input name with
    | Some x => x
    | None => VUndef
    end.
Proof.
  intro Hn. apply String.eqb_neq in Hn.
  unfold Js.opt_prop, Spec.present.
  destruct input; cbn [Js.nullish Js.prop]; rewrite ?Hn; reflexivity.
Qed.

Lemma first_present_step input name others :
  name <> "length" ->
  Spec.usable (name :: others) input ->
  Spec.first_present (name :: others) input
  = (if Js.truthy (Js.opt_prop input name) then Js.opt_prop input name
     else Spec.first_present others input)
  /\ Spec.usable others input.
Proof.
  intros Hn Hu. split.
  - rewrite (present_field input name Hn). cbn [Spec.first_present].
    destruct (Spec.present input name) as [x|] eqn:E; [|reflexivity].
    now rewrite (Hu name x (or_introl eq_refl) E).
  - intros n x Hi. apply Hu. now right.
Qed.

Lemma first_present_query input :
  Spec.usable ["query"; "q"] input ->
  Spec.first_present ["query"; "q"] input = pick_query input.
Proof.
  intro Hu. unfold pick_query.
  destruct (first_present_step input "query" ["q"]) as [-> Hq]; [discriminate | exact Hu |].
  destruct (first_present_step input "q" []) as [-> _]; [discriminate | exact Hq |].
  reflexivity.
Qed.

Lemma first_present_url input :
  Spec.usable ["url"] input ->
  Spec.first_present ["url"] input = pick_url input.
Proof.
  intro Hu. unfold pick_url.
  destruct (first_present_step input "url" []) as [-> _]; [discriminate | exact Hu |].
  reflexivity.
Qed.

Lemma tool_block block :
  objectlike block = true ->
  Js.is_str (Js.prop block "type") "tool_use" = true ->
  emits (process_block block) (tool_use_events block) (Normal tt).
Proof.
  intros Ho Ht. unfold tool_use_events.
  destruct (Js.is_str (Js.prop block "name") "WebSearch") eqn:Hs.
  - now apply search_block.
  - destruct (Js.is_str (Js.prop block "name") "WebFetch") eqn:Hf.
    + now apply fetch_block.
    + now apply other_tool_block.
Qed.

Lemma assistant_blocks msg blocks :
  objectlike msg = true ->
  Js.is_str (Js.prop msg "type") "assistant" = true ->
  Js.opt_prop (Js.prop msg "message") "content" = VArr blocks ->
  forallb block_ok blocks = true ->
  emits (process_msg msg) (flat_map block_events blocks) (Normal tt).
Proof.
  intros Ho Ht Hc Hb. apply assistant_turn; auto.
  - now rewrite Hc.
  - rewrite Hc. change (flat_map block_events blocks) with ([] ++ flat_map block_events blocks).
    eapply emits_bind; [apply emits_ret | now apply blocks_in_order].
Qed.



Lemma written_sends evs s :
  gone s = false -> written (trace (sends evs s)) = written (trace s) ++ evs.
Proof.
  intro Hg. unfold sends. cbn [trace]. now rewrite written_app, Hg, written_attempts.
Qed.

End RelayFacts.

(** ** What the loop can and cannot observe *)

Module ViewFacts.
Import Relay Trace Shape Classifier Machine Views.
Import ClassifierFacts BlockFacts MessageFacts MachineFacts RelayFacts.

Lemma calls_app a b : calls (a ++ b) = calls a ++ calls b.
Proof. apply flat_map_app. Qed.

Lemma calls_attempts g evs : calls (map (fun ev => attempt g (Data ev)) evs) = [].
Proof. induction evs as [|ev evs IH]; [reflexivity|]. destruct g; exact IH. Qed.

Ltac view_simpl :=
  cbn [trace gone timer stage consumed favoriteMovies moviePreferences
       sends log set_timer set_gone set_stage take stop after_catch fst snd];
  rewrite ?sent_app, ?calls_app, ?sent_attempts, ?calls_attempts;
  cbn [sent calls flat_map app];
  rewrite ?app_nil_r.

Lemma tick_view s : same_view s (step s Tick).
Proof.
  unfold same_view, step. destruct (timer s); [|repeat split; reflexivity].
  destruct (gone s) eqn:Hg.
  - rewrite heartbeat_gone by assumption. view_simpl. repeat split; reflexivity.
  - rewrite heartbeat_open by assumption. view_simpl. repeat split; reflexivity.
Qed.

Lemma disconnect_view s : same_view s (step s Disconnect).
Proof. unfold same_view. simpl. repeat split; reflexivity. Qed.

Lemma same_view_sym s1 s2 : same_view s1 s2 -> same_view s2 s1.
Proof. unfold same_view. intuition congruence. Qed.

Lemma same_view_trans s1 s2 s3 : same_view s1 s2 -> same_view s2 s3 -> same_view s1 s3.
Proof. unfold same_view. intuition congruence. Qed.

Lemma after_catch_view err s1 s2 :
  same_view s1 s2 -> same_view (after_catch err s1) (after_catch err s2).
Proof.
  unfold same_view. intros (F & P & S & C & E & K).
  view_simpl. rewrite ?F, ?P, ?C, ?E, ?K. repeat split; reflexivity.
Qed.

Lemma sends_view evs s1 s2 : same_view s1 s2 -> same_view (sends evs s1) (sends evs s2).
Proof.
  unfold same_view. intros (F & P & S & C & E & K).
  view_simpl. rewrite ?F, ?P, ?S, ?C, ?E, ?K. repeat split; reflexivity.
Qed.

Lemma take_view m s1 s2 : same_view s1 s2 -> same_view (take m s1) (take m s2).
Proof.
  unfold same_view. intros (F & P & S & C & E & K).
  view_simpl. rewrite ?F, ?P, ?S, ?C, ?E, ?K. repeat split; reflexivity.
Qed.

Lemma step_view s1 s2 i : same_view s1 s2 -> same_view (step s1 i) (step s2 i).
Proof.
  intro H. pose proof H as (F & P & S & C & E & K).
  destruct i as [ | | | m | | err].
  - eapply same_view_trans; [apply same_view_sym, tick_view|].
    eapply same_view_trans; [exact H | apply tick_view].
  - eapply same_view_trans; [apply same_view_sym, disconnect_view|].
    eapply same_view_trans; [exact H | apply disconnect_view].
  - destruct (stage s1) eqn:S1; symmetry in S.
    + rewrite !step_loaded by assumption. unfold same_view, prefs_of.
      view_simpl. rewrite ?F, ?P, ?C, ?E, ?K. repeat split; reflexivity.
    + unfold step. now rewrite S1, S.
    + unfold step. now rewrite S1, S.
  - destruct (stage s1) eqn:S1; symmetry in S.
    + unfold step. now rewrite S1, S.
    + rewrite !step_yield by assumption.
      destruct (snd (classify m)).
      * now apply sends_view, take_view.
      * rewrite !caught_stop. now apply after_catch_view, sends_view, take_view.
    + unfold step. now rewrite S1, S.
  - destruct (stage s1) eqn:S1; symmetry in S.
    + unfold step. now rewrite S1, S.
    + rewrite !step_return by assumption. unfold same_view.
      view_simpl. rewrite ?F, ?P, ?C, ?E, ?K. repeat split; reflexivity.
    + unfold step. now rewrite S1, S.
  - destruct (finished s1) eqn:F1.
    + unfold step. unfold finished in F1. rewrite <- S.
      destruct (stage s1); try discriminate. exact H.
    + assert (F2 : finished s2 = false) by (unfold finished in *; now rewrite <- S).
      rewrite !step_raise, !caught_stop by assumption. now apply after_catch_view.
Qed.

Lemma run_view inputs : forall s1 s2,
  same_view s1 s2 -> same_view (run s1 inputs) (run s2 (filter awaited inputs)).
Proof.
  induction inputs as [|i rest IH]; intros s1 s2 H; [exact H|].
  change (run s1 (i :: rest)) with (run (step s1 i) rest).
  destruct i; cbn [filter awaited];
    try (change (run s2 (?j :: filter awaited rest))
           with (run (step s2 j) (filter awaited rest));
         apply IH; now apply step_view).
  - apply IH. eapply same_view_trans; [apply same_view_sym, tick_view | exact H].
  - apply IH. eapply same_view_trans; [apply same_view_sym, disconnect_view | exact H].
Qed.

Lemma type_error_named text : text <> "" -> type_error_raised (Js.type_error text).
Proof. intro H. exists text. auto. Qed.

Lemma throws_ret {A : Type} (a : A) : throws_type_errors (ret a).
Proof. intros s err s' H. discriminate H. Qed.

Lemma throws_throw {A : Type} text :
  text <> "" -> throws_type_errors (@throw A (Js.type_error text)).
Proof. intros Ht s err s' H. injection H as <- _. now apply type_error_named. Qed.

Lemma throws_send ev : throws_type_errors (send ev).
Proof. intros s err s' H. rewrite send_sends in H. discriminate H. Qed.

Lemma throws_bind {A B : Type} (m : M A) (k : A -> M B) :
  throws_type_errors m -> (forall a, throws_type_errors (k a)) ->
  throws_type_errors (bind m k).
Proof.
  intros Hm Hk s err s' H. unfold bind in H.
  destruct (m s) as [[a|e] s1] eqn:E.
  - exact (Hk a _ _ _ H).
  - injection H as <- <-. exact (Hm _ _ _ E).
Qed.

Lemma prefixed_not_empty (v : value) : ("Cannot read properties of " ++ Js.to_string v)%string <> "".
Proof. discriminate. Qed.

Lemma throws_member v k : throws_type_errors (member v k).
Proof.
  unfold member. destruct (Js.nullish v); [|apply throws_ret].
  apply throws_throw, prefixed_not_empty.
Qed.

Lemma throws_call_join sep v : throws_type_errors (call_join sep v).
Proof.
  destruct v; simpl; try destruct (forallb Js.convertible items);
    unfold Js.no_primitive;
    first [apply throws_ret | apply throws_throw; discriminate].
Qed.

Lemma throws_call_trim v : throws_type_errors (call_trim v).
Proof.
  destruct v; simpl; first [apply throws_ret | apply throws_throw; discriminate].
Qed.

Lemma throws_iterate v : throws_type_errors (iterate v).
Proof.
  destruct v; simpl; first [apply throws_ret | apply throws_throw; discriminate].
Qed.

Lemma throws_optional call v :
  (forall x, throws_type_errors (call x)) -> throws_type_errors (optional call v).
Proof. intro H. unfold optional. destruct (Js.nullish v); [apply throws_ret | apply H]. Qed.

Lemma throws_or_else a b :
  throws_type_errors a -> throws_type_errors b -> throws_type_errors (or_else a b).
Proof.
  intros Ha Hb. unfold or_else. apply throws_bind; [exact Ha|].
  intro x. destruct (Js.truthy x); [apply throws_ret | exact Hb].
Qed.

Lemma throws_for_each items body :
  (forall x, throws_type_errors (body x)) -> throws_type_errors (for_each items body).
Proof.
  intro H. induction items as [|x rest IH]; simpl.
  - apply throws_ret.
  - apply throws_bind; [apply H | intros _; exact IH].
Qed.

Ltac throws_cases :=
  repeat first
    [ apply throws_ret
    | apply throws_send
    | apply throws_member
    | apply throws_call_join
    | apply throws_call_trim
    | apply throws_iterate
    | apply throws_or_else
    | apply throws_optional; intro
    | apply throws_bind; [|intro]
    | match goal with
      | |- throws_type_errors (if ?c then _ else _) => destruct c
      end ].

Lemma throws_process_block block : throws_type_errors (process_block block).
Proof. unfold process_block. throws_cases. Qed.

Lemma throws_process_msg msg : throws_type_errors (process_msg msg).
Proof.
  unfold process_msg. throws_cases.
  apply throws_for_each. exact throws_process_block.
Qed.

Lemma classify_thrown msg err :
  snd (classify msg) = Thrown err -> type_error_raised err.
Proof.
  intro H. pose proof (process_msg_classify msg probe) as E. rewrite H in E.
  exact (throws_process_msg msg _ _ _ E).
Qed.

Lemma type_error_text err :
  type_error_raised err ->
  Js.nullish err = false /\ exists text, error_text err = VStr text /\ err = Js.type_error text.
Proof.
  intros (text & -> & Hne). split; [reflexivity|]. exists text. split; [|reflexivity].
  unfold error_text. simpl. apply String.eqb_neq in Hne. now rewrite Hne.
Qed.

Lemma after_catch_object err s :
  Js.nullish err = false ->
  after_catch err s = stop None (sends [EError (error_text err)] (log (ConsoleError err) s)).
Proof.
  intro H. unfold after_catch, catch_events, catch_rejection, error_text. now rewrite H.
Qed.

Lemma handler_accepted body key :
  Js.nullish body = false -> rejected (handler body key) = false.
Proof.
  intro H. unfold handler. rewrite H.
  destruct (negb (Js.isArray (Js.prop body "favoriteMovies"))
            || Js.is_zero_length (Js.prop body "favoriteMovies")); [reflexivity|].
  destruct (negb (Js.truthy (env_value key))); reflexivity.
Qed.

Lemma step_accepted s i :
  (forall err, i = Raise err -> Js.nullish err = false) ->
  rejected s = false -> rejected (step s i) = false.
Proof.
  intros Hi Hs. destruct i as [ | | | m | | err].
  - unfold rejected. destruct (tick_view s) as (_ & _ & <- & _). exact Hs.
  - exact Hs.
  - destruct (stage s) eqn:S.
    + rewrite step_loaded by assumption. reflexivity.
    + unfold step. now rewrite S.
    + unfold step. now rewrite S.
  - destruct (stage s) eqn:S.
    + unfold step. now rewrite S.
    + rewrite step_yield by assumption.
      destruct (snd (classify m)) as [[]|err] eqn:E.
      * unfold rejected. cbn. now rewrite S.
      * rewrite caught_stop.
        destruct (type_error_text err (classify_thrown m err E)) as [Hn _].
        now rewrite after_catch_object.
    + unfold step. now rewrite S.
  - destruct (stage s) eqn:S.
    + unfold step. now rewrite S.
    + rewrite step_return by assumption. reflexivity.
    + unfold step. now rewrite S.
  - destruct (finished s) eqn:F.
    + unfold step. unfold finished in F. destruct (stage s); try discriminate. exact Hs.
    + rewrite step_raise, caught_stop by assumption.
      now rewrite after_catch_object by (now apply Hi).
Qed.

Lemma run_accepted inputs : forall s,
  (forall err, In (Raise err) inputs -> Js.nullish err = false) ->
  rejected s = false -> rejected (run s inputs) = false.
Proof.
  induction inputs as [|i rest IH]; intros s Hi Hs; [exact Hs|].
  change (run s (i :: rest)) with (run (step s i) rest).
  apply IH; [intros err Hin; apply Hi; now right|].
  apply step_accepted; [|exact Hs]. intros err ->. apply Hi. now left.
Qed.

Lemma step_gone s i : i <> Disconnect -> gone (step s i) = gone s.
Proof.
  intro Hi. destruct i as [ | | | m | | err]; try congruence.
  - unfold step. destruct (timer s); [|reflexivity].
    destruct (gone s) eqn:Hg.
    + now rewrite heartbeat_gone.
    + now rewrite heartbeat_open.
  - destruct (stage s) eqn:S; [now rewrite step_loaded | |]; unfold step; now rewrite S.
  - destruct (stage s) eqn:S; [unfold step; now rewrite S | | unfold step; now rewrite S].
    rewrite step_yield by assumption.
    destruct (snd (classify m)) as [[]|err]; [reflexivity|]. now rewrite caught_stop.
  - destruct (stage s) eqn:S; [unfold step; now rewrite S | | unfold step; now rewrite S].
    now rewrite step_return.
  - destruct (finished s) eqn:F.
    + unfold step. unfold finished in F. now destruct (stage s).
    + now rewrite step_raise, caught_stop.
Qed.

Lemma run_gone inputs : forall s,
  (forall i, In i inputs -> i <> Disconnect) -> gone (run s inputs) = gone s.
Proof.
  induction inputs as [|i rest IH]; intros s Hi; [reflexivity|].
  change (run s (i :: rest)) with (run (step s i) rest).
  rewrite IH by (intros j Hj; apply Hi; now right).
  apply step_gone, Hi. now left.
Qed.

Lemma written_without_failure tr :
  existsb is_failure tr = false -> written tr = sent tr.
Proof.
  induction tr as [|e tr IH]; [reflexivity|]. simpl. intro H.
  apply orb_false_iff in H as [He Ht]. rewrite (IH Ht).
  destruct e as [ | | | | | [|ev] | | | | ]; try reflexivity; discriminate.
Qed.

Lemma handler_gone body key : gone (handler body key) = false.
Proof.
  unfold handler. destruct (Js.nullish body); [reflexivity|].
  destruct (negb (Js.isArray (Js.prop body "favoriteMovies"))
            || Js.is_zero_length (Js.prop body "favoriteMovies")); [reflexivity|].
  destruct (negb (Js.truthy (env_value key))); reflexivity.
Qed.

Lemma transition_opening s s' :
  opening_inv s -> transition s s' ->
  opening_inv s'
  /\ favoriteMovies s' = favoriteMovies s /\ moviePreferences s' = moviePreferences s.
Proof.
  unfold opening_inv. intros Hs H.
  destruct H as [ | | Ht Hg | Ht Hg | Hst | m Hst Hr | m err Hst Hr | Hst | err Hf].
  - auto.
  - auto.
  - view_simpl. auto.
  - view_simpl. auto.
  - rewrite Hst in Hs. destruct Hs as [E C]. unfold prefs_of. view_simpl.
    rewrite E, C. split; [|auto]. split; [reflexivity|]. now exists [].
  - rewrite Hst in Hs. destruct Hs as [C (rest & E)]. unfold prefs_of in *. view_simpl.
    rewrite Hst, E, C. split; [|auto]. split; [reflexivity|]. now eexists.
  - rewrite Hst in Hs. destruct Hs as [C (rest & E)]. unfold prefs_of in *. view_simpl.
    rewrite E, C. split; [|auto]. right. split; [reflexivity|]. now eexists.
  - rewrite Hst in Hs. destruct Hs as [C (rest & E)]. unfold prefs_of in *. view_simpl.
    rewrite E, C. split; [|auto]. right. split; [reflexivity|]. now eexists.
  - unfold finished in Hf. unfold prefs_of in *. view_simpl.
    destruct (stage s); try discriminate.
    + destruct Hs as [E C]. rewrite E, C. split; [|auto]. left. split; [reflexivity|].
      unfold catch_events. destruct (Js.nullish err); [now left | right; now eexists].
    + destruct Hs as [C (rest & E)]. rewrite E, C. split; [|auto].
      right. split; [reflexivity|]. now eexists.
Qed.

Lemma handler_opening body key :
  opening_inv (handler body key)
  /\ favoriteMovies (handler body key) = Js.prop body "favoriteMovies"
  /\ moviePreferences (handler body key) = Js.prop body "moviePreferences".
Proof.
  unfold handler, opening_inv. destruct (Js.nullish body) eqn:Hb.
  - destruct body; try discriminate; simpl; auto.
  - destruct (negb (Js.isArray (Js.prop body "favoriteMovies"))
              || Js.is_zero_length (Js.prop body "favoriteMovies")); [simpl; auto|].
    destruct (negb (Js.truthy (env_value key))); simpl; auto.
Qed.

Lemma run_opening body key inputs :
  opening_inv (run (handler body key) inputs)
  /\ favoriteMovies (run (handler body key) inputs) = Js.prop body "favoriteMovies"
  /\ moviePreferences (run (handler body key) inputs) = Js.prop body "moviePreferences".
Proof.
  apply (run_invariant
           (fun s => opening_inv s
                     /\ favoriteMovies s = Js.prop body "favoriteMovies"
                     /\ moviePreferences s = Js.prop body "moviePreferences")).
  - intros s s' (Ho & Hf & Hp) H.
    destruct (transition_opening s s' Ho H) as (Ho' & Hf' & Hp').
    rewrite Hf', Hp'. auto.
  - apply handler_opening.
Qed.

End ViewFacts.

(** ** The message board *)

Module BoardFacts.
Import Board.

Lemma trim_end_cons c r :
  Js.trim_end (String c r)
  = match Js.trim_end r with
    | EmptyString => if Js.is_space c then EmptyString else String c EmptyString
    | kept => String c kept
    end.
Proof. reflexivity. Qed.

Lemma trim_end_idempotent s : Js.trim_end (Js.trim_end s) = Js.trim_end s.
Proof.
  induction s as [|c r IH]; [reflexivity|].
  rewrite (trim_end_cons c r). destruct (Js.trim_end r) as [|k ks] eqn:E.
  - destruct (Js.is_space c) eqn:Hc; [reflexivity|].
    rewrite trim_end_cons. cbn [Js.trim_end]. now rewrite Hc.
  - rewrite trim_end_cons, IH. reflexivity.
Qed.

Lemma trim_start_head s :
  Js.trim_start s = ""
  \/ exists c r, Js.trim_start s = String c r /\ Js.is_space c = false.
Proof.
  induction s as [|c r IH]; [now left|].
  cbn [Js.trim_start]. destruct (Js.is_space c) eqn:Hc; [exact IH|].
  right. now exists c, r.
Qed.

Lemma trim_end_head c r :
  Js.is_space c = false -> exists r', Js.trim_end (String c r) = String c r'.
Proof.
  intro Hc. rewrite trim_end_cons. destruct (Js.trim_end r); [|now eexists].
  rewrite Hc. now eexists.
Qed.

Lemma trim_idempotent s : Js.trim (Js.trim s) = Js.trim s.
Proof.
  unfold Js.trim.
  destruct (trim_start_head s) as [E|(c & r & E & Hc)]; rewrite E; [reflexivity|].
  destruct (trim_end_head c r Hc) as (r' & E').
  assert (Hs : Js.trim_start (Js.trim_end (String c r)) = Js.trim_end (String c r)).
  { rewrite E'. cbn [Js.trim_start]. now rewrite Hc. }
  rewrite Hs. apply trim_end_idempotent.
Qed.

Lemma trim_end_length s : String.length (Js.trim_end s) <= String.length s.
Proof.
  induction s as [|c r IH]; [apply Nat.le_refl|].
  rewrite trim_end_cons. destruct (Js.trim_end r) as [|k ks].
  - destruct (Js.is_space c); simpl; lia.
  - simpl in *. lia.
Qed.

Lemma trim_start_length s : String.length (Js.trim_start s) <= String.length s.
Proof.
  induction s as [|c r IH]; [apply Nat.le_refl|].
  cbn [Js.trim_start]. destruct (Js.is_space c); simpl; lia.
Qed.

Lemma trim_length s : String.length (Js.trim s) <= String.length s.
Proof.
  unfold Js.trim. etransitivity; [apply trim_end_length | apply trim_start_length].
Qed.

Lemma acceptable_text message :
  acceptable message = true ->
  exists text,
    message = VStr text
    /\ 0 < String.length (Js.trim text) <= MAX_MESSAGE_LENGTH
    /\ negb (Js.truthy message) || negb (String.eqb (Js.typeof message) "string") = false.
Proof.
  destruct message as [ | | | | text | | ]; try discriminate. simpl.
  intro H. apply andb_true_iff in H as [H0 H1].
  apply Nat.ltb_lt in H0. apply Nat.leb_le in H1.
  exists text. split; [reflexivity|]. split; [lia|].
  destruct text; [simpl in H0; lia | reflexivity].
Qed.

Lemma required_guard message :
  (negb (Js.truthy message) || negb (String.eqb (Js.typeof message) "string") = true
   /\ forall text, message = VStr text -> text = "")
  \/ (exists text,
        message = VStr text /\ text <> ""
        /\ negb (Js.truthy message) || negb (String.eqb (Js.typeof message) "string") = false).
Proof.
  destruct message as [ | | flag | z | text | items | fields];
    try (left; split; [try destruct flag; reflexivity | intros t Ht; discriminate Ht]).
  - left. split; [apply orb_true_r | intros t Ht; discriminate Ht].
  - destruct text as [|ch rest].
    + left. split; [reflexivity | intros t Ht; now injection Ht as <-].
    + right. exists (String ch rest). split; [reflexivity|]. split; [discriminate|reflexivity].
Qed.

Lemma post_accepted c body b text :
  Js.nullish body = false ->
  Js.prop body "message" = VStr text ->
  acceptable (VStr text) = true ->
  post_message c body b
  = ((messages <- readMessages ;;
      messages <- push messages (posted_entry c (Js.trim text)) ;;
      writeMessages messages ;;
      sendTelegramNotification c
        ("New message on Message Board:" ++ newline ++ newline ++ Js.trim text) ;;
      retB (ReplyJson 201 (posted_entry c (Js.trim text))))%board) b.
Proof.
  intros Hb Hm Ha. destruct (acceptable_text _ Ha) as (t & Ht & [H0 H1] & Hg).
  injection Ht as <-.
  unfold post_message. unfold bindB at 1, memberB. rewrite Hb. unfold retB at 1.
  rewrite Hm, Hg. cbn [trimmed_of].
  destruct (Nat.eqb_spec (String.length (Js.trim text)) 0) as [E|_]; [lia|].
  destruct (Nat.ltb_spec MAX_MESSAGE_LENGTH (String.length (Js.trim text))) as [E|_]; [lia|].
  reflexivity.
Qed.

Lemma sent_notice c text b :
  exists n, sendTelegramNotification c text b = (Normal tt, mkBoard (disk b) (notices b ++ [n]))
    /\ (n = Skipped <->
        Js.truthy (Relay.env_value (token c)) = false
        \/ Js.truthy (Relay.env_value (chat_id c)) = false)
    /\ (n <> Skipped ->
        n = Requested ("https://api.telegram.org/bot"
                       ++ Js.to_string (Relay.env_value (token c)) ++ "/sendMessage")%string
                      (VObj [("chat_id", Relay.env_value (chat_id c)); ("text", VStr text)])).
Proof.
  unfold sendTelegramNotification.
  destruct (Js.truthy (Relay.env_value (token c))) eqn:Ht;
    destruct (Js.truthy (Relay.env_value (chat_id c))) eqn:Hc; cbn [negb orb].
  - eexists. split; [reflexivity|]. split; [|auto].
    split; [discriminate | intros [H|H]; discriminate].
  - exists Skipped. split; [reflexivity|]. split; [|congruence]. split; auto.
  - exists Skipped. split; [reflexivity|]. split; [|congruence]. split; auto.
  - exists Skipped. split; [reflexivity|]. split; [|congruence]. split; auto.
Qed.

Lemma normal_items items :
  Json.normal (VArr items)
  = VArr (map (fun x => match x with VUndef => VNull | _ => Json.normal x end) items).
Proof. reflexivity. Qed.

Lemma normal_append old entry :
  Json.parsed (VArr old) -> Json.parsed entry -> entry <> VUndef ->
  Json.parsed (VArr (old ++ [entry])).
Proof.
  unfold Json.parsed. rewrite !normal_items. intros Ho He Hu.
  injection Ho as Ho. rewrite map_app, Ho. cbn [map]. rewrite He.
  destruct entry; congruence.
Qed.

Lemma posted_entry_parsed c trimmed : Json.parsed (posted_entry c trimmed).
Proof. reflexivity. Qed.

Lemma stored_array b text c :
  forall items, disk b = Stored (VArr items) ->
  exists n,
    ((messages <- readMessages ;;
      messages <- push messages (posted_entry c text) ;;
      writeMessages messages ;;
      sendTelegramNotification c
        ("New message on Message Board:" ++ newline ++ newline ++ text) ;;
      retB (ReplyJson 201 (posted_entry c text)))%board) b
    = (Normal (ReplyJson 201 (posted_entry c text)),
       mkBoard (Stored (Json.normal (VArr (items ++ [posted_entry c text]))))
               (notices b ++ [n]))
    /\ (n = Skipped <-> unconfigured c)
    /\ (n <> Skipped ->
        n = Requested ("https://api.telegram.org/bot"
                       ++ Js.to_string (Relay.env_value (token c)) ++ "/sendMessage")%string
                      (VObj [("chat_id", Relay.env_value (chat_id c));
                             ("text", VStr ("New message on Message Board:"
                                            ++ newline ++ newline ++ text))])).
Proof.
  intros items Hd.
  unfold bindB at 1. unfold readMessages. rewrite Hd.
  unfold bindB at 1. cbn [push retB].
  unfold bindB at 1. cbn [writeMessages].
  match goal with |- context [bindB (sendTelegramNotification c ?t) _ ?b0] =>
    destruct (sent_notice c t b0) as (n & Hn & Hskip & Hreq)
  end.
  exists n. unfold bindB. rewrite Hn. cbn [retB disk notices].
  split; [reflexivity|]. split; [exact Hskip | exact Hreq].
Qed.

Lemma unreadable b text c :
  (forall items, disk b <> Stored (VArr items)) ->
  exists err,
    ((messages <- readMessages ;;
      messages <- push messages (posted_entry c text) ;;
      writeMessages messages ;;
      sendTelegramNotification c
        ("New message on Message Board:" ++ newline ++ newline ++ text) ;;
      retB (ReplyJson 201 (posted_entry c text)))%board) b
    = (Thrown err, b).
Proof.
  intro Hd. unfold bindB at 1. unfold readMessages.
  destruct (disk b) as [ | | content] eqn:E; try (eexists; reflexivity).
  unfold bindB at 1.
  destruct content; try (eexists; reflexivity). now destruct (Hd items).
Qed.

Lemma disk_cases b :
  (exists items, disk b = Stored (VArr items))
  \/ (forall items, disk b <> Stored (VArr items)).
Proof.
  destruct (disk b) as [ | | content]; try (right; discriminate).
  destruct content; try (right; discriminate). left. now eexists.
Qed.

Lemma acceptable_cases message :
  acceptable message = false \/ exists text, message = VStr text /\ acceptable (VStr text) = true.
Proof.
  destruct (acceptable message) eqn:E; [right|now left].
  destruct (acceptable_text _ E) as (text & -> & _). now exists text.
Qed.

Lemma memberB_nullish {C : Type} v k (f : value -> B C) b :
  Js.nullish v = true -> exists err, bindB (memberB v k) f b = (Thrown err, b).
Proof. intro H. unfold bindB, memberB. rewrite H. eexists. reflexivity. Qed.

Lemma memberB_object {C : Type} v k (f : value -> B C) b :
  Js.nullish v = false -> bindB (memberB v k) f b = f (Js.prop v k) b.
Proof. intro H. unfold bindB, memberB. now rewrite H. Qed.

Lemma post_refused (c : context) (body : value) (b : board) :
  Js.nullish body = false ->
  acceptable (Js.prop body "message") = false ->
  exists error,
    post_message c body b = (Normal (ReplyJson 400 (VObj [("error", VStr error)])), b)
    /\ ((error = "Message is required"
         /\ forall text, Js.prop body "message" = VStr text -> text = "")
        \/ (error = "Message cannot be empty"
            /\ exists text, Js.prop body "message" = VStr text
                            /\ text <> "" /\ Js.trim text = "")
        \/ (error = "Message must be 280 characters or less"
            /\ exists text, Js.prop body "message" = VStr text
                            /\ 280 < String.length (Js.trim text))).
Proof.
  intros Hb Ha. unfold post_message. unfold bindB, memberB. rewrite Hb. unfold retB.
  destruct (required_guard (Js.prop body "message")) as [Hreq|(text & Hm & Hne & Hg)].
  - destruct Hreq as [Hg Hstr]. rewrite Hg.
    eexists. split; [reflexivity|]. left. split; [reflexivity | exact Hstr].
  - rewrite Hg, Hm. cbn [trimmed_of]. rewrite Hm in Ha. simpl in Ha.
    destruct (Nat.eqb_spec (String.length (Js.trim text)) 0) as [E0|E0].
    + eexists. split; [reflexivity|]. right; left. split; [reflexivity|].
      exists text. split; [reflexivity|]. split; [exact Hne|].
      destruct (Js.trim text); [reflexivity | discriminate E0].
    + destruct (Nat.ltb_spec MAX_MESSAGE_LENGTH (String.length (Js.trim text))) as [E1|E1].
      * eexists. split; [reflexivity|]. right; right. split; [reflexivity|].
        exists text. split; [reflexivity | exact E1].
      * exfalso. apply andb_false_iff in Ha as [Ha|Ha].
        -- apply Nat.ltb_ge in Ha. lia.
        -- apply Nat.leb_gt in Ha. lia.
Qed.

Lemma sender_of_object from b :
  Js.nullish from = false ->
  sender_of from b
  = (if printable_sender from then Normal (sender_text from) else Thrown Js.no_primitive, b).
Proof.
  intro H. unfold sender_of, sender_text, printable_sender.
  rewrite memberB_object by assumption.
  destruct (Js.truthy (Js.prop from "username")).
  - now destruct (Js.convertible (Js.prop from "username")).
  - rewrite !memberB_object by assumption.
    now destruct (forallb Js.convertible _).
Qed.

Lemma name_like_printable from :
  name_like (Js.prop from "username") = true ->
  name_like (Js.prop from "first_name") = true ->
  name_like (Js.prop from "last_name") = true ->
  printable_sender from = true.
Proof.
  unfold printable_sender. intros Hu Hf Hl.
  destruct (Js.prop from "username"); try discriminate Hu;
    destruct (Js.prop from "first_name"); try discriminate Hf;
    destruct (Js.prop from "last_name"); try discriminate Hl;
    cbn [Js.truthy filter forallb Js.convertible andb];
    repeat match goal with |- context [negb (String.eqb ?x "")] =>
             destruct (negb (String.eqb x ""))
           end; reflexivity.
Qed.

Lemma text_carrier update :
  Js.truthy (update_text update) = true ->
  Js.nullish update = false /\ Js.nullish (Js.prop update "message") = false
  /\ update_text update = Js.prop (Js.prop update "message") "text".
Proof.
  unfold update_text, Js.opt_prop. intro H.
  destruct (Js.nullish update) eqn:Hu; [discriminate H|].
  destruct (Js.nullish (Js.prop update "message")) eqn:Hm; [discriminate H|]. auto.
Qed.

Lemma webhook_ignored c update b :
  Js.truthy (update_text update) = false ->
  telegram_webhook c update b = (Normal (ReplyStatus 200), b).
Proof. intro H. unfold telegram_webhook. fold (update_text update). now rewrite H. Qed.

Lemma webhook_anonymous c update b :
  Js.truthy (update_text update) = true ->
  Js.nullish (update_from update) = true ->
  exists err, telegram_webhook c update b = (Thrown err, b).
Proof.
  intros Ht Hf. destruct (text_carrier update Ht) as (Hu & Hm & _).
  unfold telegram_webhook. fold (update_text update). rewrite Ht. cbn [negb].
  rewrite !memberB_object by assumption. fold (update_from update).
  unfold bindB at 1, sender_of. unfold bindB at 1, memberB. rewrite Hf.
  eexists. reflexivity.
Qed.


Lemma webhook_stored c update b items :
  Js.truthy (update_text update) = true ->
  Js.nullish (update_from update) = false ->
  printable_sender (update_from update) = true ->
  disk b = Stored (VArr items) ->
  telegram_webhook c update b
  = (Normal (ReplyStatus 200),
     mkBoard (Stored (Json.normal
                        (VArr (items ++ [telegram_entry c (update_text update)
                                           (sender_text (update_from update))]))))
             (notices b)).
Proof.
  intros Ht Hf Hp Hd. destruct (text_carrier update Ht) as (Hu & Hm & _).
  unfold telegram_webhook. fold (update_text update). rewrite Ht. cbn [negb].
  rewrite !memberB_object by assumption. fold (update_from update).
  unfold bindB at 1. rewrite sender_of_object by assumption. rewrite Hp.
  unfold bindB at 1, readMessages. rewrite Hd.
  unfold bindB at 1. cbn [push retB].
  unfold bindB. cbn [writeMessages retB]. reflexivity.
Qed.






Lemma normal_object_field k x rest :
  x <> VUndef ->
  Json.normal (VObj ((k, x) :: rest))
  = match Json.normal (VObj rest) with
    | VObj fields => VObj ((k, Json.normal x) :: Json.drop k fields)
    | other => other
    end.
Proof. intro H. destruct x; try reflexivity. congruence. Qed.

Lemma telegram_entry_parsed c text sender :
  Json.parsed text -> text <> VUndef -> Json.parsed (telegram_entry c text sender).
Proof.
  unfold Json.parsed, telegram_entry. intros Ht Hu.
  change (Json.normal
            (VObj [("id", VNum (now c)); ("message", text); ("timestamp", VStr (iso c));
                   ("source", VStr "telegram"); ("sender", VStr sender)]))
    with (match Json.normal
                  (VObj [("message", text); ("timestamp", VStr (iso c));
                         ("source", VStr "telegram"); ("sender", VStr sender)]) with
          | VObj fields => VObj (("id", VNum (now c)) :: Json.drop "id" fields)
          | other => other
          end).
  rewrite normal_object_field by exact Hu. rewrite Ht. reflexivity.
Qed.
Lemma serve_all_app rs1 rs2 b :
  serve_all (rs1 ++ rs2) b
  = (fst (serve_all rs1 b) ++ fst (serve_all rs2 (snd (serve_all rs1 b))),
     snd (serve_all rs2 (snd (serve_all rs1 b)))).
Proof.
  revert b. induction rs1 as [|r rest IH]; intro b.
  - cbn [app serve_all fst snd]. now destruct (serve_all rs2 b).
  - cbn [app serve_all]. destruct (serve r b) as [o b1]. rewrite IH.
    destruct (serve_all rest b1) as [os b2]. cbn [fst snd].
    now destruct (serve_all rs2 b2).
Qed.

Lemma entry_of_parsed p : Json.parsed (entry_of p) /\ entry_of p <> VUndef.
Proof. split; [reflexivity | discriminate]. Qed.

Lemma serve_posts posts : forall b old,
  Forall accepted_post posts ->
  disk b = Stored (VArr old) ->
  Json.parsed (VArr old) ->
  fst (serve_all (map (fun p => PostMessage (fst p) (snd p)) posts) b)
  = map (fun p => Normal (ReplyJson 201 (entry_of p))) posts
  /\ disk (snd (serve_all (map (fun p => PostMessage (fst p) (snd p)) posts) b))
     = Stored (VArr (old ++ map entry_of posts))
  /\ List.length (notices (snd (serve_all (map (fun p => PostMessage (fst p) (snd p)) posts) b)))
     = List.length (notices b) + List.length posts.
Proof.
  induction posts as [|p rest IH]; intros b old Hall Hd Hp.
  - cbn. rewrite app_nil_r. auto.
  - inversion Hall as [|p' rest' [Hb Ha] Hrest]; subst.
    destruct (acceptable_text _ Ha) as (text & Hm & _ & _).
    assert (Ha' : acceptable (VStr text) = true) by (now rewrite <- Hm).
    cbn [map serve_all serve].
    rewrite (post_accepted (fst p) (snd p) b text Hb Hm Ha').
    destruct (stored_array b (Js.trim text) (fst p) old Hd) as (n & -> & _).
    assert (He : posted_entry (fst p) (Js.trim text) = entry_of p).
    { unfold entry_of. now rewrite Hm. }
    rewrite He.
    assert (Hparsed : Json.parsed (VArr (old ++ [entry_of p]))).
    { apply normal_append; [exact Hp | apply entry_of_parsed | apply entry_of_parsed]. }
    rewrite Hparsed.
    specialize (IH (mkBoard (Stored (VArr (old ++ [entry_of p]))) (notices b ++ [n]))
                   (old ++ [entry_of p]) Hrest eq_refl Hparsed).
    destruct (serve_all (map (fun p0 => PostMessage (fst p0) (snd p0)) rest) _) as [os b2].
    cbn [fst snd] in *. destruct IH as (Ho & Hd2 & Hn).
    rewrite Ho, Hd2, Hn. cbn [map List.length notices]. rewrite <- app_assoc.
    rewrite length_app. cbn [List.length app]. split; [reflexivity|]. split; [reflexivity|]. lia.
Qed.
Lemma refusal_context_free c c' body b :
  Js.nullish body = false ->
  acceptable (Js.prop body "message") = false ->
  post_message c' body b = post_message c body b.
Proof.
  intros Hb Ha.
  destruct (post_refused c body b Hb Ha) as (e & -> & Hc).
  destruct (post_refused c' body b Hb Ha) as (e' & -> & Hc').
  assert (He : e' = e); [|now rewrite He].
  destruct Hc as [[-> H1]|[[-> (t & Hm & Hne & Ht)]|[-> (t & Hm & Hl)]]];
    destruct Hc' as [[-> H1']|[[-> (t' & Hm' & Hne' & Ht')]|[-> (t' & Hm' & Hl')]]];
    try reflexivity; exfalso.
  - now apply Hne', H1.
  - rewrite (H1 t' Hm') in Hl'. cbv in Hl'. lia.
  - now apply Hne, H1'.
  - assert (t' = t) by congruence. subst t'. rewrite Ht in Hl'. cbv in Hl'. lia.
  - rewrite (H1' t Hm) in Hl. cbv in Hl. lia.
  - assert (t' = t) by congruence. subst t'. rewrite Ht' in Hl. cbv in Hl. lia.
Qed.

Lemma unreadable_context_free b text text' c c' :
  (forall items, disk b <> Stored (VArr items)) ->
  ((messages <- readMessages ;;
    messages <- push messages (posted_entry c' text') ;;
    writeMessages messages ;;
    sendTelegramNotification c'
      ("New message on Message Board:" ++ newline ++ newline ++ text') ;;
    retB (ReplyJson 201 (posted_entry c' text')))%board) b
  = ((messages <- readMessages ;;
      messages <- push messages (posted_entry c text) ;;
      writeMessages messages ;;
      sendTelegramNotification c
        ("New message on Message Board:" ++ newline ++ newline ++ text) ;;
      retB (ReplyJson 201 (posted_entry c text)))%board) b.
Proof.
  intro Hd. unfold bindB at 1 5. unfold readMessages.
  destruct (disk b) as [ | | content] eqn:E; try reflexivity.
  destruct content; try reflexivity. now destruct (Hd items).
Qed.

End BoardFacts.

(** ** The agent's prompt *)

Module AgentFacts.
Import Relay Trace Shape Classifier Machine Views Agent.
Import ClassifierFacts BlockFacts MessageFacts MachineFacts RelayFacts ViewFacts.

Lemma append_assoc (a b c : string) : ((a ++ b) ++ c = a ++ b ++ c)%string.
Proof. induction a as [|x a IH]; cbn; [reflexivity | now rewrite IH]. Qed.

Lemma entry_cases prefs i movie :
  entry prefs i movie
  = if unusable prefs movie then Thrown not_a_function
    else Normal (heading i movie ++ note_of prefs movie)%string.
Proof.
  unfold entry, computed, unusable, note_of.
  destruct (Js.assoc movie prefs) as [v|].
  - destruct v as [ | | b | z | s | items | fields]; cbn [noted Js.truthy Js.typeof];
      try reflexivity.
    + now destruct b.
    + now destruct (Z.eqb z 0).
    + destruct (String.eqb s "") eqn:E; cbn [negb andb].
      * apply String.eqb_eq in E. subst s. reflexivity.
      * change (String.eqb "string" "string") with true. cbn [negb andb].
        now destruct (String.eqb (Js.trim s) "").
  - now destruct (existsb (String.eqb movie) object_prototype).
Qed.

Lemma entries_unusable prefs movies : forall i,
  existsb (unusable prefs) movies = true ->
  entries prefs i movies = Thrown not_a_function.
Proof.
  induction movies as [|movie rest IH]; intros i H; [discriminate H|].
  cbn [existsb] in H. cbn [entries]. rewrite entry_cases.
  destruct (unusable prefs movie); [reflexivity|].
  cbn [orb] in H. now rewrite (IH (S i) H).
Qed.

Lemma entries_usable prefs movies : forall i,
  existsb (unusable prefs) movies = false ->
  exists es,
    entries prefs i movies = Normal es
    /\ List.length es = List.length movies
    /\ forall k movie,
         nth_error movies k = Some movie ->
         nth_error es k = Some (heading (i + k) movie ++ note_of prefs movie)%string.
Proof.
  induction movies as [|movie rest IH]; intros i H.
  - exists []. split; [reflexivity|]. split; [reflexivity|].
    intros k movie Hk. now destruct k.
  - cbn [existsb] in H. apply orb_false_iff in H. destruct H as [Hm Hr].
    destruct (IH (S i) Hr) as (es & He & Hl & Hn).
    cbn [entries]. rewrite entry_cases, Hm, He. eexists. split; [reflexivity|].
    split; [cbn [List.length]; now rewrite Hl|].
    intros [|k] m Hk; cbn [nth_error] in *.
    + injection Hk as <-. now rewrite Nat.add_0_r.
    + rewrite (Hn k m Hk). now rewrite Nat.add_succ_comm.
Qed.

Lemma unusable_somewhere prefs movies :
  existsb (unusable prefs) movies = true
  <-> exists movie, In movie movies /\ unusable prefs movie = true.
Proof. apply existsb_exists. Qed.

Lemma unusable_nowhere prefs movies :
  (forall movie, In movie movies -> unusable prefs movie = false) ->
  existsb (unusable prefs) movies = false.
Proof.
  intro H. destruct (existsb (unusable prefs) movies) eqn:E; [|reflexivity].
  apply unusable_somewhere in E. destruct E as (movie & Hi & Hu).
  now rewrite (H movie Hi) in Hu.
Qed.

Lemma context_cases movies prefs :
  (existsb (unusable prefs) movies = true
   /\ moviesContext movies prefs = Thrown not_a_function)
  \/ (existsb (unusable prefs) movies = false
      /\ exists text, moviesContext movies prefs = Normal text).
Proof.
  unfold moviesContext. destruct (existsb (unusable prefs) movies) eqn:E.
  - left. now rewrite entries_unusable.
  - right. destruct (entries_usable prefs movies 0 E) as (es & -> & _).
    split; [reflexivity | now eexists].
Qed.

Lemma unusable_local prefs prefs' movie :
  Js.assoc movie prefs' = Js.assoc movie prefs ->
  unusable prefs' movie = unusable prefs movie
  /\ note_of prefs' movie = note_of prefs movie.
Proof. intro H. unfold unusable, note_of. now rewrite H. Qed.

Lemma entries_local prefs prefs' movies : forall i,
  (forall movie, In movie movies -> Js.assoc movie prefs' = Js.assoc movie prefs) ->
  entries prefs' i movies = entries prefs i movies.
Proof.
  induction movies as [|movie rest IH]; intros i H; [reflexivity|].
  cbn [entries]. rewrite !entry_cases.
  destruct (unusable_local prefs prefs' movie (H movie (or_introl eq_refl))) as [-> ->].
  rewrite (IH (S i)); [reflexivity|]. intros m Hm. apply H. now right.
Qed.

Lemma handler_accepts body key favs :
  Js.prop body "favoriteMovies" = VArr favs ->
  favs <> [] ->
  Js.truthy (env_value key) = true ->
  handler body key
  = mkState (VArr favs) (Js.prop body "moviePreferences") false true Importing []
            (sse_headers ++ [SetInterval 15000]).
Proof.
  intros Hf Hne Hk. unfold handler.
  destruct (Js.nullish body) eqn:Hb.
  { destruct body; try discriminate Hb; discriminate Hf. }
  rewrite Hf, Hk. cbn [Js.isArray negb orb Js.is_zero_length].
  destruct favs as [|m rest]; [now destruct Hne|]. reflexivity.
Qed.

End AgentFacts.

(** * The claims of the specification *)

Import Relay Trace Shape Classifier Machine Views.
Import ClassifierFacts BlockFacts MessageFacts MachineFacts RelayFacts ViewFacts.

(** C1 (amended).  For a request that begins streaming and whose handler
    ends without entering its [catch] clause, the Client Events handed to
    the connection are [start], the events of the consumed messages in
    order, then [done]: exactly one [done], the last event, preceded by as
    many [result]/[error] events as final-result messages were consumed, so
    by exactly one or none when there was one or none.  They have all been
    written when the client is still connected at the end. *)
Theorem C1_terminal_events (body : value) (key : option string) (inputs : list input) :
  let s := run (handler body key) inputs in
  stage (handler body key) = Importing ->
  finished s = true ->
  tally is_caught (trace s) = 0 ->
  sent (trace s) = (start_event :: flat_map events_of (consumed s)) ++ [EDone]
  /\ tally is_done (sent (trace s)) = 1
  /\ tally is_verdict (sent (trace s)) = tally final_result (consumed s)
  /\ (tally final_result (consumed s) <= 1 ->
      Spec.one_verdict_then_done (sent (trace s)) (tally final_result (consumed s)))
  /\ (gone s = false -> written (trace s) = sent (trace s)).
Proof.
  intros s Hstart Hfin Hcaught.
  destruct (run_events body key inputs Hstart) as [Hw Hst]. fold s in Hw, Hst.
  unfold finished in Hfin. destruct (stage s) as [ | | r]; try discriminate.
  destruct (Hst Hcaught) as (Hsent & Hshaped & _).
  destruct (count_verdicts _ Hshaped) as [Hv Hd].
  rewrite Hsent.
  assert (Hbefore : tally is_done (start_event :: flat_map events_of (consumed s)) = 0
                    /\ tally is_verdict (start_event :: flat_map events_of (consumed s))
                       = tally final_result (consumed s)).
  { rewrite !tally_cons. simpl. now rewrite Hv, Hd. }
  destruct Hbefore as [Hd0 Hv0].
  split; [reflexivity|]. split; [|split; [|split]].
  - rewrite tally_app, Hd0. reflexivity.
  - rewrite tally_app, Hv0. rewrite tally_cons, tally_nil. simpl. lia.
  - intro Hle. exists (start_event :: flat_map events_of (consumed s)).
    split; [reflexivity|]. split; [exact Hd0|]. rewrite Hv0. lia.
  - intro Hopen. rewrite (Hw Hopen). exact Hsent.
Qed.

Lemma C1_terminal_events_witness :
  sent (trace (run (handler Examples.request (Some "key"))
                   [Loaded; Yield (Examples.turn [Examples.search_block]); Tick;
                    Yield Examples.success; Return]))
  = [start_event; ESearch (VStr "Inception reviews");
     EResult (VStr "Try Memento and Primer."); EDone].
Proof.
  exact (proj1 (C1_terminal_events Examples.request (Some "key")
                  [Loaded; Yield (Examples.turn [Examples.search_block]); Tick;
                   Yield Examples.success; Return]
                  eq_refl eq_refl eq_refl)).
Defined.

(** C1 as stated fails three times.  When the agent's generator raises, the
    [catch] clause writes an [error] event and no [done] follows.  When two
    final-result messages arrive, two verdict events precede [done].  And
    when the client has gone before the end, no [done] is written. *)
Lemma C1_counterexample :
  (let s := run (handler Examples.request (Some "key"))
                [Loaded; Yield (Examples.turn [Examples.search_block]);
                 Raise Examples.boom] in
   finished s = true /\ gone s = false
   /\ written (trace s)
      = [start_event; ESearch (VStr "Inception reviews"); EError (VStr "boom")]
   /\ ~ Spec.one_verdict_then_done (written (trace s)) (tally final_result (consumed s)))
  /\
  (let s := run (handler Examples.request (Some "key"))
                [Loaded; Yield Examples.success;
                 Yield (Examples.failure (VArr [VStr "timeout"; VStr "rate limited"]));
                 Return] in
   finished s = true /\ gone s = false
   /\ written (trace s)
      = [start_event; EResult (VStr "Try Memento and Primer.");
         EError (VStr "timeout; rate limited"); EDone]
   /\ ~ Spec.one_verdict_then_done (written (trace s)) (tally final_result (consumed s)))
  /\
  (let s := run (handler Examples.request (Some "key"))
                [Loaded; Disconnect; Yield Examples.success; Return] in
   finished s = true
   /\ written (trace s) = [start_event]
   /\ ~ Spec.one_verdict_then_done (written (trace s)) (tally final_result (consumed s))).
Proof.
  split; [|split].
  - cbv zeta. split; [reflexivity|]. split; [reflexivity|]. split; [reflexivity|].
    intros (before & E & _).
    change (written _) with ([start_event; ESearch (VStr "Inception reviews")]
                             ++ [EError (VStr "boom")]) in E.
    apply app_inj_tail in E as [_ E]. discriminate.
  - cbv zeta. split; [reflexivity|]. split; [reflexivity|]. split; [reflexivity|].
    intros (before & E & _ & Hv).
    change (written _) with ([start_event; EResult (VStr "Try Memento and Primer.");
                              EError (VStr "timeout; rate limited")] ++ [EDone]) in E.
    apply app_inj_tail in E as [E _]. subst before.
    change (tally is_verdict _) with 2 in Hv.
    destruct Hv as [Hv | [Hv _]]; discriminate.
  - cbv zeta. split; [reflexivity|]. split; [reflexivity|].
    intros (before & E & _).
    change (written _) with ([] ++ [start_event]) in E.
    apply app_inj_tail in E as [_ E]. discriminate.
Qed.

(** C2.  What the code does with the heartbeat interval.  It is created
    exactly once, right after the headers are flushed.  [clearInterval] is
    called exactly once, by the [finally] block, when the handler ends; it
    is not called before, and the interval is active exactly while the
    handler runs.  Once the handler has ended nothing further is written and
    no timer is active, whatever happens later.  A client disconnect cancels
    nothing: [res.write] does not throw on a destroyed response, so the
    [catch] of the heartbeat callback, which holds the [clearInterval] meant
    for that case, is never entered.  Every later tick calls [res.write]
    again, to no effect, and the interval stays active until the handler
    ends: the claim fails there. *)
Theorem C2_heartbeat_lifetime
    (body : value) (key : option string) (inputs later : list input) (n : nat) :
  let s := run (handler body key) inputs in
  stage (handler body key) = Importing ->
  trace (handler body key) = sse_headers ++ [SetInterval 15000]
  /\ timer (handler body key) = true
  /\ tally is_set (trace s) = 1
  /\ tally is_clear (trace s) = (if finished s then 1 else 0)
  /\ timer s = negb (finished s)
  /\ (finished s = true ->
      tally is_end (trace s) = 1
      /\ (exists before, trace s = before ++ [ClearInterval; EndResponse])
      /\ trace (run s later) = trace s
      /\ timer (run s later) = false)
  /\ (gone s = true -> finished s = false ->
      trace (run s (repeat Tick n)) = trace s ++ repeat (WriteFailed Heartbeat) n
      /\ timer (run s (repeat Tick n)) = true
      /\ tally is_clear (trace (run s (repeat Tick n))) = 0
      /\ frames (trace (run s later)) = frames (trace s)
      /\ ~ Spec.cancelled_once_when_terminal (run s (repeat Tick n))).
Proof.
  intros s Hstart.
  destruct (run_lifetime body key inputs Hstart) as (Hset & Hend & Hclr & Hon & Hfin).
  fold s in Hset, Hend, Hclr, Hon, Hfin.
  rewrite (handler_streaming _ _ Hstart) at 1 2.
  split; [reflexivity|]. split; [reflexivity|]. split; [exact Hset|].
  split; [exact Hclr|]. split; [exact Hon|]. split.
  - intro Hf. assert (Ht : timer s = false) by (now rewrite Hon, Hf).
    destruct (finished_frozen s later Hf Ht) as (A & B & _).
    rewrite Hend, Hf. auto.
  - intros Hg Hf. assert (Ht : timer s = true) by (now rewrite Hon, Hf).
    destruct (lost_ticks n s Hg Ht) as (A & B & C & D).
    split; [exact A|]. split; [exact B|]. split; [|split].
    + rewrite A, tally_app, Hclr, Hf. now rewrite tally_repeat.
    + apply (gone_frozen s later Hg).
    + intro H. destruct (H (or_introl C)) as [H0 _]. rewrite B in H0. discriminate H0.
Qed.

Lemma C2_heartbeat_lifetime_witness :
  let s := run (handler Examples.request (Some "key")) [Loaded; Disconnect] in
  trace (run s (repeat Tick 2)) = trace s ++ [WriteFailed Heartbeat; WriteFailed Heartbeat]
  /\ timer (run s (repeat Tick 2)) = true
  /\ tally is_clear (trace (run s (repeat Tick 2))) = 0.
Proof.
  pose proof (C2_heartbeat_lifetime Examples.request (Some "key")
                [Loaded; Disconnect] [] 2 eq_refl) as H.
  cbv zeta in H. destruct H as (_ & _ & _ & _ & _ & _ & Hgone).
  destruct (Hgone eq_refl eq_refl) as (A & B & C & _).
  split; [exact A|]. split; [exact B | exact C].
Defined.

(** C3 (amended).  The loop body raises on exactly the messages that are not
    well shaped.  Every message whose nested fields, where the loop calls a
    method on them or iterates them, are absent or of the kind needed (an
    array of [errors] whose elements convert to strings, an array or string
    [content], a string [text]) is classified without an exception; a
    message that is not an object, and a message of a kind the loop does not
    recognise, is always among them and produces no Client Event.  On every
    other message the loop body throws a [TypeError], and the [catch] clause
    turns it into an [error] event carrying its message, after which the
    handler ends. *)
Theorem C3_classification_total_when_well_shaped (msg : value) :
  (well_shaped msg = true <-> raises msg = false)
  /\ (well_shaped msg = true ->
      emits (process_msg msg) (events_of msg) (Normal tt))
  /\ (objectlike msg = false -> emits (process_msg msg) [] (Normal tt))
  /\ (recognised msg = false -> emits (process_msg msg) [] (Normal tt))
  /\ (well_shaped msg = false ->
      exists text,
        emits (process_msg msg) (events_of msg) (Thrown (Js.type_error text))
        /\ forall s, stage s = Looping ->
             sent (trace (step s (Yield msg)))
             = sent (trace s) ++ events_of msg ++ [EError (VStr text)]
             /\ stage (step s (Yield msg)) = Finished None).
Proof.
  split; [|split; [|split; [|split]]].
  - rewrite raises_spec. destruct (well_shaped msg); simpl; split; congruence.
  - intro Hw. pose proof (process_msg_classify msg) as H.
    assert (Hr : raises msg = false) by (rewrite raises_spec, Hw; reflexivity).
    unfold raises in Hr. destruct (snd (classify msg)) as [[]|]; [exact H | discriminate].
  - apply skipped_msg.
  - apply unrecognised_msg.
  - intro Hw.
    assert (Hr : raises msg = true) by (rewrite raises_spec, Hw; reflexivity).
    unfold raises in Hr. destruct (snd (classify msg)) as [[]|err] eqn:E; [discriminate|].
    destruct (type_error_text err (classify_thrown msg err E)) as (Hn & text & Ht & ->).
    exists text. split.
    + pose proof (process_msg_classify msg) as H. now rewrite E in H.
    + intros s Hs. rewrite step_yield by assumption. rewrite E.
      rewrite caught_stop, after_catch_object by reflexivity. rewrite Ht.
      split; [view_simpl; now rewrite <- app_assoc | reflexivity].
Qed.

(** C3 as stated fails: a final-result failure whose [errors] is a string,
    or holds an object with a [toString] entry, an assistant turn whose
    [content] is a number, and a text block whose [text] is a number each
    make the loop body raise a [TypeError]. *)
Lemma C3_counterexample :
  raises (Examples.failure (VStr "timeout")) = true
  /\ raises (Examples.failure (VArr [VObj [("toString", VNum 1)]])) = true
  /\ raises (VObj [("type", VStr "assistant"); ("message", VObj [("content", VNum 7)])]) = true
  /\ raises (Examples.turn [Examples.numeric_text_block]) = true
  /\ ~ Spec.classification_total.
Proof.
  split; [reflexivity|]. split; [reflexivity|]. split; [reflexivity|]. split; [reflexivity|].
  intro H. specialize (H (Examples.failure (VStr "timeout"))). discriminate H.
Qed.

(** C4 (amended).  A write to a client that has gone fails without an
    exception, and [send] returns normally.  The loop goes on taking the
    agent's messages: all of a sequence of well-shaped messages is consumed
    and the handler then ends normally.  The relay keeps no record of the
    failure: each later event, [done] included, is still handed to
    [res.write], which fails in the same way, so that writes are still
    attempted but nothing more reaches the client. *)
Theorem C4_write_failure_swallowed (s : state) (msgs : list value) (ev : event) :
  gone s = true ->
  stage s = Looping ->
  forallb well_shaped msgs = true ->
  let after := run s (map Yield msgs) in
  let ended := run s (map Yield msgs ++ [Return]) in
  send ev s = (Normal tt, log (WriteFailed (Data ev)) s)
  /\ consumed after = consumed s ++ msgs
  /\ stage after = Looping
  /\ trace after
     = trace s ++ map (fun e => WriteFailed (Data e)) (flat_map events_of msgs)
  /\ trace ended = trace after ++ [WriteFailed (Data EDone); ClearInterval; EndResponse]
  /\ stage ended = Finished None
  /\ written (trace ended) = written (trace s).
Proof.
  intros Hg Hs Hw after ended.
  assert (Hafter : after = sends (flat_map events_of msgs) (takes msgs s))
    by (now apply run_yields).
  assert (Hended : ended = stop None (sends [EDone] after)).
  { unfold ended. rewrite run_app. fold after.
    change (run after [Return]) with (step after Return).
    apply step_return. rewrite Hafter. exact Hs. }
  assert (Htrace : trace after
                   = trace s ++ map (fun e => WriteFailed (Data e)) (flat_map events_of msgs)).
  { rewrite Hafter. cbn [sends takes trace gone]. now rewrite Hg. }
  assert (Hgone : gone after = true) by (rewrite Hafter; exact Hg).
  assert (Hend : trace ended
                 = trace after ++ [WriteFailed (Data EDone); ClearInterval; EndResponse]).
  { rewrite Hended. cbn [stop sends trace gone map]. rewrite Hgone.
    now rewrite <- app_assoc. }
  split; [unfold send, try_catch, res_write; now rewrite Hg|].
  split; [rewrite Hafter; reflexivity|].
  split; [rewrite Hafter; exact Hs|].
  split; [exact Htrace|]. split; [exact Hend|].
  split; [rewrite Hended; reflexivity|].
  rewrite Hend, Htrace, !written_app.
  assert (Hnone : forall evs, written (map (fun e => WriteFailed (Data e)) evs) = []).
  { induction evs as [|e evs IH]; [reflexivity | exact IH]. }
  rewrite Hnone. cbn [written flat_map app]. now rewrite !app_nil_r.
Qed.

Lemma C4_write_failure_swallowed_witness :
  let s := run (handler Examples.request (Some "key")) [Loaded; Disconnect] in
  trace (run s (map Yield [Examples.turn [Examples.search_block]; Examples.success]
                ++ [Return]))
  = trace s ++ [WriteFailed (Data (ESearch (VStr "Inception reviews")));
                WriteFailed (Data (EResult (VStr "Try Memento and Primer.")));
                WriteFailed (Data EDone); ClearInterval; EndResponse]
  /\ consumed (run s (map Yield [Examples.turn [Examples.search_block]; Examples.success]))
     = [Examples.turn [Examples.search_block]; Examples.success].
Proof.
  pose proof (C4_write_failure_swallowed
                (run (handler Examples.request (Some "key")) [Loaded; Disconnect])
                [Examples.turn [Examples.search_block]; Examples.success]
                EDone eq_refl eq_refl eq_refl) as H.
  cbv zeta in H. destruct H as (_ & Hc & _ & Ha & He & _).
  cbv zeta. split; [|exact Hc].
  rewrite He, Ha. rewrite <- app_assoc. reflexivity.
Defined.

(** C4 as stated fails: after the first failed write the relay goes on
    calling [res.write], once for each later event. *)
Lemma C4_counterexample :
  let s := run (handler Examples.request (Some "key"))
               [Loaded; Disconnect; Yield (Examples.turn [Examples.search_block]);
                Yield Examples.success; Return] in
  trace s
  = sse_headers
    ++ [SetInterval 15000; Write (Data start_event);
        CallAgent (VArr [VStr "Inception"]) (VObj []);
        WriteFailed (Data (ESearch (VStr "Inception reviews")));
        WriteFailed (Data (EResult (VStr "Try Memento and Primer.")));
        WriteFailed (Data EDone); ClearInterval; EndResponse]
  /\ Spec.no_write_after_failure (trace s) = false.
Proof. split; reflexivity. Qed.

(** C5 (amended).  A final-result message that reports success yields a
    [result] event carrying [msg.result] as it is.  One that reports failure
    yields an [error] event whose message is the errors joined by ["; "]
    when that text is not empty, and the fallback text when it is empty:
    when [errors] is absent, and, for a sequence of strings, when the
    sequence is empty or holds a single empty description.  That is for
    errors that convert to strings, as strings do; on a sequence that holds
    a value with no conversion the join throws and no event is sent for the
    message. *)
Theorem C5_final_result_events (msg : value) :
  objectlike msg = true ->
  Js.is_str (Js.prop msg "type") "result" = true ->
  (Js.is_str (Js.prop msg "subtype") "success" = true ->
   emits (process_msg msg) [EResult (Js.prop msg "result")] (Normal tt))
  /\ (Js.is_str (Js.prop msg "subtype") "success" = false ->
      (forall errors,
         Js.prop msg "errors" = VArr errors ->
         forallb Js.convertible errors = true ->
         emits (process_msg msg)
           [EError (if String.eqb (Js.join errors "; ") ""
                    then VStr "Research encountered an error"
                    else VStr (Js.join errors "; "))]
           (Normal tt))
      /\ (forall errors,
            Js.prop msg "errors" = VArr errors ->
            forallb Js.convertible errors = false ->
            emits (process_msg msg) [] (Thrown Js.no_primitive))
      /\ (Js.nullish (Js.prop msg "errors") = true ->
          emits (process_msg msg) [EError (VStr "Research encountered an error")] (Normal tt)))
  /\ (forall descriptions : list string,
        forallb Js.convertible (map VStr descriptions) = true
        /\ (String.eqb (Js.join (map VStr descriptions) "; ") "" = true
            <-> descriptions = [] \/ descriptions = [""])).
Proof.
  intros Ho Ht. split; [|split].
  - intro Hs. now apply result_success.
  - intro Hs. split; [|split].
    + intros errors He Hc. exact (result_failure_listed msg errors Ho Ht Hs He Hc).
    + intros errors He Hc. exact (result_failure_unconvertible msg errors Ho Ht Hs He Hc).
    + intro Hn. now apply result_failure_absent.
  - intro descriptions. split.
    + induction descriptions as [|d rest IH]; [reflexivity | exact IH].
    + rewrite String.eqb_eq. apply join_strings_empty.
Qed.

Lemma C5_final_result_events_witness :
  emits (process_msg Examples.success) [EResult (VStr "Try Memento and Primer.")] (Normal tt)
  /\ emits (process_msg (Examples.failure (VArr [VStr "timeout"; VStr "rate limited"])))
       [EError (VStr "timeout; rate limited")] (Normal tt)
  /\ emits (process_msg (Examples.failure (VArr [])))
       [EError (VStr "Research encountered an error")] (Normal tt).
Proof.
  split; [|split].
  - exact (proj1 (C5_final_result_events Examples.success eq_refl eq_refl) eq_refl).
  - exact (proj1 (proj1 (proj2 (C5_final_result_events
             (Examples.failure (VArr [VStr "timeout"; VStr "rate limited"]))
             eq_refl eq_refl)) eq_refl) _ eq_refl eq_refl).
  - exact (proj1 (proj1 (proj2 (C5_final_result_events
             (Examples.failure (VArr [])) eq_refl eq_refl)) eq_refl) _ eq_refl eq_refl).
Defined.

(** C5 as stated fails: the fallback is also used for an error sequence that
    is not empty, the one that holds a single empty description. *)
Lemma C5_counterexample :
  events_of (Examples.failure (VArr [VStr ""]))
    = [EError (VStr "Research encountered an error")]
  /\ ~ Spec.fallback_exactly_when_empty [""].
Proof.
  split; [reflexivity|].
  unfold Spec.fallback_exactly_when_empty. intros [H _].
  specialize (H eq_refl). discriminate H.
Qed.

(** C6.  For a [text] block of an assistant turn, whose [text] is a string,
    the loop sends a [thinking] event, carrying the trimmed text, if and
    only if the trimmed text has more than 0 and fewer than 500 characters;
    for a trimmed length of 500 or more it sends nothing.  In the turn's
    events the block contributes that event, or nothing, at its place
    between the events of the blocks before and after it. *)
Theorem C6_thinking_length_rule
    (block : value) (text : string) (msg : value) (before after : list value) :
  objectlike block = true ->
  Js.is_str (Js.prop block "type") "text" = true ->
  Js.prop block "text" = VStr text ->
  objectlike msg = true ->
  Js.is_str (Js.prop msg "type") "assistant" = true ->
  Js.opt_prop (Js.prop msg "message") "content" = VArr (before ++ block :: after) ->
  forallb block_ok (before ++ block :: after) = true ->
  let n := String.length (Js.trim text) in
  (0 < n < 500 ->
   emits (process_block block) [EThinking (VStr (Js.trim text))] (Normal tt))
  /\ (~ (0 < n < 500) -> emits (process_block block) [] (Normal tt))
  /\ ((exists content, In (EThinking content) (block_events block)) <-> 0 < n < 500)
  /\ (500 <= n -> block_events block = [])
  /\ events_of msg
     = flat_map block_events before
       ++ (if Nat.ltb 0 n && Nat.ltb n 500 then [EThinking (VStr (Js.trim text))] else [])
       ++ flat_map block_events after.
Proof.
  intros Ho Ht Hx Hmo Hmt Hc Hb n.
  pose proof (text_block block text Ho Ht Hx) as H. fold n in H.
  assert (Hin : 0 < n < 500 -> Nat.ltb 0 n && Nat.ltb n 500 = true).
  { intros [H0 H5]. apply andb_true_iff. split; now apply Nat.ltb_lt. }
  assert (Hout : ~ (0 < n < 500) -> Nat.ltb 0 n && Nat.ltb n 500 = false).
  { intro Hn. apply andb_false_iff.
    destruct (Nat.ltb_spec 0 n); [|now left].
    destruct (Nat.ltb_spec n 500); [|now right]. exfalso. apply Hn. lia. }
  assert (Hyes : 0 < n < 500 ->
                 emits (process_block block) [EThinking (VStr (Js.trim text))] (Normal tt)).
  { intro Hr. now rewrite (Hin Hr) in H. }
  assert (Hno : ~ (0 < n < 500) -> emits (process_block block) [] (Normal tt)).
  { intro Hr. now rewrite (Hout Hr) in H. }
  split; [exact Hyes|]. split; [exact Hno|]. split; [split|split].
  - intros (content & Hcontent).
    destruct (Nat.ltb_spec 0 n) as [H0|H0]; [destruct (Nat.ltb_spec n 500) as [H5|H5]|];
      [lia | exfalso | exfalso].
    + assert (Hr : ~ (0 < n < 500)) by lia.
      unfold block_events in Hcontent.
      now rewrite (proj1 (emits_classify_block _ _ _ (Hno Hr))) in Hcontent.
    + assert (Hr : ~ (0 < n < 500)) by lia.
      unfold block_events in Hcontent.
      now rewrite (proj1 (emits_classify_block _ _ _ (Hno Hr))) in Hcontent.
  - intro Hr. exists (VStr (Js.trim text)). unfold block_events.
    rewrite (proj1 (emits_classify_block _ _ _ (Hyes Hr))). now left.
  - intro Hr. unfold block_events.
    apply (proj1 (emits_classify_block _ _ _ (Hno ltac:(lia)))).
  - rewrite (proj1 (emits_classify _ _ _ (assistant_blocks msg _ Hmo Hmt Hc Hb))).
    rewrite flat_map_app. cbn [flat_map]. f_equal. f_equal.
    apply (proj1 (emits_classify_block _ _ _ H)).
Qed.

Lemma C6_thinking_length_rule_witness :
  events_of (Examples.turn [Examples.search_block; Examples.text_block; Examples.fetch_block])
  = [ESearch (VStr "Inception reviews"); EThinking (VStr "Looking at the reviews.");
     EFetch (VStr "https://www.rogerebert.com/")]
  /\ block_events (Examples.long_text_block 499) <> []
  /\ block_events (Examples.long_text_block 500) = [].
Proof.
  split; [|split].
  - exact (proj2 (proj2 (proj2 (proj2
             (C6_thinking_length_rule Examples.text_block "  Looking at the reviews. "
                (Examples.turn [Examples.search_block; Examples.text_block;
                                Examples.fetch_block])
                [Examples.search_block] [Examples.fetch_block]
                eq_refl eq_refl eq_refl eq_refl eq_refl eq_refl eq_refl))))).
  - intro H.
    assert (In (EThinking (VStr (Examples.filler 499)))
               (block_events (Examples.long_text_block 499))) as Hin.
    { vm_compute. now left. }
    rewrite H in Hin. exact Hin.
  - refine (proj1 (proj2 (proj2 (proj2
             (C6_thinking_length_rule (Examples.long_text_block 500)
                (" " ++ Examples.filler 500 ++ " ")
                (Examples.turn [Examples.long_text_block 500])
                [] [] eq_refl eq_refl eq_refl eq_refl eq_refl eq_refl eq_refl)))) _).
    vm_compute. apply Nat.leb_le. reflexivity.
Defined.

(** C7 (amended).  A [tool_use] block named [WebSearch] yields a [search]
    event whose query is the first truthy value among the input's [query]
    and [q], and the empty string when neither is truthy; one named
    [WebFetch] yields a [fetch] event with the input's [url] when that is
    truthy, and the empty string otherwise; any other name yields no event.
    Where every recognized field the input has is truthy, that is the first
    field present, as the claim has it.  The blocks of an assistant turn are
    handled in order: the turn's events are the blocks' events, one block
    after the other, so none, one or many. *)
Theorem C7_tool_invocation_blocks (block msg : value) (blocks : list value) :
  objectlike block = true ->
  Js.is_str (Js.prop block "type") "tool_use" = true ->
  objectlike msg = true ->
  Js.is_str (Js.prop msg "type") "assistant" = true ->
  Js.opt_prop (Js.prop msg "message") "content" = VArr blocks ->
  forallb block_ok blocks = true ->
  let input := Js.prop block "input" in
  emits (process_block block) (block_events block) (Normal tt)
  /\ (Js.is_str (Js.prop block "name") "WebSearch" = true ->
      block_events block
      = [ESearch (if Js.truthy (Js.opt_prop input "query") then Js.opt_prop input "query"
                  else if Js.truthy (Js.opt_prop input "q") then Js.opt_prop input "q"
                  else VStr "")])
  /\ (Js.is_str (Js.prop block "name") "WebSearch" = false ->
      Js.is_str (Js.prop block "name") "WebFetch" = true ->
      block_events block
      = [EFetch (if Js.truthy (Js.opt_prop input "url") then Js.opt_prop input "url"
                 else VStr "")])
  /\ (Js.is_str (Js.prop block "name") "WebSearch" = false ->
      Js.is_str (Js.prop block "name") "WebFetch" = false ->
      block_events block = [])
  /\ (Spec.usable ["query"; "q"] input -> Spec.usable ["url"] input ->
      block_events block = Spec.tool_events block)
  /\ emits (process_msg msg) (flat_map block_events blocks) (Normal tt)
  /\ events_of msg = flat_map block_events blocks.
Proof.
  intros Ho Ht Hmo Hmt Hc Hb input.
  pose proof (tool_block block Ho Ht) as Hblock.
  pose proof (assistant_blocks msg blocks Hmo Hmt Hc Hb) as Hmsg.
  assert (He : block_events block = tool_use_events block)
    by (apply (proj1 (emits_classify_block _ _ _ Hblock))).
  split; [now rewrite He|]. rewrite He. unfold tool_use_events. fold input.
  split; [|split; [|split; [|split; [|split]]]].
  - intros ->. reflexivity.
  - intros -> ->. reflexivity.
  - intros -> ->. reflexivity.
  - intros Hq Hu. unfold Spec.tool_events. fold input.
    rewrite (first_present_query input Hq), (first_present_url input Hu). reflexivity.
  - exact Hmsg.
  - apply (proj1 (emits_classify _ _ _ Hmsg)).
Qed.

Lemma C7_tool_invocation_blocks_witness :
  events_of (Examples.turn [Examples.search_block; Examples.text_block;
                            Examples.fetch_block; Examples.search_block])
  = [ESearch (VStr "Inception reviews"); EThinking (VStr "Looking at the reviews.");
     EFetch (VStr "https://www.rogerebert.com/"); ESearch (VStr "Inception reviews")]
  /\ block_events Examples.fetch_block = [EFetch (VStr "https://www.rogerebert.com/")].
Proof.
  pose proof (C7_tool_invocation_blocks Examples.fetch_block
                (Examples.turn [Examples.search_block; Examples.text_block;
                                Examples.fetch_block; Examples.search_block])
                [Examples.search_block; Examples.text_block;
                 Examples.fetch_block; Examples.search_block]
                eq_refl eq_refl eq_refl eq_refl eq_refl eq_refl) as H.
  cbv zeta in H. destruct H as (_ & _ & Hf & _ & _ & _ & Hm).
  split; [exact Hm | exact (Hf eq_refl eq_refl)].
Defined.

(** C7 as stated fails: a field that is present with a falsy value is passed
    over.  With [query] the empty string and [q] set, the query sent is
    that of [q]; with [url] the number 0, the url sent is the empty string. *)
Lemma C7_counterexample :
  block_events Examples.short_query_block = [ESearch (VStr "Memento")]
  /\ Spec.tool_events Examples.short_query_block = [ESearch (VStr "")]
  /\ block_events (VObj [("type", VStr "tool_use"); ("name", VStr "WebFetch");
                         ("input", VObj [("url", VNum 0)])])
     = [EFetch (VStr "")]
  /\ Spec.tool_events (VObj [("type", VStr "tool_use"); ("name", VStr "WebFetch");
                             ("input", VObj [("url", VNum 0)])])
     = [EFetch (VNum 0)].
Proof. repeat split; reflexivity. Qed.




(** C9.  After the event of a final-result message the loop is still
    running.  It goes on through every later message, whose events are
    written after the verdict and before [done]; each later final-result
    message adds a verdict of its own; and [done] is written only when the
    agent's sequence is exhausted. *)
Theorem C9_relay_continues_after_final_result
    (s : state) (final : value) (rest : list value) :
  stage s = Looping ->
  gone s = false ->
  final_result final = true ->
  forallb well_shaped (final :: rest) = true ->
  let after := run s (Yield final :: map Yield rest) in
  let ended := run s ((Yield final :: map Yield rest) ++ [Return]) in
  stage (step s (Yield final)) = Looping
  /\ (exists verdict,
        is_verdict verdict = true
        /\ events_of final = [verdict]
        /\ written (trace ended)
           = written (trace s) ++ [verdict] ++ flat_map events_of rest ++ [EDone])
  /\ tally is_verdict (flat_map events_of rest) = tally final_result rest
  /\ tally is_done (flat_map events_of rest) = 0
  /\ stage after = Looping
  /\ written (trace after) = written (trace s) ++ events_of final ++ flat_map events_of rest
  /\ finished ended = true.
Proof.
  intros Hs Hg Hf Hw after ended.
  assert (Hafter : after = sends (flat_map events_of (final :: rest)) (takes (final :: rest) s)).
  { unfold after. change (Yield final :: map Yield rest) with (map Yield (final :: rest)).
    now apply run_yields. }
  assert (Hended : ended = stop None (sends [EDone] after)).
  { unfold ended. rewrite run_app. fold after.
    change (run after [Return]) with (step after Return).
    apply step_return. rewrite Hafter. exact Hs. }
  cbn [forallb] in Hw. apply andb_true_iff in Hw as [Hwf Hwr].
  destruct (events_of_final final Hf Hwf) as (verdict & Hev & Hv).
  destruct (count_verdicts rest Hwr) as [Hcv Hcd].
  assert (Hwritten : written (trace after)
                     = written (trace s) ++ events_of final ++ flat_map events_of rest).
  { rewrite Hafter. rewrite written_sends by exact Hg. reflexivity. }
  split; [|split; [|split; [|split; [|split; [|split]]]]].
  - change (step s (Yield final)) with (run s (map Yield [final])).
    rewrite run_yields; [exact Hs | exact Hs | cbn [forallb]; now rewrite Hwf].
  - exists verdict. split; [exact Hv|]. split; [exact Hev|].
    rewrite Hended. cbn [stop trace]. rewrite written_app.
    rewrite written_sends by (rewrite Hafter; exact Hg).
    rewrite Hwritten, Hev. cbn [written flat_map app]. rewrite app_nil_r.
    now rewrite <- !app_assoc.
  - exact Hcv.
  - exact Hcd.
  - rewrite Hafter. exact Hs.
  - exact Hwritten.
  - rewrite Hended. reflexivity.
Qed.

Lemma C9_relay_continues_after_final_result_witness :
  let s := run (handler Examples.request (Some "key")) [Loaded] in
  written (trace (run s ((Yield Examples.success
                            :: map Yield [Examples.turn [Examples.search_block];
                                          Examples.failure (VArr [VStr "timeout"])])
                         ++ [Return])))
  = [start_event; EResult (VStr "Try Memento and Primer.");
     ESearch (VStr "Inception reviews"); EError (VStr "timeout"); EDone].
Proof.
  pose proof (C9_relay_continues_after_final_result
                (run (handler Examples.request (Some "key")) [Loaded])
                Examples.success
                [Examples.turn [Examples.search_block];
                 Examples.failure (VArr [VStr "timeout"])]
                eq_refl eq_refl eq_refl eq_refl) as H.
  cbv zeta in H. destruct H as (_ & (verdict & _ & Hev & Hw) & _).
  cbv zeta. rewrite Hw.
  assert (Hverdict : verdict = EResult (VStr "Try Memento and Primer."))
    by (injection Hev as <-; reflexivity).
  rewrite Hverdict. reflexivity.
Defined.

(** C10.  For a [WebSearch] block the query sent is [input.query] when that
    is truthy, else [input.q] when that is truthy, else the empty string (an
    absent [input] reads as [undefined] twice); so with [query] equal to the
    empty string and [q] a non-empty string, [q] is sent. *)
Theorem C10_search_query_falsy_fallback (block : value) :
  objectlike block = true ->
  Js.is_str (Js.prop block "type") "tool_use" = true ->
  Js.is_str (Js.prop block "name") "WebSearch" = true ->
  let input := Js.prop block "input" in
  emits (process_block block)
    [ESearch (if Js.truthy (Js.opt_prop input "query") then Js.opt_prop input "query"
              else if Js.truthy (Js.opt_prop input "q") then Js.opt_prop input "q"
              else VStr "")]
    (Normal tt)
  /\ (forall alternative,
        Js.opt_prop input "query" = VStr "" ->
        Js.opt_prop input "q" = VStr alternative ->
        alternative <> "" ->
        emits (process_block block) [ESearch (VStr alternative)] (Normal tt)).
Proof.
  intros Ho Ht Hn input.
  pose proof (search_block block Ho Ht Hn) as H. unfold pick_query in H. fold input in H.
  split; [exact H|].
  intros alternative Hq Ha Hne. rewrite Hq, Ha in H. simpl in H.
  apply String.eqb_neq in Hne. now rewrite Hne in H.
Qed.

Lemma C10_search_query_falsy_fallback_witness :
  emits (process_block Examples.short_query_block) [ESearch (VStr "Memento")] (Normal tt).
Proof.
  refine (proj2 (C10_search_query_falsy_fallback Examples.short_query_block
                   eq_refl eq_refl eq_refl) "Memento" eq_refl eq_refl _).
  discriminate.
Defined.

(** * Further properties of the code *)

(** ** The relay beyond the specification *)

Import Views ViewFacts.

(** X1.  A [tool_use_summary] message yields a [summary] event carrying
    [msg.summary] exactly when that is truthy, and a [tool_progress] message
    yields a [tool_progress] event exactly when [msg.tool_name] is truthy,
    with [msg.elapsed_time_seconds] passed on as it is, [undefined] when
    absent.  Neither kind ever makes the loop raise, whatever the types of
    its fields. *)
Theorem X1_summary_and_progress_events (msg : value) :
  objectlike msg = true ->
  (Js.is_str (Js.prop msg "type") "tool_use_summary" = true ->
   raises msg = false
   /\ events_of msg
      = if Js.truthy (Js.prop msg "summary")
        then [ESummary (Js.prop msg "summary")] else [])
  /\ (Js.is_str (Js.prop msg "type") "tool_progress" = true ->
      raises msg = false
      /\ events_of msg
         = if Js.truthy (Js.prop msg "tool_name")
           then [EToolProgress (Js.prop msg "tool_name")
                               (Js.prop msg "elapsed_time_seconds")]
           else []).
Proof.
  intro Ho. split; intro Ht.
  - destruct (emits_classify _ _ _ (summary_msg msg Ho Ht)) as [E O].
    split; [unfold raises; now rewrite O | exact E].
  - destruct (emits_classify _ _ _ (progress_msg msg Ho Ht)) as [E O].
    split; [unfold raises; now rewrite O | exact E].
Qed.

Lemma X1_summary_and_progress_events_witness :
  events_of (VObj [("type", VStr "tool_use_summary"); ("summary", VStr "Read 3 reviews")])
  = [ESummary (VStr "Read 3 reviews")]
  /\ events_of (VObj [("type", VStr "tool_progress"); ("tool_name", VStr "WebFetch")])
     = [EToolProgress (VStr "WebFetch") VUndef]
  /\ events_of (VObj [("type", VStr "tool_progress"); ("elapsed_time_seconds", VNum 4)])
     = [].
Proof.
  split; [|split].
  - exact (proj2 (proj1 (X1_summary_and_progress_events
             (VObj [("type", VStr "tool_use_summary"); ("summary", VStr "Read 3 reviews")])
             eq_refl) eq_refl)).
  - exact (proj2 (proj2 (X1_summary_and_progress_events
             (VObj [("type", VStr "tool_progress"); ("tool_name", VStr "WebFetch")])
             eq_refl) eq_refl)).
  - exact (proj2 (proj2 (X1_summary_and_progress_events
             (VObj [("type", VStr "tool_progress"); ("elapsed_time_seconds", VNum 4)])
             eq_refl) eq_refl)).
Defined.

(** X2.  When the awaited import or generator rejects with [err] while the
    handler is running, the [catch] clause logs it and the [finally] block
    clears the interval and ends the response; no [done] is sent and nothing
    is sent afterwards.  For an [err] that is an object, exactly one [error]
    event follows the events sent so far, carrying [err.message], or the
    text ['An unexpected error occurred'] when that is falsy.  For [null] or
    [undefined] the [catch] clause itself throws on [err.message]: no event
    is sent and the handler's promise is rejected. *)
Theorem X2_upstream_rejection (s : state) (err : value) (later : list input) :
  finished s = false ->
  let s' := step s (Raise err) in
  (Js.nullish err = false ->
   sent (trace s') = sent (trace s) ++ [EError (error_text err)]
   /\ stage s' = Finished None)
  /\ (Js.nullish err = true ->
      sent (trace s') = sent (trace s) /\ rejected s' = true)
  /\ tally is_done (sent (trace s')) = tally is_done (sent (trace s))
  /\ timer s' = false
  /\ trace s' = trace s ++ [ConsoleError err]
                ++ map (fun ev => attempt (gone s) (Data ev)) (catch_events err)
                ++ [ClearInterval; EndResponse]
  /\ consumed s' = consumed s
  /\ trace (run s' later) = trace s'.
Proof.
  intros Hf s'. unfold s'. rewrite step_raise, caught_stop by assumption.
  split; [|split; [|split; [|split; [|split; [|split]]]]].
  - intro Hn. rewrite after_catch_object by assumption. view_simpl. auto.
  - intro Hn. unfold after_catch, catch_events, catch_rejection, rejected. rewrite Hn.
    view_simpl. auto.
  - unfold after_catch, catch_events. view_simpl. rewrite tally_app.
    destruct (Js.nullish err); cbn; lia.
  - reflexivity.
  - unfold after_catch. cbn [stop sends log trace gone].
    now rewrite <- !app_assoc.
  - reflexivity.
  - apply finished_frozen; reflexivity.
Qed.

Lemma X2_upstream_rejection_witness :
  let s := run (handler Examples.request (Some "key"))
               [Loaded; Yield (Examples.turn [Examples.search_block])] in
  sent (trace (step s (Raise Examples.boom)))
  = [start_event; ESearch (VStr "Inception reviews"); EError (VStr "boom")]
  /\ sent (trace (step s (Raise (VObj []))))
     = [start_event; ESearch (VStr "Inception reviews");
        EError (VStr "An unexpected error occurred")]
  /\ rejected (step s (Raise VNull)) = true.
Proof.
  cbv zeta. split; [|split].
  - exact (proj1 (proj1 (X2_upstream_rejection
             (run (handler Examples.request (Some "key"))
                  [Loaded; Yield (Examples.turn [Examples.search_block])])
             Examples.boom [] eq_refl) eq_refl)).
  - exact (proj1 (proj1 (X2_upstream_rejection
             (run (handler Examples.request (Some "key"))
                  [Loaded; Yield (Examples.turn [Examples.search_block])])
             (VObj []) [] eq_refl) eq_refl)).
  - exact (proj2 (proj1 (proj2 (X2_upstream_rejection
             (run (handler Examples.request (Some "key"))
                  [Loaded; Yield (Examples.turn [Examples.search_block])])
             VNull [] eq_refl)) eq_refl)).
Defined.

(** X3.  A message on which the loop body raises ends the request: the
    events the message had already sent stay sent, one [error] event with
    the [TypeError]'s message follows, no [done] is sent, and every later
    message is ignored. *)
Theorem X3_malformed_message_ends_request
    (s : state) (msg : value) (later : list input) :
  stage s = Looping ->
  raises msg = true ->
  let s' := step s (Yield msg) in
  exists text,
    snd (classify msg) = Thrown (Js.type_error text)
    /\ sent (trace s') = sent (trace s) ++ events_of msg ++ [EError (VStr text)]
    /\ consumed s' = consumed s ++ [msg]
    /\ stage s' = Finished None
    /\ timer s' = false
    /\ trace (run s' later) = trace s'
    /\ consumed (run s' later) = consumed s'.
Proof.
  intros Hs Hr s'. unfold s'. rewrite step_yield by assumption.
  unfold raises in Hr. destruct (snd (classify msg)) as [[]|err] eqn:E; [discriminate|].
  destruct (type_error_text err (classify_thrown msg err E)) as (Hn & text & Ht & ->).
  exists text. split; [reflexivity|].
  rewrite caught_stop, after_catch_object by assumption. rewrite Ht.
  split; [view_simpl; now rewrite <- app_assoc|].
  split; [reflexivity|]. split; [reflexivity|]. split; [reflexivity|].
  match goal with |- context [run ?x later] =>
    destruct (finished_frozen x later eq_refl eq_refl) as (A & _ & _ & D)
  end.
  split; assumption.
Qed.

Lemma X3_malformed_message_ends_request_witness :
  let s := run (handler Examples.request (Some "key")) [Loaded] in
  let msg := Examples.turn [Examples.search_block; Examples.numeric_text_block;
                            Examples.fetch_block] in
  exists text,
    sent (trace (run (step s (Yield msg)) [Yield Examples.success; Return]))
    = [start_event; ESearch (VStr "Inception reviews"); EError (VStr text)].
Proof.
  cbv zeta.
  destruct (X3_malformed_message_ends_request
              (run (handler Examples.request (Some "key")) [Loaded])
              (Examples.turn [Examples.search_block; Examples.numeric_text_block;
                              Examples.fetch_block])
              [Yield Examples.success; Return] eq_refl eq_refl)
    as (text & _ & Hsent & _ & _ & _ & Hlater & _).
  exists text. rewrite Hlater, Hsent. reflexivity.
Defined.

(** X4.  The handler's promise is never rejected unless a rejection with
    [null] or [undefined] reaches it: for a request with a body, and
    whatever the agent yields, every exception, the loop body's own
    included, ends in the [catch] clause. *)
Theorem X4_no_unhandled_rejection
    (body : value) (key : option string) (inputs : list input) :
  Js.nullish body = false ->
  (forall err, In (Raise err) inputs -> Js.nullish err = false) ->
  rejected (run (handler body key) inputs) = false.
Proof.
  intros Hb Hi. apply run_accepted; [exact Hi|]. now apply handler_accepted.
Qed.

Lemma X4_no_unhandled_rejection_witness :
  rejected (run (handler Examples.request (Some "key"))
                [Loaded; Yield (Examples.failure (VStr "timeout"));
                 Raise Examples.boom]) = false.
Proof.
  apply (X4_no_unhandled_rejection Examples.request (Some "key")
           [Loaded; Yield (Examples.failure (VStr "timeout")); Raise Examples.boom]
           eq_refl).
  intros err [H|[H|[H|[]]]]; try discriminate H.
  injection H as <-. reflexivity.
Defined.

(** X5.  Heartbeat ticks and a client disconnect are out of band: the
    events handed to [send], the messages taken from the agent, the stage
    the handler reaches and the call of the agent are those of the run with
    every tick and disconnect left out.  While no disconnect happens, every
    event handed to [send] is written. *)
Theorem X5_ticks_and_disconnects_out_of_band
    (body : value) (key : option string) (inputs : list input) :
  let s := run (handler body key) inputs in
  let quiet := run (handler body key) (filter awaited inputs) in
  sent (trace s) = sent (trace quiet)
  /\ consumed s = consumed quiet
  /\ stage s = stage quiet
  /\ calls (trace s) = calls (trace quiet)
  /\ ((forall i, In i inputs -> i <> Disconnect) -> written (trace s) = sent (trace s)).
Proof.
  intros s quiet.
  assert (Hrefl : same_view (handler body key) (handler body key))
    by (unfold same_view; repeat split; reflexivity).
  destruct (run_view inputs _ _ Hrefl) as (_ & _ & S & C & E & K).
  fold s quiet in S, C, E, K.
  split; [exact E|]. split; [exact C|]. split; [exact S|]. split; [exact K|].
  intro Hi. apply written_without_failure.
  apply (proj2 (run_silence body key inputs)).
  unfold s. rewrite run_gone by exact Hi. apply handler_gone.
Qed.

(** X6.  The agent is called at most once per request, with the request's
    [favoriteMovies] and with [moviePreferences], or [{}] when that is
    falsy; it has been called whenever the loop is running.  No Client
    Event precedes [start]: the first event sent is [start], unless the
    import failed, in which case the only event is one [error] and the
    agent was never called. *)
Theorem X6_one_call_after_start
    (body : value) (key : option string) (inputs : list input) :
  let s := run (handler body key) inputs in
  let call := (Js.prop body "favoriteMovies",
               if Js.truthy (Js.prop body "moviePreferences")
               then Js.prop body "moviePreferences" else VObj []) in
  (calls (trace s) = [] \/ calls (trace s) = [call])
  /\ (stage s = Looping -> calls (trace s) = [call])
  /\ (forall ev rest,
        sent (trace s) = ev :: rest ->
        (ev = start_event /\ calls (trace s) = [call])
        \/ (rest = [] /\ calls (trace s) = [] /\ exists message, ev = EError message)).
Proof.
  intros s call.
  destruct (run_opening body key inputs) as (Ho & Hf & Hp). fold s in Ho, Hf, Hp.
  unfold opening_inv, prefs_of in Ho. rewrite Hf, Hp in Ho. fold call in Ho.
  destruct (stage s) as [ | | r].
  - destruct Ho as [E C]. rewrite E, C.
    split; [now left|]. split; [discriminate|]. intros ev rest H. discriminate H.
  - destruct Ho as [C (rest0 & E)]. rewrite E, C.
    split; [now right|]. split; [reflexivity|].
    intros ev rest H. injection H as <- _. now left.
  - split; [destruct Ho as [[C _]|[C _]]; rewrite C; auto|]. split; [discriminate|].
    intros ev rest H. destruct Ho as [[C [E|(message & E)]]|[C (rest0 & E)]];
      rewrite E in H; try discriminate H.
    + injection H as <- <-. right. split; [reflexivity|]. split; [exact C|]. now eexists.
    + injection H as <- _. now left.
Qed.

(** ** The agent's prompt *)

Import Agent AgentFacts.

(** X13.  The prompt lists every favourite once, in the order given and
    numbered from 1.  When no favourite has an unusable preference,
    [moviesContext] is built: one entry per favourite, joined by blank
    lines, each with the number and the title in quotes and, on the next
    line, the trimmed preference when the request has a string for that
    title that does not trim to nothing, the placeholder otherwise.
    Preferences for titles that are not among the favourites change
    nothing. *)
Theorem X13_prompt_lists_every_favourite
    (favoriteMovies : list string) (moviePreferences : list (string * value)) :
  (forall movie, In movie favoriteMovies -> unusable moviePreferences movie = false) ->
  (exists es,
     moviesContext favoriteMovies moviePreferences
     = Normal (Js.glue (fun e => e) (Board.newline ++ Board.newline)%string es)
     /\ List.length es = List.length favoriteMovies
     /\ forall k movie,
          nth_error favoriteMovies k = Some movie ->
          nth_error es k
          = Some (decimal (k + 1) ++ ". " ++ quote ++ movie ++ quote ++ Board.newline
                  ++ "   " ++ note_of moviePreferences movie)%string)
  /\ (forall others,
        (forall movie, In movie favoriteMovies ->
                       Js.assoc movie others = Js.assoc movie moviePreferences) ->
        moviesContext favoriteMovies others
        = moviesContext favoriteMovies moviePreferences).
Proof.
  intro H. split.
  - destruct (entries_usable moviePreferences favoriteMovies 0
                (unusable_nowhere _ _ H)) as (es & He & Hl & Hn).
    exists es. unfold moviesContext. rewrite He. split; [reflexivity|].
    split; [exact Hl|]. intros k movie Hk. rewrite (Hn k movie Hk).
    unfold heading. cbn [Nat.add]. now rewrite !append_assoc.
  - intros others Ho. unfold moviesContext. now rewrite (entries_local _ _ _ 0 Ho).
Qed.

Lemma X13_prompt_lists_every_favourite_witness :
  moviesContext ["Alien"; "Heat"]
                [("Heat", VStr "  the diner scene "); ("Alien", VStr "   ")]
  = Normal ("1. " ++ quote ++ "Alien" ++ quote ++ Board.newline
            ++ "   (No specific preference noted)"
            ++ Board.newline ++ Board.newline
            ++ "2. " ++ quote ++ "Heat" ++ quote ++ Board.newline
            ++ "   What I love about it: the diner scene")%string.
Proof.
  destruct (X13_prompt_lists_every_favourite ["Alien"; "Heat"]
              [("Heat", VStr "  the diner scene "); ("Alien", VStr "   ")])
    as [(es & He & Hl & Hn) _].
  - intros movie [<-|[<-|[]]]; reflexivity.
  - rewrite He. destruct es as [|a [|b [|c es]]]; try discriminate Hl.
    pose proof (Hn 0 "Alien" eq_refl) as Ha. pose proof (Hn 1 "Heat" eq_refl) as Hb.
    cbn [nth_error] in Ha, Hb. injection Ha as ->. injection Hb as ->. reflexivity.
Defined.

(** X14.  Building the prompt fails exactly when some favourite has an
    unusable preference: a truthy value that is not a string, be it the
    request's own (a number, [true], an array, an object) or what a plain
    object inherits under that title.  It then throws the [TypeError] of
    calling [prefs.trim], and the SDK is never called.  In particular a
    favourite titled like a member of [Object.prototype], [constructor] or
    [toString] say, for which the request gives no preference, makes the
    prompt fail. *)
Theorem X14_prompt_fails_on_unusable_preference
    (favoriteMovies : list string) (moviePreferences : list (string * value)) :
  ((exists movie, In movie favoriteMovies /\ unusable moviePreferences movie = true)
   <-> moviesContext favoriteMovies moviePreferences = Thrown not_a_function)
  /\ (forall err, moviesContext favoriteMovies moviePreferences = Thrown err ->
                  err = not_a_function
                  /\ forall query,
                       runMovieAgent favoriteMovies moviePreferences query = [Raise err])
  /\ (forall movie,
        In movie favoriteMovies -> In movie object_prototype ->
        Js.assoc movie moviePreferences = None ->
        moviesContext favoriteMovies moviePreferences = Thrown not_a_function)
  /\ (forall movie v,
        In movie favoriteMovies ->
        Js.assoc movie moviePreferences = Some v ->
        Js.truthy v = true -> (forall s, v <> VStr s) ->
        moviesContext favoriteMovies moviePreferences = Thrown not_a_function).
Proof.
  assert (Hsome : forall movie, In movie favoriteMovies ->
                    unusable moviePreferences movie = true ->
                    moviesContext favoriteMovies moviePreferences = Thrown not_a_function).
  { intros movie Hi Hu.
    destruct (context_cases favoriteMovies moviePreferences) as [[_ E]|[E _]]; [exact E|].
    assert (existsb (unusable moviePreferences) favoriteMovies = true)
      by (apply unusable_somewhere; now exists movie).
    congruence. }
  split; [|split; [|split]].
  - split.
    + intros (movie & Hi & Hu). now apply (Hsome movie).
    + intro E. apply unusable_somewhere.
      destruct (context_cases favoriteMovies moviePreferences) as [[H _]|[_ (text & H)]];
        [exact H | congruence].
  - intros err E.
    assert (err = not_a_function).
    { destruct (context_cases favoriteMovies moviePreferences) as [[_ H]|[_ (text & H)]];
        congruence. }
    split; [assumption|]. intro query. unfold runMovieAgent. now rewrite E.
  - intros movie Hi Hp Ha. apply (Hsome movie Hi). unfold unusable. rewrite Ha.
    apply existsb_exists. exists movie. split; [exact Hp | apply String.eqb_refl].
  - intros movie v Hi Ha Ht Hs. apply (Hsome movie Hi). unfold unusable. rewrite Ha, Ht.
    destruct v; try reflexivity. now destruct (Hs s).
Qed.

(** X15.  A request with an unusable preference gets [start] and then one
    [error] event, the [TypeError]'s message, and nothing else: the agent is
    called, its prompt fails at the loop's first step, the [catch] clause
    answers and the response ends without [done], whatever the SDK would
    have done. *)
Theorem X15_unusable_preference_ends_request
    (body : value) (key : option string)
    (favoriteMovies : list string) (moviePreferences : list (string * value))
    (query : string -> list input) :
  Js.prop body "favoriteMovies" = VArr (map VStr favoriteMovies) ->
  (Js.prop body "moviePreferences" = VObj moviePreferences
   \/ (Js.truthy (Js.prop body "moviePreferences") = false /\ moviePreferences = [])) ->
  Js.truthy (env_value key) = true ->
  (exists movie, In movie favoriteMovies /\ unusable moviePreferences movie = true) ->
  let s := run (handler body key)
               (Loaded :: runMovieAgent favoriteMovies moviePreferences query) in
  calls (trace s) = [(VArr (map VStr favoriteMovies), VObj moviePreferences)]
  /\ sent (trace s) = [start_event; EError (VStr "prefs.trim is not a function")]
  /\ written (trace s) = sent (trace s)
  /\ stage s = Finished None
  /\ timer s = false.
Proof.
  intros Hf Hp Hk Hu s.
  assert (Hne : map VStr favoriteMovies <> []).
  { destruct Hu as (movie & Hi & _). destruct favoriteMovies; [destruct Hi | discriminate]. }
  assert (Hc : moviesContext favoriteMovies moviePreferences = Thrown not_a_function).
  { destruct (context_cases favoriteMovies moviePreferences) as [[_ E]|[E _]]; [exact E|].
    apply unusable_somewhere in Hu. congruence. }
  assert (Hprefs : prefs_of (handler body key) = VObj moviePreferences).
  { rewrite (handler_accepts body key _ Hf Hne Hk). unfold prefs_of.
    cbn.
    destruct Hp as [-> | [-> ->]]; reflexivity. }
  unfold s, runMovieAgent. rewrite Hc.
  change (run (handler body key) [Loaded; Raise not_a_function])
    with (step (step (handler body key) Loaded) (Raise not_a_function)).
  rewrite step_loaded by (now rewrite (handler_accepts body key _ Hf Hne Hk)).
  rewrite Hprefs.
  rewrite step_raise by reflexivity.
  rewrite caught_stop, after_catch_object by reflexivity.
  rewrite (handler_accepts body key _ Hf Hne Hk).
  repeat split; reflexivity.
Qed.

Lemma X15_unusable_preference_ends_request_witness :
  sent (trace (run (handler (VObj [("favoriteMovies", VArr [VStr "constructor"])])
                            (Some "key"))
                   (Loaded :: runMovieAgent ["constructor"] []
                                (fun _ => [Yield Examples.success; Return]))))
  = [start_event; EError (VStr "prefs.trim is not a function")].
Proof.
  refine (proj1 (proj2 (X15_unusable_preference_ends_request
                          (VObj [("favoriteMovies", VArr [VStr "constructor"])])
                          (Some "key") ["constructor"] []
                          (fun _ => [Yield Examples.success; Return])
                          eq_refl (or_intror (conj eq_refl eq_refl)) eq_refl _))).
  exists "constructor". split; [now left | reflexivity].
Defined.

(** ** The message board *)

Import Board BoardFacts.

(** X7.  For a request that has a body, [POST /api/messages] refuses a
    message that is not a string, is empty, trims to nothing or trims to
    more than 280 characters: it answers 400 with the error for the first
    check that fails, before the file is read, so the board is left as it
    was, even one whose file is missing or broken, and no notification is
    sent. *)
Theorem X7_post_refuses_bad_message (c : context) (body : value) (b : board) :
  Js.nullish body = false ->
  acceptable (Js.prop body "message") = false ->
  exists error,
    post_message c body b = (Normal (ReplyJson 400 (VObj [("error", VStr error)])), b)
    /\ ((error = "Message is required"
         /\ forall text, Js.prop body "message" = VStr text -> text = "")
        \/ (error = "Message cannot be empty"
            /\ exists text, Js.prop body "message" = VStr text
                            /\ text <> "" /\ Js.trim text = "")
        \/ (error = "Message must be 280 characters or less"
            /\ exists text, Js.prop body "message" = VStr text
                            /\ 280 < String.length (Js.trim text))).
Proof. exact (post_refused c body b). Qed.

Lemma X7_post_refuses_bad_message_witness :
  post_message (mkContext None None 0 "") (VObj [("message", VStr "   ")])
               (mkBoard Broken [])
  = (Normal (ReplyJson 400 (VObj [("error", VStr "Message cannot be empty")])),
     mkBoard Broken []).
Proof.
  destruct (X7_post_refuses_bad_message (mkContext None None 0 "")
              (VObj [("message", VStr "   ")]) (mkBoard Broken []) eq_refl eq_refl)
    as (error & Hpost & _).
  assert (Herror : error = "Message cannot be empty").
  { apply (f_equal fst) in Hpost. vm_compute in Hpost. now injection Hpost. }
  rewrite Herror in Hpost. exact Hpost.
Defined.

(** X8.  [POST /api/messages] with a string that trims to between 1 and 280
    characters, on a file that holds an array, answers 201 with the new
    record and stores the array with that record appended: the earlier
    records stay, in order.  The stored message is the trimmed text, which
    trimming again leaves as it is, and [GET /api/messages] then returns the
    extended array. *)
Theorem X8_post_appends_trimmed_message
    (c : context) (body : value) (b : board) (text : string) (old : list value) :
  Js.nullish body = false ->
  Js.prop body "message" = VStr text ->
  acceptable (VStr text) = true ->
  disk b = Stored (VArr old) ->
  Json.parsed (VArr old) ->
  let entry := posted_entry c (Js.trim text) in
  let after := snd (post_message c body b) in
  fst (post_message c body b) = Normal (ReplyJson 201 entry)
  /\ disk after = Stored (VArr (old ++ [entry]))
  /\ Js.prop entry "message" = VStr (Js.trim text)
  /\ Js.trim (Js.trim text) = Js.trim text
  /\ 1 <= String.length (Js.trim text) <= 280
  /\ Json.parsed (VArr (old ++ [entry]))
  /\ get_messages after = (Normal (ReplyJson 200 (VArr (old ++ [entry]))), after).
Proof.
  intros Hb Hm Ha Hd Hp entry after.
  assert (Hparsed : Json.parsed (VArr (old ++ [entry]))).
  { apply normal_append; [exact Hp | reflexivity | discriminate]. }
  assert (Hafter : fst (post_message c body b) = Normal (ReplyJson 201 entry)
                   /\ disk after = Stored (VArr (old ++ [entry]))).
  { unfold after. rewrite (post_accepted c body b text Hb Hm Ha).
    destruct (stored_array b (Js.trim text) c old Hd) as (n & -> & _).
    cbn [fst snd disk]. fold entry. now rewrite Hparsed. }
  destruct Hafter as [Hreply Hdisk].
  destruct (acceptable_text _ Ha) as (t & Ht & Hlen & _). injection Ht as <-.
  split; [exact Hreply|]. split; [exact Hdisk|]. split; [reflexivity|].
  split; [apply trim_idempotent|]. split; [unfold MAX_MESSAGE_LENGTH in Hlen; lia|].
  split; [exact Hparsed|].
  unfold get_messages, bindB, readMessages. now rewrite Hdisk.
Qed.

Lemma X8_post_appends_trimmed_message_witness :
  let c := mkContext None None 1700000000000 "2023-11-14T22:13:20.000Z" in
  fst (post_message c (VObj [("message", VStr "  hello board ")])
                    (mkBoard (Stored (VArr [])) []))
  = Normal (ReplyJson 201
              (VObj [("id", VNum 1700000000000); ("message", VStr "hello board");
                     ("timestamp", VStr "2023-11-14T22:13:20.000Z")])).
Proof.
  exact (proj1 (X8_post_appends_trimmed_message
                  (mkContext None None 1700000000000 "2023-11-14T22:13:20.000Z")
                  (VObj [("message", VStr "  hello board ")])
                  (mkBoard (Stored (VArr [])) []) "  hello board " []
                  eq_refl eq_refl eq_refl eq_refl eq_refl)).
Defined.

(** X9.  Posts compose.  After any number of accepted posts, one after the
    other, on a file that holds an array, each has been answered 201 with
    its own record, the file holds the earlier records followed by the new
    ones in the order of the posts, one notice has been issued per post, and
    a [GET /api/messages] returns that array; on a file the start-up has
    just created the array is the posts' records alone. *)
Theorem X9_posts_accumulate_in_order
    (posts : list (context * value)) (b : board) (old : list value) :
  Forall accepted_post posts ->
  disk b = Stored (VArr old) ->
  Json.parsed (VArr old) ->
  let requests := map (fun p => PostMessage (fst p) (snd p)) posts ++ [GetMessages] in
  fst (serve_all requests b)
  = map (fun p => Normal (ReplyJson 201 (entry_of p))) posts
    ++ [Normal (ReplyJson 200 (VArr (old ++ map entry_of posts)))]
  /\ disk (snd (serve_all requests b)) = Stored (VArr (old ++ map entry_of posts))
  /\ List.length (notices (snd (serve_all requests b)))
     = List.length (notices b) + List.length posts
  /\ (start_up Missing = Stored (VArr []) /\ Json.parsed (VArr [])).
Proof.
  intros Hall Hd Hp requests. unfold requests. rewrite serve_all_app.
  destruct (serve_posts posts b old Hall Hd Hp) as (Ho & Hd2 & Hn).
  cbn [fst snd]. rewrite Ho.
  cbn [serve_all serve]. unfold get_messages, bindB, readMessages. rewrite Hd2.
  cbn [fst snd retB]. rewrite Hd2, Hn. repeat split; reflexivity.
Qed.

Lemma X9_posts_accumulate_in_order_witness :
  let first := (mkContext None None 1 "t1", VObj [("message", VStr " one ")]) in
  let second := (mkContext (Some "tk") (Some "42") 2 "t2", VObj [("message", VStr "two")]) in
  disk (snd (serve_all [PostMessage (fst first) (snd first);
                        PostMessage (fst second) (snd second); GetMessages]
                       (mkBoard (start_up Missing) [])))
  = Stored (VArr [VObj [("id", VNum 1); ("message", VStr "one"); ("timestamp", VStr "t1")];
                  VObj [("id", VNum 2); ("message", VStr "two"); ("timestamp", VStr "t2")]]).
Proof.
  intros first second.
  refine (proj1 (proj2 (X9_posts_accumulate_in_order [first; second]
                          (mkBoard (start_up Missing) []) [] _ eq_refl eq_refl))).
  repeat constructor.
Defined.

(** X10.  The Telegram webhook stores what it is sent as it is.  An update
    without a truthy [message.text] is answered 200 and changes nothing.
    One with a text and a sender whose names are strings, where it has
    them, is answered 200 and appended to the array on file with [source]
    ['telegram'], the text neither trimmed nor bounded, and as sender
    [@username] when the username is not empty, else the non-empty ones of
    first and last name joined by a space; no notification is sent.  One
    with a text but no [from] throws, and changes nothing. *)
Theorem X10_webhook_stores_text_verbatim
    (c : context) (update : value) (b : board) (old : list value) :
  disk b = Stored (VArr old) ->
  Json.parsed (VArr old) ->
  Json.parsed (update_text update) ->
  let text := update_text update in
  let from := update_from update in
  (Js.truthy text = false ->
   telegram_webhook c update b = (Normal (ReplyStatus 200), b))
  /\ (Js.truthy text = true -> Js.nullish from = true ->
      exists err, telegram_webhook c update b = (Thrown err, b))
  /\ (Js.truthy text = true -> Js.nullish from = false ->
      name_like (Js.prop from "username") = true ->
      name_like (Js.prop from "first_name") = true ->
      name_like (Js.prop from "last_name") = true ->
      telegram_webhook c update b
      = (Normal (ReplyStatus 200),
         mkBoard (Stored (VArr (old ++ [telegram_entry c text (sender_text from)])))
                 (notices b))
      /\ (forall name, Js.prop from "username" = VStr name -> name <> "" ->
          sender_text from = ("@" ++ name)%string)
      /\ (Js.truthy (Js.prop from "username") = false ->
          sender_text from
          = Js.join (filter Js.truthy [Js.prop from "first_name"; Js.prop from "last_name"])
                    " ")).
Proof.
  intros Hd Hp Ht. cbv zeta. split; [|split].
  - apply webhook_ignored.
  - apply webhook_anonymous.
  - intros Htext Hfrom Hname Hfirst Hlast. split; [|split].
    + rewrite (webhook_stored c update b old Htext Hfrom
                 (name_like_printable _ Hname Hfirst Hlast) Hd).
      assert (Hu : update_text update <> VUndef).
      { intro E. rewrite E in Htext. discriminate Htext. }
      pose proof (normal_append old
                    (telegram_entry c (update_text update) (sender_text (update_from update)))
                    Hp
                    (telegram_entry_parsed c (update_text update)
                       (sender_text (update_from update)) Ht Hu)) as Hn.
      unfold Json.parsed in Hn. rewrite Hn; [reflexivity | discriminate].
    + intros name H Hne. unfold sender_text. rewrite H. cbn [Js.truthy Js.to_string].
      destruct (String.eqb name "") eqn:E; [|reflexivity].
      apply String.eqb_eq in E. now destruct Hne.
    + intro H. unfold sender_text. now rewrite H.
Qed.

Lemma X10_webhook_stores_text_verbatim_witness :
  let update :=
    VObj [("message",
           VObj [("text", VStr "  hi  ");
                 ("from", VObj [("first_name", VStr "Ada"); ("last_name", VStr "L")])])] in
  telegram_webhook (mkContext None None 7 "t7") update (mkBoard (Stored (VArr [])) [])
  = (Normal (ReplyStatus 200),
     mkBoard (Stored (VArr [VObj [("id", VNum 7); ("message", VStr "  hi  ");
                                  ("timestamp", VStr "t7"); ("source", VStr "telegram");
                                  ("sender", VStr "Ada L")]])) []).
Proof.
  exact (proj1 (proj2 (proj2 (X10_webhook_stores_text_verbatim
           (mkContext None None 7 "t7")
           (VObj [("message",
                   VObj [("text", VStr "  hi  ");
                         ("from", VObj [("first_name", VStr "Ada");
                                        ("last_name", VStr "L")])])])
           (mkBoard (Stored (VArr [])) []) [] eq_refl eq_refl eq_refl))
           eq_refl eq_refl eq_refl eq_refl eq_refl)).
Defined.


(** X12.  The Telegram notification is fire-and-forget.  What
    [POST /api/messages] answers and stores does not depend on the bot's
    token or the chat's id.  A post that is refused or throws issues no
    notice; an accepted one issues exactly one: the warning when the token
    or the chat id is missing or empty, else one request to the bot's
    [sendMessage] address with the chat id and the text announcing the
    trimmed message. *)
Theorem X12_notification_is_fire_and_forget
    (c : context) (tk ch : option string) (body : value) (b : board) :
  let c' := mkContext tk ch (now c) (iso c) in
  let after := snd (post_message c body b) in
  fst (post_message c body b) = fst (post_message c' body b)
  /\ disk after = disk (snd (post_message c' body b))
  /\ ((notices after = notices b
       /\ forall entry, fst (post_message c body b) <> Normal (ReplyJson 201 entry))
      \/ (exists n text,
            notices after = notices b ++ [n]
            /\ Js.prop body "message" = VStr text
            /\ fst (post_message c body b)
               = Normal (ReplyJson 201 (posted_entry c (Js.trim text)))
            /\ (n = Skipped <-> unconfigured c)
            /\ (n <> Skipped ->
                n = Requested
                      ("https://api.telegram.org/bot"
                       ++ Js.to_string (Relay.env_value (token c)) ++ "/sendMessage")%string
                      (VObj [("chat_id", Relay.env_value (chat_id c));
                             ("text", VStr ("New message on Message Board:"
                                            ++ newline ++ newline ++ Js.trim text))])))).
Proof.
  intros c' after. unfold after.
  destruct (Js.nullish body) eqn:Hb.
  { unfold post_message, bindB, memberB. rewrite Hb. cbn [throwB fst snd].
    split; [reflexivity|]. split; [reflexivity|]. left. split; [reflexivity | discriminate]. }
  destruct (acceptable_cases (Js.prop body "message")) as [Ha|(text & Hm & Ha)].
  { rewrite (refusal_context_free c c' body b Hb Ha).
    destruct (post_refused c body b Hb Ha) as (error & -> & _). cbn [fst snd].
    split; [reflexivity|]. split; [reflexivity|]. left. split; [reflexivity | discriminate]. }
  rewrite (post_accepted c body b text Hb Hm Ha), (post_accepted c' body b text Hb Hm Ha).
  destruct (disk_cases b) as [(items & Hd)|Hd].
  - destruct (stored_array b (Js.trim text) c items Hd) as (n & -> & Hskip & Hreq).
    destruct (stored_array b (Js.trim text) c' items Hd) as (n' & -> & _).
    cbn [fst snd disk notices].
    split; [reflexivity|]. split; [reflexivity|]. right. exists n, text. auto.
  - rewrite (unreadable_context_free b (Js.trim text) (Js.trim text) c c' Hd).
    destruct (unreadable b (Js.trim text) c Hd) as (err & ->). cbn [fst snd].
    split; [reflexivity|]. split; [reflexivity|]. left. split; [reflexivity | discriminate].
Qed.
